(** * Sdpei-CourseTableToiCS: timetable to calendar conversion

    A shallow embedding of [Sdpei-CourseTableToiCS.py]: the week-label
    parser, the session merger of [parse_course_info], the structured
    export of [save_courses_to_json] and the calendar generator
    [generate_ics_from_json], followed by the properties of the
    specification proved (or refuted) on that embedding.

    Conventions.  Python [int] is [Z]; [str] is [string], the UTF-8 bytes
    of the text; a [list] is a [list]; a raised exception is the [Raise]
    case of [result].  A [datetime] at midnight is its proleptic Gregorian
    ordinal (day 1 is 0001-01-01), as [datetime.toordinal] gives it. *)

From Stdlib Require Import ZArith List String Ascii Bool Lia.
From Stdlib Require Import Permutation Sorted DecimalString DecimalPos.
Import ListNotations.

Local Open Scope list_scope.
Local Open Scope string_scope.
Local Open Scope Z_scope.

(* ================================================================== *)
(** * Part I.  The Python runtime the program relies on                *)
(* ================================================================== *)

Module Py.

(** ** Exceptions *)

Inductive exn : Set :=
| ValueError
| KeyError
| IndexError
| OverflowError.

Inductive result (A : Type) : Type :=
| Ok (a : A)
| Raise (e : exn).

Arguments Ok {A} a.
Arguments Raise {A} e.

Definition bind {A B : Type} (c : result A) (k : A -> result B) : result B :=
  match c with
  | Ok a => k a
  | Raise e => Raise e
  end.

(** [try: c / except ValueError: handler]: any other exception goes on. *)
Definition try_except_ValueError {A : Type} (c handler : result A) : result A :=
  match c with
  | Ok a => Ok a
  | Raise ValueError => handler
  | Raise e => Raise e
  end.

(** [try: c / except: handler]. *)
Definition try_except {A : Type} (c handler : result A) : result A :=
  match c with
  | Ok a => Ok a
  | Raise _ => handler
  end.

(** [for x in xs: acc = body(acc, x)], stopping at the first exception. *)
Fixpoint for_each {A S : Type} (body : S -> A -> result S) (xs : list A) (acc : S)
  : result S :=
  match xs with
  | [] => Ok acc
  | x :: rest => bind (body acc x) (for_each body rest)
  end.

(** [[f(x) for x in xs]], left to right. *)
Fixpoint map_m {A B : Type} (f : A -> result B) (xs : list A) : result (list B) :=
  match xs with
  | [] => Ok []
  | x :: rest =>
      bind (f x) (fun y => bind (map_m f rest) (fun ys => Ok (y :: ys)))
  end.

(** ** Sequences *)

(** [l[i]] with Python's negative indices. *)
Definition index {A : Type} (l : list A) (i : Z) : result A :=
  let n := Z.of_nat (List.length l) in
  let k := if i <? 0 then i + n else i in
  if (0 <=? k) && (k <? n) then
    match nth_error l (Z.to_nat k) with
    | Some x => Ok x
    | None => Raise IndexError
    end
  else Raise IndexError.

(** [list(range(a, b))]. *)
Definition range (a b : Z) : list Z :=
  List.map (fun i => a + Z.of_nat i) (seq 0 (Z.to_nat (b - a))).

Fixpoint insert (x : Z) (l : list Z) : list Z :=
  match l with
  | [] => [x]
  | y :: l' => if x <=? y then x :: l else y :: insert x l'
  end.

(** [l.sort()] on a list of integers (the order is total, so every
    sorting algorithm returns the same list). *)
Fixpoint sort (l : list Z) : list Z :=
  match l with
  | [] => []
  | x :: l' => insert x (sort l')
  end.

Fixpoint list_eqb {A : Type} (eqb : A -> A -> bool) (l1 l2 : list A) : bool :=
  match l1, l2 with
  | [], [] => true
  | x :: l1', y :: l2' => eqb x y && list_eqb eqb l1' l2'
  | _, _ => false
  end.

(** ** Strings *)

Definition LF : string := String "010"%char EmptyString.

Fixpoint drop (n : nat) (s : string) : string :=
  match n, s with
  | O, _ => s
  | S n', String _ s' => drop n' s'
  | S _, EmptyString => EmptyString
  end.

(** [sep.join(ls)]. *)
Definition join (sep : string) (ls : list string) : string :=
  String.concat sep ls.

Fixpoint replace_from (old new : string) (skip : nat) (s : string) : string :=
  match s with
  | EmptyString => EmptyString
  | String c s' =>
      match skip with
      | S k => replace_from old new k s'
      | O =>
          if prefix old s
          then new ++ replace_from old new (String.length old - 1) s'
          else String c (replace_from old new O s')
      end
  end.

(** [s.replace(old, new)]: every occurrence, left to right, without
    overlap.  [skip] counts the bytes of a match still to be dropped. *)
Definition replace (old new s : string) : string :=
  match old with
  | EmptyString =>
      new ++ String.concat EmptyString
               (List.map (fun c => String c new) (list_ascii_of_string s))
  | String _ _ => replace_from old new O s
  end.

Fixpoint split_from (sep : ascii) (cur : string) (s : string) : list string :=
  match s with
  | EmptyString => [cur]
  | String c s' =>
      if Ascii.eqb c sep
      then cur :: split_from sep EmptyString s'
      else split_from sep (cur ++ String c EmptyString) s'
  end.

(** [s.split(sep)] for a separator of one character. *)
Definition split (sep : ascii) (s : string) : list string :=
  split_from sep EmptyString s.

(** [old in s]. *)
Fixpoint contains (old s : string) : bool :=
  prefix old s ||
  match s with
  | EmptyString => false
  | String _ s' => contains old s'
  end.

(** [str(n)] for an integer. *)
Definition str (n : Z) : string := NilZero.string_of_int (Z.to_int n).

(** ** [int(s)]

    CPython reads a text in two steps.  The first one
    ([_PyUnicode_TransformDecimalAndSpaceToASCII]) goes through the
    characters: a character below 127 is kept, a Unicode white space
    becomes a blank, a Unicode decimal digit becomes the ASCII digit of
    its value, and at any other character a question mark is written
    and the text is cut.  The second one ([PyLong_FromString], base 10)
    skips the C white space at both ends and reads one sign and the
    digits, which single underscores may group.  A failure is
    [ValueError].  (The limit of 4300 digits that recent versions put on
    the length of a numeral is left out.) *)

Definition byte (c : ascii) : Z := Z.of_nat (nat_of_ascii c).

Definition continuation (c : ascii) : bool :=
  (128 <=? byte c) && (byte c <? 192).

(** The characters of a text, as code points.  A text is kept as its
    UTF-8 bytes; a byte that does not begin a well-formed sequence, which
    the bytes of a Python text never have, is read as [-1]. *)
Fixpoint code_points (l : list ascii) : list Z :=
  match l with
  | [] => []
  | b0 :: l1 =>
      let n0 := byte b0 in
      if n0 <? 128 then n0 :: code_points l1
      else
        match l1 with
        | [] => [-1]
        | b1 :: l2 =>
            if n0 <? 224 then
              if (194 <=? n0) && continuation b1
              then ((n0 - 192) * 64 + (byte b1 - 128)) :: code_points l2
              else -1 :: code_points l1
            else
              match l2 with
              | [] => -1 :: code_points l1
              | b2 :: l3 =>
                  if n0 <? 240 then
                    let ch := (n0 - 224) * 4096 + (byte b1 - 128) * 64
                              + (byte b2 - 128) in
                    if continuation b1 && continuation b2 && (2048 <=? ch)
                       && negb ((55296 <=? ch) && (ch <=? 57343))
                    then ch :: code_points l3
                    else -1 :: code_points l1
                  else
                    match l3 with
                    | [] => -1 :: code_points l1
                    | b3 :: l4 =>
                        let ch := (n0 - 240) * 262144 + (byte b1 - 128) * 4096
                                  + (byte b2 - 128) * 64 + (byte b3 - 128) in
                        if (n0 <? 245) && continuation b1 && continuation b2
                           && continuation b3 && (65536 <=? ch) && (ch <=? 1114111)
                        then ch :: code_points l4
                        else -1 :: code_points l1
                    end
              end
        end
  end.

(** [Py_UNICODE_ISSPACE]: the code points of [_PyUnicode_IsWhitespace]. *)
Definition unicode_spaces : list Z :=
  [ 9; 10; 11; 12; 13; 28; 29; 30; 31; 32; 133; 160; 5760; 8192; 8193;
    8194; 8195; 8196; 8197; 8198; 8199; 8200; 8201; 8202; 8232; 8233; 8239;
    8287; 12288 ].

Definition Py_UNICODE_ISSPACE (ch : Z) : bool := existsb (Z.eqb ch) unicode_spaces.

(** [Py_UNICODE_TODECIMAL].  The decimal digits of a script are ten
    code points in a row, zero first; these are the zeros of Unicode
    14.0, the database of CPython 3.11. *)
Definition decimal_zeros : list Z :=
  [ 48; 1632; 1776; 1984; 2406; 2534; 2662; 2790; 2918; 3046; 3174; 3302;
    3430; 3558; 3664; 3792; 3872; 4160; 4240; 6112; 6160; 6470; 6608; 6784;
    6800; 6992; 7088; 7232; 7248; 42528; 43216; 43264; 43472; 43504; 43600;
    44016; 65296; 66720; 68912; 69734; 69872; 69942; 70096; 70384; 70736;
    70864; 71248; 71360; 71472; 71904; 72016; 72784; 73040; 73120; 92768;
    92864; 93008; 120782; 120792; 120802; 120812; 120822; 123200; 123632;
    125264; 130032 ].

Definition Py_UNICODE_TODECIMAL (ch : Z) : option Z :=
  match find (fun zero => (zero <=? ch) && (ch <? zero + 10)) decimal_zeros with
  | Some zero => Some (ch - zero)
  | None => None
  end.

(** One turn of the loop of the first step: the ASCII character written
    for [ch], if any. *)
Definition to_ascii (ch : Z) : option Z :=
  if ch <? 127 then Some ch
  else if Py_UNICODE_ISSPACE ch then Some 32
  else
    match Py_UNICODE_TODECIMAL ch with
    | Some decimal => Some (48 + decimal)
    | None => None
    end.

Fixpoint transform_decimal_and_space (l : list Z) : list Z :=
  match l with
  | [] => []
  | ch :: l' =>
      match to_ascii ch with
      | Some c => c :: transform_decimal_and_space l'
      | None => [63]
      end
  end.

(** [Py_ISSPACE]: the white space of C. *)
Definition Py_ISSPACE (c : Z) : bool :=
  ((9 <=? c) && (c <=? 13)) || (c =? 32).

Definition digit_of (c : Z) : option Z :=
  if (48 <=? c) && (c <=? 57) then Some (c - 48) else None.

Fixpoint lstrip (l : list Z) : list Z :=
  match l with
  | c :: l' => if Py_ISSPACE c then lstrip l' else l
  | [] => []
  end.

Definition strip (l : list Z) : list Z :=
  rev (lstrip (rev (lstrip l))).

Fixpoint digits_value (acc : Z) (after_digit : bool) (l : list Z) : option Z :=
  match l with
  | [] => if after_digit then Some acc else None
  | c :: l' =>
      match digit_of c with
      | Some d => digits_value (10 * acc + d) true l'
      | None =>
          if (c =? 95) && after_digit
          then digits_value acc false l'
          else None
      end
  end.

Definition int (s : string) : result Z :=
  let text := transform_decimal_and_space (code_points (list_ascii_of_string s)) in
  let body := strip text in
  let signed :=
    match body with
    | c :: rest =>
        if c =? 45 then option_map Z.opp (digits_value 0 false rest)
        else if c =? 43 then digits_value 0 false rest
        else digits_value 0 false body
    | [] => None
    end in
  match signed with
  | Some n => Ok n
  | None => Raise ValueError
  end.

(** [a, b = it] for an iterator that computes its items on demand: the
    items are taken in order, and a third one is asked for before the
    arity error is raised. *)
Definition unpack2 {A : Type} (it : list (result A)) : result (A * A) :=
  match it with
  | [] => Raise ValueError
  | x :: it1 =>
      bind x (fun a =>
        match it1 with
        | [] => Raise ValueError
        | y :: it2 =>
            bind y (fun b =>
              match it2 with
              | [] => Ok (a, b)
              | z :: _ => bind z (fun _ => Raise ValueError)
              end)
        end)
  end.

(** [d[k]] on a dictionary with string keys, kept as an association list. *)
Fixpoint getitem {V : Type} (d : list (string * V)) (k : string) : result V :=
  match d with
  | [] => Raise KeyError
  | (k', v) :: d' => if String.eqb k' k then Ok v else getitem d' k
  end.

(** ** [datetime] and [timedelta] *)

Definition max_ordinal : Z := 3652059.

Definition valid_ordinal (t : Z) : bool := (1 <=? t) && (t <=? max_ordinal).

(** [timedelta(days=n)]. *)
Definition timedelta (days : Z) : result Z :=
  if Z.abs days <=? 999999999 then Ok days else Raise OverflowError.

(** [t + timedelta(days=n)]. *)
Definition datetime_add (t days : Z) : result Z :=
  bind (timedelta days) (fun d =>
    if valid_ordinal (t + d) then Ok (t + d) else Raise OverflowError).

Definition is_leap (year : Z) : bool :=
  (year mod 4 =? 0) && (negb (year mod 100 =? 0) || (year mod 400 =? 0)).

Definition days_before_year (year : Z) : Z :=
  let y := year - 1 in y * 365 + y / 4 - y / 100 + y / 400.

Definition DAYS_IN_MONTH : list Z :=
  [-1; 31; 28; 31; 30; 31; 30; 31; 31; 30; 31; 30; 31].

Definition DAYS_BEFORE_MONTH : list Z :=
  [-1; 0; 31; 59; 90; 120; 151; 181; 212; 243; 273; 304; 334].

Definition days_before_month (year month : Z) : Z :=
  nth (Z.to_nat month) DAYS_BEFORE_MONTH 0
  + (if (2 <? month) && is_leap year then 1 else 0).

Definition ymd2ord (year month day : Z) : Z :=
  days_before_year year + days_before_month year month + day.

Definition ord2ymd (n : Z) : Z * Z * Z :=
  let n := n - 1 in
  let n400 := n / 146097 in
  let n := n mod 146097 in
  let year := n400 * 400 + 1 in
  let n100 := n / 36524 in
  let n := n mod 36524 in
  let n4 := n / 1461 in
  let n := n mod 1461 in
  let n1 := n / 365 in
  let n := n mod 365 in
  let year := year + n100 * 100 + n4 * 4 + n1 in
  if (n1 =? 4) || (n100 =? 4) then (year - 1, 12, 31)
  else
    let leapyear := (n1 =? 3) && (negb (n4 =? 24) || (n100 =? 3)) in
    let month := Z.shiftr (n + 50) 5 in
    let preceding :=
      nth (Z.to_nat month) DAYS_BEFORE_MONTH 0
      + (if (2 <? month) && leapyear then 1 else 0) in
    if n <? preceding then
      let month := month - 1 in
      let preceding :=
        preceding - (nth (Z.to_nat month) DAYS_IN_MONTH 0
                     + (if (month =? 2) && leapyear then 1 else 0)) in
      (year, month, n - preceding + 1)
    else (year, month, n - preceding + 1).

(** [str(n).zfill(width)] for a number that is not negative. *)
Definition zero_pad (width : nat) (n : Z) : string :=
  let s := str n in
  String.concat EmptyString (repeat "0" (width - String.length s)) ++ s.

(** [t.strftime("%Y%m%d")], the year on four digits. *)
Definition strftime_Ymd (t : Z) : string :=
  let '(y, m, d) := ord2ymd t in
  zero_pad 4 y ++ zero_pad 2 m ++ zero_pad 2 d.

End Py.

Import Py.

Declare Scope py_scope.
Notation "x <- c ;; k" := (bind c (fun x => k))
  (at level 61, c at next level, right associativity) : py_scope.
Local Open Scope py_scope.

(* ================================================================== *)
(** * Part II.  The program                                            *)
(* ================================================================== *)

(** ** Data *)

(** The labelled text of one [.divOneClass] block and the [row] and
    [col] attributes of the cell around it, as the markup library hands
    them over (each text already stripped). *)
Module Cell.
Record t : Set := make {
  spLUName : string;
  spTeacherName : string;
  spWeekInfo : string;
  spBuilding : string;
  spClassroom : string;
  row : string;
  col : string
}.
End Cell.

(** The dictionary [course_info] of [parse_course_info]. *)
Module Course.
Record t : Set := make {
  name : string;
  teacher : string;
  weeks : list Z;
  position : string;
  sections : list Z;
  day : Z
}.
End Course.

(** One record of the JSON file, [formatted_course]. *)
Module Json.
Record t : Set := make {
  name : string;
  teacher : string;
  time : string;
  sections : string;
  weeks : string;
  weeks_array : list Z;
  position : string;
  day : Z;
  section_array : list Z
}.
End Json.

(** ** [format_building_name] *)

Definition format_building_name (building_name : string) : string :=
  if prefix "济-" building_name then
    (* two characters, four bytes *)
    let building_number := drop 4 building_name in
    "山东体育学院" ++ building_number
  else building_name.

(** ** [parse_weeks_string] *)

Definition parse_weeks_string (weeks_str : string) : result (list Z) :=
  let weeks_str := replace "周" "" weeks_str in
  try_except_ValueError
    (pair <- unpack2 (List.map int (split "-" weeks_str)) ;;
     let '(start, end_) := pair in
     Ok (range start (end_ + 1)))
    (try_except
       (n <- int weeks_str ;; Ok [n])
       (Ok [])).

(** ** [sections_to_array] *)

Definition sections_to_array (section : string) : result (list Z) :=
  section <- int section ;;
  Ok [section; section + 1].

(** ** [parse_course_info] *)

Definition course_info_of (course_element : Cell.t) : result Course.t :=
  let row := Cell.row course_element in
  let col := Cell.col course_element in
  let building_name := Cell.spBuilding course_element in
  let formatted_building := format_building_name building_name in
  let classroom := Cell.spClassroom course_element in
  let name := Cell.spLUName course_element in
  let teacher := Cell.spTeacherName course_element in
  weeks <- parse_weeks_string (Cell.spWeekInfo course_element) ;;
  let position := formatted_building ++ LF ++ classroom in
  sections <- sections_to_array row ;;
  day <- int col ;;
  Ok (Course.make name teacher weeks position sections day).

(** The test of the scan: same [day], [weeks] and [sections]. *)
Definition same_slot (info course_info : Course.t) : bool :=
  (Course.day info =? Course.day course_info)
  && list_eqb Z.eqb (Course.weeks info) (Course.weeks course_info)
  && list_eqb Z.eqb (Course.sections info) (Course.sections course_info).

(** The scan for [existing_course]: the place of the first entry that
    matches, if any. *)
Fixpoint find_existing (course_infos : list Course.t) (course_info : Course.t)
  : option nat :=
  match course_infos with
  | [] => None
  | info :: rest =>
      if same_slot info course_info then Some O
      else option_map S (find_existing rest course_info)
  end.

(** [existing_course['position'] += ...]: the entry is the one held by
    the list, so the list sees the change. *)
Definition add_position (extra : string) (info : Course.t) : Course.t :=
  Course.make (Course.name info) (Course.teacher info) (Course.weeks info)
    (Course.position info ++ extra) (Course.sections info) (Course.day info).

Fixpoint update_at {A : Type} (i : nat) (f : A -> A) (l : list A) : list A :=
  match l, i with
  | [], _ => []
  | x :: l', O => f x :: l'
  | x :: l', S i' => x :: update_at i' f l'
  end.

Definition merge_course (course_infos : list Course.t) (course_info : Course.t)
  : list Course.t :=
  match find_existing course_infos course_info with
  | Some i =>
      update_at i (add_position ("  " ++ Course.position course_info)) course_infos
  | None => (course_infos ++ [course_info])%list
  end.

Definition parse_course_info (course_elements : list Cell.t)
  : result (list Course.t) :=
  for_each
    (fun course_infos course_element =>
       course_info <- course_info_of course_element ;;
       Ok (merge_course course_infos course_info))
    course_elements [].

(** ** [save_courses_to_json] *)

Definition weekday_names : list string :=
  ["周一"; "周二"; "周三"; "周四"; "周五"; "周六"; "周日"].

Definition format_course (course : Course.t) : result Json.t :=
  day_name <-
    (if (1 <=? Course.day course) && (Course.day course <=? 7)
     then index weekday_names (Course.day course - 1)
     else Ok ("星期" ++ str (Course.day course))) ;;
  s0 <- index (Course.sections course) 0 ;;
  s1 <- index (Course.sections course) 1 ;;
  let sections_str := "第" ++ str s0 ++ "-" ++ str s1 ++ "节" in
  let weeks_str := "第" ++ join "," (List.map str (Course.weeks course)) ++ "周" in
  let position := replace LF "-" (Course.position course) in
  Ok (Json.make (Course.name course) (Course.teacher course) day_name
        sections_str weeks_str (Course.weeks course) position
        (Course.day course) (Course.sections course)).

(** The records written to the file; reading the file back gives them
    again. *)
Definition save_courses_to_json (courses : list Course.t) : result (list Json.t) :=
  map_m format_course courses.

(** ** [generate_ics_from_json] *)

Record timeslot : Set := { startTime : string; endTime : string }.

Definition class_timetable : list (string * timeslot) :=
  [ ("1", {| startTime := "080000"; endTime := "084000" |});
    ("2", {| startTime := "085000"; endTime := "093000" |});
    ("3", {| startTime := "100000"; endTime := "104000" |});
    ("4", {| startTime := "105000"; endTime := "113000" |});
    ("5", {| startTime := "133000"; endTime := "141000" |});
    ("6", {| startTime := "142000"; endTime := "150000" |});
    ("7", {| startTime := "153000"; endTime := "161000" |});
    ("8", {| startTime := "162000"; endTime := "170000" |});
    ("9", {| startTime := "180000"; endTime := "184000" |});
    ("10", {| startTime := "185000"; endTime := "193000" |}) ].

Definition weekdays : list string := ["MO"; "TU"; "WE"; "TH"; "FR"; "SA"; "SU"].

(** Each string followed by a line feed. *)
Definition unlines (ls : list string) : string :=
  String.concat EmptyString (List.map (fun l => l ++ LF) ls).

Definition ical_begin_base : string :=
  unlines
    [ "BEGIN:VCALENDAR";
      "VERSION:2.0";
      "X-WR-CALNAME:课表";
      "X-APPLE-CALENDAR-COLOR:#FF2968";
      "X-WR-TIMEZONE:Asia/Shanghai";
      "BEGIN:VTIMEZONE";
      "TZID:Asia/Shanghai";
      "X-LIC-LOCATION:Asia/Shanghai";
      "BEGIN:STANDARD";
      "TZOFFSETFROM:+0800";
      "TZOFFSETTO:+0800";
      "TZNAME:CST";
      "DTSTART:19700101T000000";
      "END:STANDARD";
      "END:VTIMEZONE" ].

Definition ical_end : string := LF ++ "END:VCALENDAR".

(** [week_status]: 1 for odd weeks, 2 for even weeks, 0 for every week. *)
Definition week_status_of (weeks : list Z) : Z :=
  let is_odd := forallb (fun w => w mod 2 =? 1) weeks in
  let is_even := forallb (fun w => w mod 2 =? 0) weeks in
  if is_odd then 1
  else if is_even then 2
  else 0.

Definition delta_time_of (week_status start_week day : Z) : Z :=
  let delta_time := 7 * (start_week - 1) + day - 1 in
  if week_status =? 1 then
    if start_week mod 2 =? 0 then delta_time + 7 else delta_time
  else if week_status =? 2 then
    if negb (start_week mod 2 =? 0) then delta_time + 7 else delta_time
  else delta_time.

(** The local variables of the loop body up to [first_time_obj]. *)
Record recurrence : Set := {
  start_week : Z;
  end_week : Z;
  week_status : Z;
  first_time_obj : Z
}.

Definition recurrence_of (initial_time : Z) (course : Json.t) : result recurrence :=
  let day := Json.day course in
  let weeks := sort (Json.weeks_array course) in
  start_week <- index weeks 0 ;;
  end_week <- index weeks (-1) ;;
  let week_status := week_status_of weeks in
  let delta_time := delta_time_of week_status start_week day in
  first_time_obj <- datetime_add initial_time delta_time ;;
  Ok {| start_week := start_week; end_week := end_week;
        week_status := week_status; first_time_obj := first_time_obj |}.

Section Calendar.

(** The holiday oracle, [chinese_calendar.is_holiday]. *)
Variable is_holiday : Z -> bool.
(** [uid()]: the identifier of the n-th call of the run. *)
Variable uid : nat -> string.
(** The time of the run, already formatted. *)
Variable utc_now : string.
(** [datetime.strptime(_, "%Y%m%d")]; its exception is [ValueError]. *)
Variable strptime_Ymd : string -> result Z.

(** One turn of the loop over [range(start_week, end_week + 1)]. *)
Definition exclude_step (r : recurrence) (sections : list Z)
    (exclude_dates : list string) (week_num : Z) : result (list string) :=
  if (week_status r =? 1) && (week_num mod 2 =? 0) then Ok exclude_dates
  else if (week_status r =? 2) && (week_num mod 2 =? 1) then Ok exclude_dates
  else
    let week_delta := week_num - start_week r in
    class_date <- datetime_add (first_time_obj r) (7 * week_delta) ;;
    if is_holiday class_date then
      s0 <- index sections 0 ;;
      slot <- getitem class_timetable (str s0) ;;
      let exclude_date := strftime_Ymd class_date ++ "T" ++ startTime slot in
      Ok (exclude_dates ++ [exclude_date])%list
    else Ok exclude_dates.

Definition exclude_dates_of (r : recurrence) (sections : list Z)
  : result (list string) :=
  for_each (exclude_step r sections) (range (start_week r) (end_week r + 1)) [].

(** [_alarm_base], with the number of identifiers drawn so far. *)
Definition alarm_base (a_trigger : string) (n : nat) : string * nat :=
  match a_trigger with
  | EmptyString => (EmptyString, n)
  | String _ _ =>
      (unlines
         [ "BEGIN:VALARM";
           "ACTION:DISPLAY";
           "DESCRIPTION:This is an event reminder";
           "TRIGGER:" ++ a_trigger;
           "X-WR-ALARMUID:" ++ uid n;
           "UID:" ++ uid (S n);
           "END:VALARM" ],
       S (S n))
  end.

(** The body of the loop for a course whose [weeks] is not empty: the
    text handed to [f.write] and the number of identifiers drawn. *)
Definition event_block (initial_time : Z) (a_trigger : string)
    (course : Json.t) (n : nat) : result (string * nat) :=
  let day := Json.day course in
  let sections := Json.section_array course in
  r <- recurrence_of initial_time course ;;
  exclude_dates <- exclude_dates_of r sections ;;
  let exdate_str :=
    match exclude_dates with
    | [] => EmptyString
    | _ :: _ => "EXDATE;TZID=Asia/Shanghai:" ++ join "," exclude_dates ++ LF
    end in
  extra_status <-
    (if week_status r =? 0 then Ok "1"
     else wd <- index weekdays (day - 1) ;; Ok ("2;BYDAY=" ++ wd)) ;;
  s0 <- index sections 0 ;;
  let start_section := str s0 in
  s1 <- index sections 1 ;;
  let end_section := str s1 in
  start_slot <- getitem class_timetable start_section ;;
  let final_stime_str :=
    strftime_Ymd (first_time_obj r) ++ "T" ++ startTime start_slot in
  end_slot <- getitem class_timetable end_section ;;
  let final_etime_str :=
    strftime_Ymd (first_time_obj r) ++ "T" ++ endTime end_slot in
  let delta_week := 7 * (end_week r - start_week r) in
  stop_time_obj <- datetime_add (first_time_obj r) (delta_week + 1) ;;
  let stop_time_str := strftime_Ymd stop_time_obj ++ "T000000Z" in
  let '(_alarm_base, n1) := alarm_base a_trigger n in
  let _ical_base :=
    unlines
      [ "BEGIN:VEVENT";
        "CREATED:" ++ utc_now;
        "DTSTAMP:" ++ utc_now;
        "SUMMARY:" ++ Json.name course;
        "DESCRIPTION:教师：" ++ Json.teacher course;
        "LOCATION:" ++ Json.position course;
        "TZID:Asia/Shanghai";
        "SEQUENCE:0";
        "UID:" ++ uid n1 ]
    ++ exdate_str
    ++ unlines
      [ "RRULE:FREQ=WEEKLY;UNTIL=" ++ stop_time_str ++ ";INTERVAL=" ++ extra_status;
        "DTSTART;TZID=Asia/Shanghai:" ++ final_stime_str;
        "DTEND;TZID=Asia/Shanghai:" ++ final_etime_str;
        "X-APPLE-TRAVEL-ADVISORY-BEHAVIOR:AUTOMATIC" ]
    ++ _alarm_base
    ++ unlines [ "END:VEVENT" ] in
  Ok (_ical_base, S n1).

(** The loop over [courses]: [f] is what the file holds so far.  The
    result is what the file holds when the loop ends or is left by an
    exception, and that exception. *)
Fixpoint write_events (initial_time : Z) (a_trigger : string)
    (courses : list Json.t) (f : string) (n : nat) : string * option exn :=
  match courses with
  | [] => (f, None)
  | course :: rest =>
      match Json.weeks_array course with
      | [] => write_events initial_time a_trigger rest f n
      | _ :: _ =>
          match event_block initial_time a_trigger course n with
          | Ok (_ical_base, n') =>
              write_events initial_time a_trigger rest (f ++ _ical_base) n'
          | Raise e => (f, Some e)
          end
      end
  end.

(** What a call leaves behind: the value returned ([None] or the name of
    the file) and, when the file was opened, its name and content. *)
Record outcome : Set := {
  returned : option string;
  written : option (string * string)
}.

Definition generate_ics_from_json (courses : list Json.t)
    (first_week_date : string) (alarm_minutes : Z) : outcome :=
  match courses with
  | [] => {| returned := None; written := None |}
  | _ :: _ =>
      match strptime_Ymd first_week_date with
      | Raise _ => {| returned := None; written := None |}
      | Ok initial_time =>
          let a_trigger :=
            if 0 <? alarm_minutes then "-PT" ++ str alarm_minutes ++ "M"
            else EmptyString in
          let output_file := "课表-" ++ utc_now ++ ".ics" in
          match write_events initial_time a_trigger courses ical_begin_base O with
          | (f, None) =>
              {| returned := Some output_file;
                 written := Some (output_file, f ++ ical_end) |}
          | (f, Some _) =>
              {| returned := None; written := Some (output_file, f) |}
          end
      end
  end.

End Calendar.

(** ** [format_and_display_courses] and [save_courses_to_file] *)

(** [print(s)] on the text printed so far. *)
Definition print (out s : string) : string := out ++ s ++ LF.

(** The three labels computed at the head of the loop body. *)
Definition course_labels (course : Course.t) : result (string * string * string) :=
  day_name <-
    (if (1 <=? Course.day course) && (Course.day course <=? 7)
     then index weekday_names (Course.day course - 1)
     else Ok ("星期" ++ str (Course.day course))) ;;
  s0 <- index (Course.sections course) 0 ;;
  s1 <- index (Course.sections course) 1 ;;
  let sections_str := "第" ++ str s0 ++ "-" ++ str s1 ++ "节" in
  let weeks_str := "第" ++ join "," (List.map str (Course.weeks course)) ++ "周" in
  Ok (day_name, sections_str, weeks_str).

(** The loop of [format_and_display_courses]: what has been printed
    when it ends or is left by an exception, and that exception. *)
Fixpoint display_loop (courses : list Course.t) (out : string)
  : string * option exn :=
  match courses with
  | [] => (out, None)
  | course :: rest =>
      match course_labels course with
      | Raise e => (out, Some e)
      | Ok (day_name, sections_str, weeks_str) =>
          let out := print out (LF ++ "课程: " ++ Course.name course) in
          let out := print out ("教师: " ++ Course.teacher course) in
          let out := print out ("时间: " ++ day_name ++ " " ++ sections_str) in
          let out := print out ("周次: " ++ weeks_str) in
          let out := print out ("地点: " ++ Course.position course) in
          display_loop rest out
      end
  end.

Definition format_and_display_courses (courses : list Course.t)
  : string * option exn :=
  match display_loop courses (print "" (LF ++ "===== 课表信息 =====")) with
  | (out, None) => (print out (LF ++ "==================="), None)
  | (out, Some e) => (out, Some e)
  end.

(** The loop of [save_courses_to_file]: what the file holds when the
    loop ends or is left by an exception, and that exception. *)
Fixpoint file_loop (courses : list Course.t) (f : string) : string * option exn :=
  match courses with
  | [] => (f, None)
  | course :: rest =>
      match course_labels course with
      | Raise e => (f, Some e)
      | Ok (day_name, sections_str, weeks_str) =>
          let f := f ++ LF ++ "课程: " ++ Course.name course ++ LF in
          let f := f ++ "教师: " ++ Course.teacher course ++ LF in
          let f := f ++ "时间: " ++ day_name ++ " " ++ sections_str ++ LF in
          let f := f ++ "周次: " ++ weeks_str ++ LF in
          let f := f ++ "地点: " ++ Course.position course ++ LF in
          file_loop rest f
      end
  end.

Definition save_courses_to_file (courses : list Course.t) : string * option exn :=
  match file_loop courses ("===== 课表信息 =====" ++ LF) with
  | (f, None) => (f ++ LF ++ "===================" ++ LF, None)
  | (f, Some e) => (f, Some e)
  end.

(* ================================================================== *)
(** * Part III.  Notions of the specification                          *)
(* ================================================================== *)

(** The recurrence patterns, as the numbers of [week_status]. *)
Definition EVERY_WEEK : Z := 0.
Definition ODD_WEEKS : Z := 1.
Definition EVEN_WEEKS : Z := 2.

(** [min(weeks)] and [max(weeks)] of a week-set that is not empty. *)
Definition min_week (weeks : list Z) : Z := fold_right Z.min (hd 0 weeks) weeks.
Definition max_week (weeks : list Z) : Z := fold_right Z.max (hd 0 weeks) weeks.

(** The first occurrence computed for a session. *)
Definition first_occurrence (initial_time : Z) (course : Json.t) : result Z :=
  r <- recurrence_of initial_time course ;; Ok (first_time_obj r).

(** The parity shift of the specification: seven days when the
    pattern and the parity of the start week disagree. *)
Definition parity_shift (pattern startWeek : Z) : Z :=
  if (pattern =? ODD_WEEKS) && Z.even startWeek then 7
  else if (pattern =? EVEN_WEEKS) && Z.odd startWeek then 7
  else 0.

(** A week is a candidate when its parity does not disagree with the
    pattern. *)
Definition parity_agrees (pattern week : Z) : bool :=
  negb ((pattern =? ODD_WEEKS) && Z.even week)
  && negb ((pattern =? EVEN_WEEKS) && Z.odd week).

Definition candidate_weeks (pattern startWeek endWeek : Z) : list Z :=
  filter (parity_agrees pattern) (range startWeek (endWeek + 1)).

(** The occurrence of a week: the first occurrence moved by whole weeks. *)
Definition occurrence_date (r : recurrence) (week : Z) : Z :=
  first_time_obj r + 7 * (week - start_week r).

(** The candidate dates on which the oracle answers true. *)
Definition holiday_dates (is_holiday : Z -> bool) (r : recurrence) : list Z :=
  filter is_holiday
    (List.map (occurrence_date r)
       (candidate_weeks (week_status r) (start_week r) (end_week r))).

(** A date with a clock time, as an EXDATE value. *)
Definition exclusion_stamp (clock : string) (date : Z) : string :=
  strftime_Ymd date ++ "T" ++ clock.

(** The exclusion set of a session, from the anchor date. *)
Definition exclusion_set (is_holiday : Z -> bool) (initial_time : Z)
    (course : Json.t) : result (list string) :=
  r <- recurrence_of initial_time course ;;
  exclude_dates_of is_holiday r (Json.section_array course).

(** Merging.  The slot of a session is what the scan compares. *)
Definition slot (c : Course.t) : Z * list Z * list Z :=
  (Course.day c, Course.weeks c, Course.sections c).

(** The merger alone, on sessions already extracted. *)
Definition merge_sessions (raws : list Course.t) : list Course.t :=
  fold_left merge_course raws [].

(** The sessions that open a slot, in the order met; [seen] holds the
    sessions that opened a slot before. *)
Fixpoint first_seen_from (seen raws : list Course.t) : list Course.t :=
  match raws with
  | [] => []
  | r :: rest =>
      if existsb (fun s => same_slot s r) seen
      then first_seen_from seen rest
      else r :: first_seen_from (seen ++ [r])%list rest
  end.

Definition first_seen (raws : list Course.t) : list Course.t :=
  first_seen_from [] raws.

(** The entry of a slot: the session that opened it, its position
    replaced by the positions of all sessions of the slot, in the order
    met, joined by two spaces. *)
Definition merged_entry (raws : list Course.t) (first : Course.t) : Course.t :=
  Course.make (Course.name first) (Course.teacher first) (Course.weeks first)
    (join "  " (List.map Course.position (filter (same_slot first) raws)))
    (Course.sections first) (Course.day first).

Definition merge_spec (raws : list Course.t) : list Course.t :=
  List.map (merged_entry raws) (first_seen raws).

(** What later sessions add to an entry. *)
Definition extend (later : list Course.t) (c : Course.t) : Course.t :=
  add_position
    (String.concat ""
       (List.map (fun r => "  " ++ Course.position r) (filter (same_slot c) later)))
    c.

(** The entries opened by [raws], each extended by what follows it. *)
Fixpoint opened (seen raws : list Course.t) : list Course.t :=
  match raws with
  | [] => []
  | r :: rest =>
      if existsb (fun s => same_slot s r) seen
      then opened seen rest
      else extend rest r :: opened (seen ++ [r])%list rest
  end.

(** Week labels.  A numeral is written with decimal digits, of any
    script, which single underscores may group; at most one sign stands
    before them, and white space may stand around the whole. *)

(** White space: tab, line feed, vertical tab, form feed, carriage
    return and blank among the ASCII characters (not the separators 28
    to 31), and every white space of Unicode beyond them. *)
Definition blank (ch : Z) : bool :=
  if ch <? 127 then Py_ISSPACE ch else Py_UNICODE_ISSPACE ch.

(** The value of a decimal digit: 0 to 9 in ASCII, or a digit of
    another script. *)
Definition digit_value (ch : Z) : option Z :=
  if ch <? 127 then digit_of ch else Py_UNICODE_TODECIMAL ch.

(** The digits of a numeral, as code points, and the number they write. *)
Inductive digits : list Z -> Z -> Prop :=
| digits_one (ch d : Z) :
    digit_value ch = Some d -> digits [ch] d
| digits_next (l : list Z) (n ch d : Z) :
    digits l n -> digit_value ch = Some d ->
    digits (l ++ [ch])%list (10 * n + d)
| digits_group (l : list Z) (n ch d : Z) :
    digits l n -> digit_value ch = Some d ->
    digits (l ++ [95; ch])%list (10 * n + d).

(** The digits after their sign: 43 is the plus sign, 45 the minus sign. *)
Inductive signed_digits : list Z -> Z -> Prop :=
| signed_none (l : list Z) (n : Z) : digits l n -> signed_digits l n
| signed_plus (l : list Z) (n : Z) : digits l n -> signed_digits (43 :: l) n
| signed_minus (l : list Z) (n : Z) : digits l n -> signed_digits (45 :: l) (- n).

(** The text [s] is a numeral of the number [n]. *)
Definition numeral (s : string) (n : Z) : Prop :=
  exists before body after,
    code_points (list_ascii_of_string s) = (before ++ body ++ after)%list
    /\ Forall (fun ch => blank ch = true) before
    /\ Forall (fun ch => blank ch = true) after
    /\ signed_digits body n.

Definition no_dash (s : string) : Prop :=
  Forall (fun c => c <> "-"%char) (list_ascii_of_string s).

(** After the marks [周] are taken out, a label reads as a range when it
    is two numerals around its one dash, and as a single week when it is
    one numeral.  It is malformed when it reads as neither. *)
Definition reads_as_range (s : string) (a b : Z) : Prop :=
  exists sa sb,
    s = sa ++ "-" ++ sb
    /\ no_dash sa /\ no_dash sb /\ numeral sa a /\ numeral sb b.

Definition reads_as_single (s : string) (a : Z) : Prop := numeral s a.

Definition malformed (label : string) : Prop :=
  let s := replace "周" "" label in
  (forall a b, ~ reads_as_range s a b) /\ (forall a, ~ reads_as_single s a).

Definition is_digit (c : ascii) : bool :=
  match digit_of (byte c) with
  | Some _ => true
  | None => false
  end.

(** A period without an entry in the timetable. *)
Definition period_missing (n : Z) : Prop :=
  getitem class_timetable (str n) = Raise KeyError.

(** The session's first or second period has no entry. *)
Definition has_missing_period (course : Json.t) : Prop :=
  exists n,
    (index (Json.section_array course) 0 = Ok n
     \/ index (Json.section_array course) 1 = Ok n)
    /\ period_missing n.

Fixpoint last_char (s : string) : option ascii :=
  match s with
  | EmptyString => None
  | String c EmptyString => Some c
  | String _ s' => last_char s'
  end.

(** The lines of an event block up to its location. *)
Definition vevent_head (utc_now : string) (course : Json.t) : string :=
  unlines
    [ "BEGIN:VEVENT";
      "CREATED:" ++ utc_now;
      "DTSTAMP:" ++ utc_now;
      "SUMMARY:" ++ Json.name course;
      "DESCRIPTION:教师：" ++ Json.teacher course;
      "LOCATION:" ++ Json.position course ].

(** An oracle for the examples: one holiday, Wednesday 2023-09-27. *)
Definition sample_holiday (date : Z) : bool := date =? ymd2ord 2023 9 27.

(** The scenario of the specification: week 1 starts on Monday
    2023-09-04, and a session is held on Wednesdays of weeks 2, 4, 6. *)
Definition anchor_20230904 : Z := ymd2ord 2023 9 4.

Definition wednesday_even_course : Json.t :=
  Json.make "Math" "Wang" "周三" "第3-4节" "第2,4,6周" [2; 4; 6] "B-101" 3 [3; 4].

(** Its recurrence: first held on 2023-09-13. *)
Definition wednesday_even_recurrence : recurrence :=
  {| start_week := 2; end_week := 6; week_status := EVEN_WEEKS;
     first_time_obj := ymd2ord 2023 9 13 |}.

(** Two blocks of one slot and a block of another, whose week label
    does not parse. *)
Definition sample_cells : list Cell.t :=
  [ Cell.make "Math" "Wang" "2-6周" "济-1号楼" "101" "3" "3";
    Cell.make "Math" "Wang" "2-6周" "B" "202" "3" "3";
    Cell.make "PE" "Li" "x周" "B" "202" "1" "1" ].

Definition sample_raws : list Course.t :=
  [ Course.make "Math" "Wang" [2; 3; 4; 5; 6] ("山东体育学院1号楼" ++ LF ++ "101") [3; 4] 3;
    Course.make "Math" "Wang" [2; 3; 4; 5; 6] ("B" ++ LF ++ "202") [3; 4] 3;
    Course.make "PE" "Li" [] ("B" ++ LF ++ "202") [1; 2] 1 ].

(** The merged entry of the first slot. *)
Definition sample_merged : Course.t :=
  Course.make "Math" "Wang" [2; 3; 4; 5; 6]
    ("山东体育学院1号楼" ++ LF ++ "101" ++ "  " ++ "B" ++ LF ++ "202") [3; 4] 3.

(** The record exported for it. *)
Definition sample_record : Json.t :=
  Json.make "Math" "Wang" "周三" "第3-4节" "第2,3,4,5,6周" [2; 3; 4; 5; 6]
    "山东体育学院1号楼-101  B-202" 3 [3; 4].

Definition sample_uid (n : nat) : string := "uid-" ++ str (Z.of_nat n).
Definition sample_now : string := "20230901T000000Z".
Definition sample_strptime (s : string) : result Z :=
  if String.eqb s "20230904" then Ok anchor_20230904 else Raise ValueError.

(** A session without weeks, and a session in the last row of the
    grid: periods 10 and 11. *)
Definition unscheduled_course : Json.t :=
  Json.make "PE" "Li" "周一" "第1-2节" "第周" [] "B-202" 1 [1; 2].

Definition last_row_course : Json.t :=
  Json.make "Yoga" "Zhao" "周五" "第10-11节" "第1,2周" [1; 2] "B-303" 5 [10; 11].

Definition wednesday_late_course : Json.t :=
  Json.make "Math" "Wang" "周三" "第3-4节" "第4,6周" [4; 6] "B-101" 3 [3; 4].

(** A course with one section only. *)
Definition one_section_course : Course.t :=
  Course.make "PE" "Li" [1; 2] "B" [3] 1.

(** A session whose [day] is 0. *)
Definition day_zero_course : Json.t :=
  Json.make "Swim" "Chen" "星期0" "第3-4节" "第2,4周" [2; 4] "Pool" 0 [3; 4].

(** The EXDATE line of an event block: none when no date is excluded. *)
Definition exdate_line (exclude_dates : list string) : string :=
  match exclude_dates with
  | [] => EmptyString
  | _ :: _ => "EXDATE;TZID=Asia/Shanghai:" ++ join "," exclude_dates ++ LF
  end.

(** What a record keeps of its course. *)
Definition exported (course : Course.t) (record : Json.t) : Prop :=
  Json.name record = Course.name course
  /\ Json.teacher record = Course.teacher course
  /\ Json.weeks_array record = Course.weeks course
  /\ Json.day record = Course.day course
  /\ Json.section_array record = Course.sections course
  /\ Json.position record = replace LF "-" (Course.position course).

(** The closing line of the text export. *)
Definition txt_footer : string := LF ++ "===================" ++ LF.

(** [weekday()] of a date: Monday is 0. *)
Definition weekday (t : Z) : Z := (t + 6) mod 7.

(** The Wednesday session, its weeks listed in another order. *)
Definition wednesday_even_shuffled : Json.t :=
  Json.make "Math" "Wang" "周三" "第3-4节" "第2,4,6周" [6; 2; 4] "B-101" 3 [3; 4].

(* ================================================================== *)
(** * Part IV.  Properties                                             *)
(* ================================================================== *)

(** ** Sorting and indexing *)

Lemma insert_perm (x : Z) (l : list Z) : Permutation (insert x l) (x :: l).
Proof.
  induction l as [|y l IH]; simpl; [reflexivity|].
  destruct (x <=? y); [reflexivity|].
  rewrite IH. apply perm_swap.
Qed.

Lemma sort_perm (l : list Z) : Permutation (sort l) l.
Proof.
  induction l as [|x l IH]; simpl; [constructor|].
  rewrite insert_perm. now constructor.
Qed.

Lemma insert_sorted (x : Z) (l : list Z) :
  StronglySorted Z.le l -> StronglySorted Z.le (insert x l).
Proof.
  induction 1 as [|y l Hs IH Hy]; simpl.
  - repeat constructor.
  - destruct (Z.leb_spec x y).
    + constructor; [now constructor|].
      constructor; [assumption|].
      eapply Forall_impl; [|exact Hy]. simpl. intros; lia.
    + constructor; [assumption|].
      eapply Permutation_Forall; [symmetry; apply insert_perm|].
      constructor; [lia|assumption].
Qed.

Lemma sort_sorted (l : list Z) : StronglySorted Z.le (sort l).
Proof.
  induction l; simpl; [constructor|]. now apply insert_sorted.
Qed.

Lemma sort_not_nil (l : list Z) : l <> [] -> sort l <> [].
Proof.
  intros H E. apply H. apply Permutation_nil.
  rewrite <- E. apply sort_perm.
Qed.

Lemma index_head {A : Type} (x : A) (l : list A) : index (x :: l) 0 = Ok x.
Proof.
  unfold index. cbn [List.length].
  replace (0 <? 0) with false by reflexivity.
  replace (0 <=? 0) with true by reflexivity.
  destruct (Z.ltb_spec 0 (Z.of_nat (S (List.length l)))); [reflexivity|lia].
Qed.

Lemma index_last {A : Type} (l : list A) (x : A) :
  index (l ++ [x])%list (-1) = Ok x.
Proof.
  unfold index. rewrite length_app. cbn [List.length].
  replace (-1 <? 0) with true by reflexivity.
  set (n := Z.of_nat (List.length l + 1)).
  assert (Hn : n = Z.of_nat (List.length l) + 1) by (unfold n; lia).
  destruct (Z.leb_spec 0 (-1 + n)); [|lia].
  destruct (Z.ltb_spec (-1 + n) n); [|lia].
  cbn [andb].
  replace (Z.to_nat (-1 + n)) with (List.length l) by lia.
  rewrite nth_error_app2 by lia. now rewrite Nat.sub_diag.
Qed.

Lemma fold_min_spec (d : Z) (l : list Z) :
  let m := fold_right Z.min d l in
  (m = d \/ In m l) /\ m <= d /\ Forall (fun w => m <= w) l.
Proof.
  induction l as [|y t IH]; cbn [fold_right].
  - repeat split; [now left|lia|constructor].
  - cbv zeta in IH. destruct IH as (Hin & Hd & Hall).
    set (m := fold_right Z.min d t) in *.
    repeat split.
    + destruct (Z.min_spec y m) as [[_ ->]|[_ ->]].
      * right; now left.
      * destruct Hin; [now left|right; now right].
    + lia.
    + constructor; [lia|].
      eapply Forall_impl; [|exact Hall]. simpl. intros; lia.
Qed.

Lemma fold_max_spec (d : Z) (l : list Z) :
  let m := fold_right Z.max d l in
  (m = d \/ In m l) /\ d <= m /\ Forall (fun w => w <= m) l.
Proof.
  induction l as [|y t IH]; cbn [fold_right].
  - repeat split; [now left|lia|constructor].
  - cbv zeta in IH. destruct IH as (Hin & Hd & Hall).
    set (m := fold_right Z.max d t) in *.
    repeat split.
    + destruct (Z.max_spec y m) as [[_ ->]|[_ ->]].
      * destruct Hin; [now left|right; now right].
      * right; now left.
    + lia.
    + constructor; [lia|].
      eapply Forall_impl; [|exact Hall]. simpl. intros; lia.
Qed.

Lemma min_week_spec (weeks : list Z) :
  weeks <> [] ->
  In (min_week weeks) weeks /\ Forall (fun w => min_week weeks <= w) weeks.
Proof.
  unfold min_week. destruct weeks as [|x l]; [congruence|intros _].
  cbn [hd]. destruct (fold_min_spec x (x :: l)) as (Hin & _ & Hall).
  split; [|exact Hall].
  destruct Hin as [->|Hin]; [now left|exact Hin].
Qed.

Lemma max_week_spec (weeks : list Z) :
  weeks <> [] ->
  In (max_week weeks) weeks /\ Forall (fun w => w <= max_week weeks) weeks.
Proof.
  unfold max_week. destruct weeks as [|x l]; [congruence|intros _].
  cbn [hd]. destruct (fold_max_spec x (x :: l)) as (Hin & _ & Hall).
  split; [|exact Hall].
  destruct Hin as [->|Hin]; [now left|exact Hin].
Qed.

(** After [weeks.sort()], [weeks[0]] is the least week. *)
Lemma sorted_first (weeks : list Z) :
  weeks <> [] -> index (sort weeks) 0 = Ok (min_week weeks).
Proof.
  intros Hne. destruct (min_week_spec weeks Hne) as [Hin Hall].
  pose proof (sort_perm weeks) as Hp. pose proof (sort_sorted weeks) as Hs.
  destruct (sort weeks) as [|m t] eqn:E; [now apply sort_not_nil in E|].
  rewrite index_head. f_equal.
  apply StronglySorted_inv in Hs. destruct Hs as [_ Hm].
  assert (Hm' : Forall (fun w => m <= w) (m :: t)) by (constructor; [lia|exact Hm]).
  rewrite Forall_forall in Hm', Hall.
  apply Z.le_antisymm.
  - apply Hm'. eapply Permutation_in; [symmetry; exact Hp|exact Hin].
  - apply Hall. eapply Permutation_in; [exact Hp|now left].
Qed.

Lemma sorted_snoc_max (l : list Z) (x : Z) :
  StronglySorted Z.le (l ++ [x])%list -> Forall (fun w => w <= x) (l ++ [x])%list.
Proof.
  induction l as [|y t IH]; cbn [app]; intros Hs.
  - constructor; [lia|constructor].
  - apply StronglySorted_inv in Hs. destruct Hs as [Hs Hy].
    constructor; [|now apply IH].
    rewrite Forall_forall in Hy. apply Hy. apply in_or_app. right; now left.
Qed.

(** After [weeks.sort()], [weeks[-1]] is the greatest week. *)
Lemma sorted_last (weeks : list Z) :
  weeks <> [] -> index (sort weeks) (-1) = Ok (max_week weeks).
Proof.
  intros Hne. destruct (max_week_spec weeks Hne) as [Hin Hall].
  pose proof (sort_perm weeks) as Hp. pose proof (sort_sorted weeks) as Hs.
  destruct (exists_last (sort_not_nil weeks Hne)) as (t & m & E).
  rewrite E in *. rewrite index_last. f_equal.
  apply sorted_snoc_max in Hs.
  rewrite Forall_forall in Hs, Hall.
  apply Z.le_antisymm.
  - apply Hall. eapply Permutation_in; [exact Hp|].
    apply in_or_app. right; now left.
  - apply Hs. eapply Permutation_in; [symmetry; exact Hp|exact Hin].
Qed.

(** ** Recurrence pattern *)

Lemma mod2_odd (w : Z) : (w mod 2 =? 1) = Z.odd w.
Proof. rewrite Zmod_odd. now destruct (Z.odd w). Qed.

Lemma mod2_even (w : Z) : (w mod 2 =? 0) = Z.even w.
Proof. rewrite Zmod_odd, <- Z.negb_odd. now destruct (Z.odd w). Qed.

Lemma forallb_perm {A : Type} (f : A -> bool) (l l' : list A) :
  Permutation l l' -> forallb f l = forallb f l'.
Proof.
  induction 1 as [|x l l' _ IH|x y l|l l' l'' _ IH1 _ IH2]; cbn [forallb].
  - reflexivity.
  - now rewrite IH.
  - now rewrite !andb_assoc, (andb_comm (f y) (f x)).
  - congruence.
Qed.

Lemma forallb_same {A : Type} (f g : A -> bool) (l : list A) :
  (forall x, f x = g x) -> forallb f l = forallb g l.
Proof.
  intros H. induction l as [|x l IH]; cbn [forallb]; [reflexivity|].
  now rewrite H, IH.
Qed.

Lemma forallb_Forall {A : Type} (f : A -> bool) (l : list A) :
  forallb f l = true <-> Forall (fun x => f x = true) l.
Proof. now rewrite forallb_forall, Forall_forall. Qed.

Lemma not_Forall_forallb {A : Type} (f : A -> bool) (l : list A) :
  ~ Forall (fun x => f x = true) l -> forallb f l = false.
Proof.
  intros H. destruct (forallb f l) eqn:E; [|reflexivity].
  now apply forallb_Forall in E.
Qed.

Lemma week_status_sort (weeks : list Z) :
  week_status_of (sort weeks) = week_status_of weeks.
Proof.
  unfold week_status_of.
  now rewrite !(forallb_perm _ _ _ (sort_perm weeks)).
Qed.

Lemma week_status_cases (weeks : list Z) :
  week_status_of weeks =
    if forallb Z.odd weeks then ODD_WEEKS
    else if forallb Z.even weeks then EVEN_WEEKS
    else EVERY_WEEK.
Proof.
  unfold week_status_of.
  rewrite (forallb_same (fun w => w mod 2 =? 1) Z.odd) by apply mod2_odd.
  rewrite (forallb_same (fun w => w mod 2 =? 0) Z.even) by apply mod2_even.
  reflexivity.
Qed.

Lemma all_odd_not_all_even (weeks : list Z) :
  weeks <> [] -> forallb Z.odd weeks = true -> forallb Z.even weeks = false.
Proof.
  destruct weeks as [|w t]; [congruence|intros _]. cbn [forallb].
  rewrite <- (Z.negb_odd w). destruct (Z.odd w); [reflexivity|discriminate].
Qed.

(** C1.  For a week-set that is not empty, the pattern computed by
    [generate_ics_from_json] (on the sorted weeks) is ODD_WEEKS when
    every week is odd, EVEN_WEEKS when every week is even, and
    EVERY_WEEK when the weeks are of mixed parity. *)
Theorem week_status_by_parity (weeks : list Z) :
  weeks <> [] ->
  (Forall (fun w => Z.odd w = true) weeks ->
     week_status_of (sort weeks) = ODD_WEEKS)
  /\ (Forall (fun w => Z.even w = true) weeks ->
     week_status_of (sort weeks) = EVEN_WEEKS)
  /\ (~ Forall (fun w => Z.odd w = true) weeks ->
      ~ Forall (fun w => Z.even w = true) weeks ->
      week_status_of (sort weeks) = EVERY_WEEK).
Proof.
  intros Hne. rewrite week_status_sort, week_status_cases.
  repeat split.
  - intros H. apply forallb_Forall in H. now rewrite H.
  - intros H. apply forallb_Forall in H.
    destruct (forallb Z.odd weeks) eqn:E.
    + apply all_odd_not_all_even in E; congruence.
    + now rewrite H.
  - intros Ho He.
    now rewrite (not_Forall_forallb _ _ Ho), (not_Forall_forallb _ _ He).
Qed.

Lemma week_status_by_parity_witness :
  [3; 1; 5] <> [] /\ week_status_of (sort [3; 1; 5]) = ODD_WEEKS.
Proof.
  split; [discriminate|].
  apply (week_status_by_parity [3; 1; 5]); [discriminate|].
  repeat constructor.
Defined.

(** ** First occurrence *)

(** The local variables of the loop body, in terms of the week-set. *)
Lemma recurrence_of_eq (initial_time : Z) (course : Json.t) :
  Json.weeks_array course <> [] ->
  let weeks := Json.weeks_array course in
  recurrence_of initial_time course =
    (d <- datetime_add initial_time
            (delta_time_of (week_status_of (sort weeks)) (min_week weeks)
               (Json.day course)) ;;
     Ok {| start_week := min_week weeks; end_week := max_week weeks;
           week_status := week_status_of (sort weeks); first_time_obj := d |}).
Proof.
  intros Hne weeks. unfold recurrence_of. fold weeks.
  rewrite (sorted_first weeks Hne), (sorted_last weeks Hne).
  reflexivity.
Qed.

Lemma delta_time_shift (pattern startWeek day : Z) :
  delta_time_of pattern startWeek day =
    7 * (startWeek - 1) + (day - 1) + parity_shift pattern startWeek.
Proof.
  unfold delta_time_of, parity_shift, ODD_WEEKS, EVEN_WEEKS.
  rewrite mod2_even, <- (Z.negb_even startWeek).
  destruct (Z.eqb_spec pattern 1); destruct (Z.eqb_spec pattern 2);
    destruct (Z.even startWeek); cbn [andb negb]; lia.
Qed.

(** C2.  For a session whose week-set is not empty, the first occurrence
    is the anchor date plus 7*(startWeek-1) + (weekday-1) days, with
    startWeek = min(weeks), and seven days more when the pattern is
    ODD_WEEKS and startWeek is even or the pattern is EVEN_WEEKS and
    startWeek is odd.  The number of days is [delta_time_of] of the
    pattern, the start week and the weekday, and the rule of the seven
    days holds of it for every pattern and every start week, also those
    no week-set gives. *)
Theorem first_occurrence_offset (initial_time : Z) (course : Json.t) :
  Json.weeks_array course <> [] ->
  let startWeek := min_week (Json.weeks_array course) in
  let pattern := week_status_of (sort (Json.weeks_array course)) in
  first_occurrence initial_time course =
    datetime_add initial_time
      (7 * (startWeek - 1) + (Json.day course - 1) + parity_shift pattern startWeek)
  /\ first_occurrence initial_time course =
       datetime_add initial_time (delta_time_of pattern startWeek (Json.day course))
  /\ (forall anyPattern anyWeek day,
        let base := 7 * (anyWeek - 1) + (day - 1) in
        (anyPattern = ODD_WEEKS -> Z.even anyWeek = true ->
         delta_time_of anyPattern anyWeek day = base + 7)
        /\ (anyPattern = EVEN_WEEKS -> Z.odd anyWeek = true ->
            delta_time_of anyPattern anyWeek day = base + 7)
        /\ (~ (anyPattern = ODD_WEEKS /\ Z.even anyWeek = true) ->
            ~ (anyPattern = EVEN_WEEKS /\ Z.odd anyWeek = true) ->
            delta_time_of anyPattern anyWeek day = base)).
Proof.
  intros Hne startWeek pattern. split; [|split].
  - unfold first_occurrence.
    rewrite (recurrence_of_eq initial_time course Hne).
    fold startWeek pattern. rewrite delta_time_shift.
    now destruct (datetime_add _ _).
  - unfold first_occurrence.
    rewrite (recurrence_of_eq initial_time course Hne).
    fold startWeek pattern. now destruct (datetime_add _ _).
  - intros anyPattern anyWeek day base. rewrite delta_time_shift. fold base.
    unfold parity_shift. rewrite <- (Z.negb_even anyWeek).
    destruct (Z.eqb_spec anyPattern ODD_WEEKS) as [Eo|Eo];
      destruct (Z.eqb_spec anyPattern EVEN_WEEKS) as [Ee|Ee];
      destruct (Z.even anyWeek); cbn [andb negb];
      repeat split; intros; try lia; try discriminate;
      try (unfold ODD_WEEKS, EVEN_WEEKS in *; congruence);
      exfalso; auto.
Qed.

Lemma min_week_parity (weeks : list Z) :
  weeks <> [] ->
  (week_status_of (sort weeks) = ODD_WEEKS -> Z.odd (min_week weeks) = true)
  /\ (week_status_of (sort weeks) = EVEN_WEEKS -> Z.even (min_week weeks) = true).
Proof.
  intros Hne. destruct (min_week_spec weeks Hne) as [Hin _].
  rewrite week_status_sort, week_status_cases.
  unfold ODD_WEEKS, EVEN_WEEKS, EVERY_WEEK.
  destruct (forallb Z.odd weeks) eqn:Eo.
  - split; [intros _|discriminate].
    rewrite forallb_forall in Eo. now apply Eo.
  - destruct (forallb Z.even weeks) eqn:Ee.
    + split; [discriminate|intros _].
      rewrite forallb_forall in Ee. now apply Ee.
    + split; discriminate.
Qed.

Lemma parity_shift_zero (weeks : list Z) :
  weeks <> [] -> parity_shift (week_status_of (sort weeks)) (min_week weeks) = 0.
Proof.
  intros Hne. destruct (min_week_parity weeks Hne) as [Ho He].
  unfold parity_shift.
  destruct (Z.eqb_spec (week_status_of (sort weeks)) ODD_WEEKS) as [E|_].
  - specialize (Ho E). rewrite <- Z.negb_odd, Ho. cbn.
    rewrite E. reflexivity.
  - cbn [andb].
    destruct (Z.eqb_spec (week_status_of (sort weeks)) EVEN_WEEKS) as [E|_];
      [|reflexivity].
    specialize (He E). now rewrite <- Z.negb_even, He.
Qed.

(** C10.  For a week-set that is not empty the parity of min(weeks)
    agrees with the pattern, so neither branch adding seven days is
    taken, and the first occurrence is the anchor date plus exactly
    7*(startWeek-1) + (weekday-1) days. *)
Theorem parity_shift_unreachable (initial_time : Z) (course : Json.t) :
  Json.weeks_array course <> [] ->
  let startWeek := min_week (Json.weeks_array course) in
  let pattern := week_status_of (sort (Json.weeks_array course)) in
  (pattern = ODD_WEEKS -> Z.odd startWeek = true)
  /\ (pattern = EVEN_WEEKS -> Z.even startWeek = true)
  /\ delta_time_of pattern startWeek (Json.day course) =
       7 * (startWeek - 1) + (Json.day course - 1)
  /\ first_occurrence initial_time course =
       datetime_add initial_time (7 * (startWeek - 1) + (Json.day course - 1)).
Proof.
  intros Hne startWeek pattern.
  destruct (min_week_parity _ Hne) as [Ho He].
  pose proof (parity_shift_zero _ Hne) as Hz. fold startWeek pattern in Hz.
  repeat split; try assumption.
  - rewrite delta_time_shift, Hz. lia.
  - unfold first_occurrence.
    rewrite (recurrence_of_eq initial_time course Hne).
    fold startWeek pattern. rewrite delta_time_shift, Hz, Z.add_0_r.
    now destruct (datetime_add _ _).
Qed.

Lemma first_occurrence_offset_witness :
  Json.weeks_array wednesday_even_course <> []
  /\ first_occurrence anchor_20230904 wednesday_even_course =
       datetime_add anchor_20230904 (7 * (2 - 1) + (3 - 1) + 0)
  /\ delta_time_of ODD_WEEKS 2 3 = 7 * (2 - 1) + (3 - 1) + 7
  /\ delta_time_of EVEN_WEEKS 3 3 = 7 * (3 - 1) + (3 - 1) + 7.
Proof.
  assert (Hne : Json.weeks_array wednesday_even_course <> []) by discriminate.
  destruct (first_occurrence_offset anchor_20230904 wednesday_even_course Hne)
    as (Hfirst & _ & Hrule).
  split; [exact Hne|]. split; [exact Hfirst|]. split.
  - apply (proj1 (Hrule ODD_WEEKS 2 3)); reflexivity.
  - apply (proj1 (proj2 (Hrule EVEN_WEEKS 3 3))); reflexivity.
Defined.

Lemma parity_shift_unreachable_witness :
  Json.weeks_array wednesday_even_course <> []
  /\ first_occurrence anchor_20230904 wednesday_even_course =
       datetime_add anchor_20230904 (7 * (2 - 1) + (3 - 1)).
Proof.
  split; [discriminate|].
  apply (parity_shift_unreachable anchor_20230904 wednesday_even_course).
  discriminate.
Defined.

(** C6, as the code has it.  For weeks [2,4,6] on weekday 3 with the
    anchor 2023-09-04, the pattern is EVEN_WEEKS, the start week is 2,
    no parity shift applies, and the first occurrence is nine days
    after the anchor: 2023-09-13. *)
Theorem scenario_even_weeks (course : Json.t) :
  Json.weeks_array course = [2; 4; 6] ->
  Json.day course = 3 ->
  recurrence_of (ymd2ord 2023 9 4) course =
    Ok {| start_week := 2; end_week := 6; week_status := EVEN_WEEKS;
          first_time_obj := ymd2ord 2023 9 13 |}
  /\ parity_shift EVEN_WEEKS 2 = 0
  /\ delta_time_of EVEN_WEEKS 2 3 = 9
  /\ first_occurrence (ymd2ord 2023 9 4) course = Ok (ymd2ord 2023 9 13)
  /\ ord2ymd (ymd2ord 2023 9 13) = (2023, 9, 13).
Proof.
  intros Hw Hd. unfold first_occurrence, recurrence_of.
  rewrite Hw, Hd. repeat split.
Qed.

Lemma scenario_even_weeks_witness :
  Json.weeks_array wednesday_even_course = [2; 4; 6]
  /\ Json.day wednesday_even_course = 3
  /\ first_occurrence (ymd2ord 2023 9 4) wednesday_even_course =
       Ok (ymd2ord 2023 9 13).
Proof.
  split; [reflexivity|]. split; [reflexivity|].
  apply (scenario_even_weeks wednesday_even_course); reflexivity.
Defined.

(** C6, as stated, fails: the first occurrence is not 2023-09-20. *)
Lemma scenario_even_weeks_not_20230920 :
  ~ (week_status_of (sort (Json.weeks_array wednesday_even_course)) = EVEN_WEEKS
     /\ min_week (Json.weeks_array wednesday_even_course) = 2
     /\ parity_shift EVEN_WEEKS 2 = 0
     /\ first_occurrence (ymd2ord 2023 9 4) wednesday_even_course =
          Ok (ymd2ord 2023 9 20)).
Proof.
  intros (_ & _ & _ & H). vm_compute in H. discriminate H.
Qed.

(** ** Exclusion dates *)

Lemma datetime_add_ok (t days x : Z) :
  datetime_add t days = Ok x <->
  x = t + days /\ Z.abs days <= 999999999 /\ 1 <= t + days <= max_ordinal.
Proof.
  unfold datetime_add, timedelta, valid_ordinal, bind.
  destruct (Z.leb_spec (Z.abs days) 999999999).
  - destruct (Z.leb_spec 1 (t + days)); cbn [andb].
    + destruct (Z.leb_spec (t + days) max_ordinal).
      * split; [intros [= <-]; lia|intros (-> & _); reflexivity].
      * split; [discriminate|lia].
    + split; [discriminate|lia].
  - split; [discriminate|lia].
Qed.

Lemma in_range (a b w : Z) : In w (range a b) <-> a <= w < b.
Proof.
  unfold range. rewrite in_map_iff. split.
  - intros (i & <- & Hi). apply in_seq in Hi. lia.
  - intros H. exists (Z.to_nat (w - a)). split; [lia|].
    apply in_seq. lia.
Qed.

Lemma range_sorted (a b : Z) : StronglySorted Z.lt (range a b).
Proof.
  unfold range. generalize (Z.to_nat (b - a)) as n. intros n.
  generalize 0%nat as k. induction n as [|n IH]; intros k; cbn [seq List.map].
  - constructor.
  - constructor; [apply IH|].
    apply Forall_forall. intros w Hw. apply in_map_iff in Hw.
    destruct Hw as (i & <- & Hi). apply in_seq in Hi. lia.
Qed.

Lemma sorted_filter (f : Z -> bool) (l : list Z) :
  StronglySorted Z.lt l -> StronglySorted Z.lt (filter f l).
Proof.
  induction 1 as [|x l Hs IH Hx]; cbn [filter]; [constructor|].
  destruct (f x); [|exact IH].
  constructor; [exact IH|].
  rewrite Forall_forall in *. intros w Hw. apply filter_In in Hw. now apply Hx.
Qed.

Lemma sorted_map_incr (g : Z -> Z) (l : list Z) :
  (forall x y, x < y -> g x < g y) ->
  StronglySorted Z.lt l -> StronglySorted Z.lt (List.map g l).
Proof.
  intros Hg. induction 1 as [|x l Hs IH Hx]; cbn [List.map]; [constructor|].
  constructor; [exact IH|].
  rewrite Forall_forall in *. intros w Hw. apply in_map_iff in Hw.
  destruct Hw as (y & <- & Hy). now apply Hg, Hx.
Qed.

Lemma recurrence_of_fields (initial_time : Z) (course : Json.t) (r : recurrence) :
  Json.weeks_array course <> [] ->
  recurrence_of initial_time course = Ok r ->
  start_week r = min_week (Json.weeks_array course)
  /\ end_week r = max_week (Json.weeks_array course)
  /\ week_status r = week_status_of (sort (Json.weeks_array course))
  /\ first_time_obj r =
       initial_time + (7 * (start_week r - 1) + (Json.day course - 1))
  /\ Z.abs (7 * (start_week r - 1) + (Json.day course - 1)) <= 999999999
  /\ 1 <= first_time_obj r <= max_ordinal.
Proof.
  intros Hne Hr. rewrite (recurrence_of_eq _ _ Hne) in Hr. cbv zeta in Hr.
  rewrite delta_time_shift, (parity_shift_zero _ Hne), Z.add_0_r in Hr.
  destruct (datetime_add _ _) as [d|e] eqn:Ed; [|discriminate].
  cbn [bind] in Hr. injection Hr as <-. cbn.
  apply datetime_add_ok in Ed. intuition lia.
Qed.

Section Exclusion.

Variable is_holiday : Z -> bool.

(** The two [continue] tests of the loop are the parity test. *)
Lemma exclude_step_eq (r : recurrence) (sections : list Z)
    (exclude_dates : list string) (week_num : Z) :
  exclude_step is_holiday r sections exclude_dates week_num =
    if parity_agrees (week_status r) week_num then
      class_date <- datetime_add (first_time_obj r) (7 * (week_num - start_week r)) ;;
      if is_holiday class_date then
        s0 <- index sections 0 ;;
        slot <- getitem class_timetable (str s0) ;;
        Ok (exclude_dates ++ [exclusion_stamp (startTime slot) class_date])%list
      else Ok exclude_dates
    else Ok exclude_dates.
Proof.
  unfold exclude_step, parity_agrees, ODD_WEEKS, EVEN_WEEKS.
  rewrite mod2_even, mod2_odd.
  destruct (week_status r =? 1); destruct (Z.even week_num); cbn [andb negb];
    try reflexivity;
    destruct (week_status r =? 2); destruct (Z.odd week_num); reflexivity.
Qed.

(** The loop, when every candidate date is representable. *)
Lemma exclude_loop_eq (r : recurrence) (sections : list Z) (ws : list Z) :
  (forall w, In w ws -> parity_agrees (week_status r) w = true ->
     datetime_add (first_time_obj r) (7 * (w - start_week r))
     = Ok (occurrence_date r w)) ->
  forall acc,
  for_each (exclude_step is_holiday r sections) ws acc =
    match filter is_holiday
            (List.map (occurrence_date r) (filter (parity_agrees (week_status r)) ws))
    with
    | [] => Ok acc
    | dates =>
        s0 <- index sections 0 ;;
        slot <- getitem class_timetable (str s0) ;;
        Ok (acc ++ List.map (exclusion_stamp (startTime slot)) dates)%list
    end.
Proof.
  induction ws as [|w ws IH]; intros Hok acc; [reflexivity|].
  cbn [for_each filter]. rewrite exclude_step_eq.
  assert (Hok' : forall w', In w' ws ->
            parity_agrees (week_status r) w' = true ->
            datetime_add (first_time_obj r) (7 * (w' - start_week r))
            = Ok (occurrence_date r w'))
    by (intros; apply Hok; [now right|assumption]).
  destruct (parity_agrees (week_status r) w) eqn:Ep.
  - rewrite (Hok w (or_introl eq_refl) Ep). cbn [bind List.map filter].
    destruct (is_holiday (occurrence_date r w)) eqn:Eh.
    + destruct (index sections 0) as [s0|e] eqn:Ei; [|reflexivity]. cbn [bind].
      destruct (getitem class_timetable (str s0)) as [slot|e] eqn:Eg;
        [|reflexivity].
      cbn [bind]. rewrite (IH Hok').
      destruct (filter is_holiday _) as [|d ds]; [reflexivity|].
      cbn [bind List.map]. rewrite Eg. cbn [bind].
      now rewrite <- app_assoc.
    + cbn [bind]. apply IH, Hok'.
  - cbn [bind]. apply IH, Hok'.
Qed.

Lemma holiday_dates_sorted (r : recurrence) :
  StronglySorted Z.lt (holiday_dates is_holiday r).
Proof.
  unfold holiday_dates, candidate_weeks.
  apply sorted_filter, sorted_map_incr.
  - unfold occurrence_date. intros; lia.
  - apply sorted_filter, range_sorted.
Qed.

(** C3.  For a session whose week-set is not empty (and whose first
    and last occurrences are representable dates), the exclusion set is:
    the weeks from min(weeks) to max(weeks), without those whose parity
    disagrees with the pattern; the occurrence date of each; those on
    which the holiday oracle answers true; each stamped with the start
    clock time of the session's first period; in ascending order.  The
    timetable is consulted only when some date is a holiday. *)
Theorem exclusion_dates_enumerated (initial_time : Z) (course : Json.t)
    (r : recurrence) :
  Json.weeks_array course <> [] ->
  recurrence_of initial_time course = Ok r ->
  first_time_obj r + 7 * (end_week r - start_week r) <= max_ordinal ->
  let weeks := Json.weeks_array course in
  let pattern := week_status_of (sort weeks) in
  let dates :=
    filter is_holiday
      (List.map (fun week => first_time_obj r + 7 * (week - min_week weeks))
         (filter (parity_agrees pattern) (range (min_week weeks) (max_week weeks + 1)))) in
  StronglySorted Z.lt dates
  /\ exclude_dates_of is_holiday r (Json.section_array course) =
       match dates with
       | [] => Ok []
       | _ :: _ =>
           s0 <- index (Json.section_array course) 0 ;;
           slot <- getitem class_timetable (str s0) ;;
           Ok (List.map (fun date => strftime_Ymd date ++ "T" ++ startTime slot) dates)
       end.
Proof.
  intros Hne Hr Hlast weeks pattern dates.
  destruct (recurrence_of_fields _ _ _ Hne Hr) as (Hs & He & Hp & _ & _ & Hv).
  fold weeks in Hs, He, Hp. fold pattern in Hp.
  assert (Hd : dates = holiday_dates is_holiday r).
  { unfold dates, holiday_dates, candidate_weeks, occurrence_date.
    now rewrite Hs, He, Hp. }
  clearbody dates. subst dates.
  split; [apply holiday_dates_sorted|].
  unfold exclude_dates_of. rewrite exclude_loop_eq.
  - unfold holiday_dates, candidate_weeks.
    destruct (filter is_holiday _); reflexivity.
  - intros w Hw _. apply in_range in Hw. apply datetime_add_ok.
    unfold occurrence_date, max_ordinal in *. lia.
Qed.

(** A loop that ends normally has computed every candidate date. *)
Lemma exclude_loop_ok_inv (r : recurrence) (sections : list Z) (ws : list Z) :
  forall acc l,
  for_each (exclude_step is_holiday r sections) ws acc = Ok l ->
  forall w, In w ws -> parity_agrees (week_status r) w = true ->
  datetime_add (first_time_obj r) (7 * (w - start_week r))
  = Ok (occurrence_date r w).
Proof.
  induction ws as [|w0 ws IH]; intros acc l Hl w Hin Hp; [destruct Hin|].
  cbn [for_each] in Hl. rewrite exclude_step_eq in Hl.
  destruct (parity_agrees (week_status r) w0) eqn:Ep0.
  - destruct (datetime_add (first_time_obj r) (7 * (w0 - start_week r)))
      as [d|e] eqn:Ed; [|discriminate Hl].
    cbn [bind] in Hl.
    destruct Hin as [->|Hin].
    + rewrite Ed. apply datetime_add_ok in Ed. destruct Ed as [-> _].
      reflexivity.
    + destruct (is_holiday d); [|eapply IH; eassumption].
      destruct (index sections 0); [|discriminate]. cbn [bind] in Hl.
      destruct (getitem _ _); [|discriminate]. cbn [bind] in Hl.
      eapply IH; eassumption.
  - cbn [bind] in Hl.
    destruct Hin as [->|Hin]; [congruence|]. eapply IH; eassumption.
Qed.

End Exclusion.

Lemma exclusion_dates_enumerated_witness :
  Json.weeks_array wednesday_even_course <> []
  /\ recurrence_of anchor_20230904 wednesday_even_course
     = Ok wednesday_even_recurrence
  /\ first_time_obj wednesday_even_recurrence
     + 7 * (end_week wednesday_even_recurrence
            - start_week wednesday_even_recurrence) <= max_ordinal
  /\ exclude_dates_of sample_holiday wednesday_even_recurrence
       (Json.section_array wednesday_even_course)
     = Ok ["20230927T100000"].
Proof.
  assert (H1 : Json.weeks_array wednesday_even_course <> []) by discriminate.
  assert (H2 : recurrence_of anchor_20230904 wednesday_even_course
               = Ok wednesday_even_recurrence) by reflexivity.
  assert (H3 : first_time_obj wednesday_even_recurrence
               + 7 * (end_week wednesday_even_recurrence
                      - start_week wednesday_even_recurrence) <= max_ordinal)
    by (vm_compute; discriminate).
  split; [exact H1|]. split; [exact H2|]. split; [exact H3|].
  exact (proj2 (exclusion_dates_enumerated sample_holiday anchor_20230904
                  wednesday_even_course wednesday_even_recurrence H1 H2 H3)).
Defined.

Section Monotone.

Variable is_holiday : Z -> bool.

(** Every week of the set is a candidate of the set's own pattern. *)
Lemma weeks_agree (weeks : list Z) (w : Z) :
  In w weeks -> parity_agrees (week_status_of (sort weeks)) w = true.
Proof.
  intros Hin. rewrite week_status_sort, week_status_cases.
  unfold parity_agrees, ODD_WEEKS, EVEN_WEEKS, EVERY_WEEK.
  destruct (forallb Z.odd weeks) eqn:Eo.
  - rewrite forallb_forall in Eo. specialize (Eo w Hin).
    rewrite <- Z.negb_odd, Eo. reflexivity.
  - destruct (forallb Z.even weeks) eqn:Ee; [|reflexivity].
    rewrite forallb_forall in Ee. specialize (Ee w Hin).
    rewrite <- Z.negb_even, Ee. reflexivity.
Qed.

Lemma min_le_max (weeks : list Z) : weeks <> [] -> min_week weeks <= max_week weeks.
Proof.
  intros Hne. destruct (min_week_spec _ Hne) as [Hin _].
  destruct (max_week_spec _ Hne) as [_ Hall].
  rewrite Forall_forall in Hall. now apply Hall.
Qed.

(** The exclusion set of a session, in closed form, when it is computed. *)
Lemma exclusion_set_ok (initial_time : Z) (course : Json.t) (l : list string) :
  Json.weeks_array course <> [] ->
  exclusion_set is_holiday initial_time course = Ok l ->
  exists r,
    recurrence_of initial_time course = Ok r
    /\ first_time_obj r + 7 * (end_week r - start_week r) <= max_ordinal
    /\ match holiday_dates is_holiday r with
       | [] => l = []
       | dates =>
           exists s0 slot,
             index (Json.section_array course) 0 = Ok s0
             /\ getitem class_timetable (str s0) = Ok slot
             /\ l = List.map (exclusion_stamp (startTime slot)) dates
       end.
Proof.
  intros Hne Hl. unfold exclusion_set in Hl.
  destruct (recurrence_of initial_time course) as [r|e] eqn:Hr; [|discriminate].
  cbn [bind] in Hl. exists r. split; [reflexivity|].
  destruct (recurrence_of_fields _ _ _ Hne Hr) as (Hs & He & Hp & _ & _ & Hv).
  unfold exclude_dates_of in Hl.
  pose proof (exclude_loop_ok_inv is_holiday r _ _ _ _ Hl) as Hinv.
  assert (Hlast : first_time_obj r + 7 * (end_week r - start_week r) <= max_ordinal).
  { specialize (Hinv (end_week r)).
    rewrite datetime_add_ok in Hinv. apply Hinv.
    - apply in_range. rewrite Hs, He. pose proof (min_le_max _ Hne). lia.
    - rewrite Hp, He. apply weeks_agree. now apply max_week_spec. }
  split; [exact Hlast|].
  rewrite exclude_loop_eq in Hl by (intros; now apply Hinv).
  unfold holiday_dates, candidate_weeks.
  destruct (filter is_holiday _) as [|d ds]; [now injection Hl as <-|].
  destruct (index _ 0) as [s0|] eqn:Ei; [|discriminate]. cbn [bind] in Hl.
  destruct (getitem _ _) as [slot|] eqn:Eg; [|discriminate]. cbn [bind] in Hl.
  exists s0, slot. split; [reflexivity|]. split; [exact Eg|].
  now injection Hl as <-.
Qed.

(** X21.  When the exclusion set of a session is computed without an
    exception, so is the exclusion set of the same session over a
    narrower week range with the same pattern, and every date of the
    narrower one is among the dates of the wider one. *)
Lemma exclusion_set_of_larger (initial_time : Z) (course course' : Json.t)
    (l' : list string) :
  valid_ordinal initial_time = true ->
  Json.weeks_array course <> [] ->
  Json.weeks_array course' <> [] ->
  Json.day course' = Json.day course ->
  Json.section_array course' = Json.section_array course ->
  week_status_of (sort (Json.weeks_array course'))
  = week_status_of (sort (Json.weeks_array course)) ->
  min_week (Json.weeks_array course') <= min_week (Json.weeks_array course) ->
  max_week (Json.weeks_array course) <= max_week (Json.weeks_array course') ->
  exclusion_set is_holiday initial_time course' = Ok l' ->
  exists l,
    exclusion_set is_holiday initial_time course = Ok l /\ incl l l'.
Proof.
  intros Hanchor Hne Hne' Hday Hsec Hpat Hmin Hmax Hl'.
  destruct (exclusion_set_ok _ _ _ Hne' Hl') as (r' & Hr' & Hlast' & Hm').
  destruct (recurrence_of_fields _ _ _ Hne' Hr')
    as (Hs' & He' & Hp' & Hf' & _ & Hv').
  pose proof (min_le_max _ Hne) as Hmm.
  unfold valid_ordinal in Hanchor. apply andb_prop in Hanchor.
  destruct Hanchor as [Ha1 Ha2]. apply Z.leb_le in Ha1, Ha2.
  (* the first occurrence of the smaller range *)
  set (sw := min_week (Json.weeks_array course)) in *.
  set (ew := max_week (Json.weeks_array course)) in *.
  set (first := initial_time + (7 * (sw - 1) + (Json.day course - 1))).
  set (r := {| start_week := sw; end_week := ew;
               week_status := week_status_of (sort (Json.weeks_array course));
               first_time_obj := first |}).
  assert (Hfirst : first = first_time_obj r' + 7 * (sw - start_week r'))
    by (unfold first; rewrite Hf', Hday; lia).
  assert (Hr : recurrence_of initial_time course = Ok r).
  { rewrite (recurrence_of_eq _ _ Hne). cbv zeta. fold sw ew.
    rewrite delta_time_shift. unfold sw at 2.
    rewrite (parity_shift_zero _ Hne), Z.add_0_r. fold sw.
    rewrite (proj2 (datetime_add_ok initial_time _ first)); [reflexivity|].
    unfold first, max_ordinal in *. clear r. clearbody sw ew. lia. }
  unfold exclusion_set. rewrite Hr. cbn [bind].
  unfold exclude_dates_of. rewrite exclude_loop_eq.
  2:{ intros w Hw _. apply in_range in Hw. apply datetime_add_ok.
      unfold occurrence_date, r in *. cbn [first_time_obj start_week end_week] in *.
      unfold first, max_ordinal in *. lia. }
  (* the holidays of the smaller range are holidays of the larger one *)
  assert (Hsub : forall d,
            In d (filter is_holiday
                    (List.map (occurrence_date r)
                       (filter (parity_agrees (week_status r))
                          (range (start_week r) (end_week r + 1))))) ->
            In d (holiday_dates is_holiday r')).
  { intros d Hd. apply filter_In in Hd. destruct Hd as [Hd Hh].
    apply in_map_iff in Hd. destruct Hd as (w & <- & Hw).
    apply filter_In in Hw. destruct Hw as [Hw Hpw].
    apply in_range in Hw. unfold r in Hw, Hpw.
    cbn [start_week end_week week_status] in Hw, Hpw.
    unfold holiday_dates, candidate_weeks.
    assert (Heq : occurrence_date r w = occurrence_date r' w)
      by (unfold occurrence_date, r; cbn [first_time_obj start_week];
          unfold first in *; lia).
    apply filter_In. split; [|exact Hh].
    apply in_map_iff. exists w. split; [now symmetry|].
    apply filter_In. split.
    - apply in_range. lia.
    - now rewrite Hp', Hpat. }
  destruct (filter is_holiday _) as [|d ds] eqn:Ehol.
  - exists []. split; [reflexivity|]. intros x [].
  - assert (Hd : In d (holiday_dates is_holiday r')) by (apply Hsub; now left).
    destruct (holiday_dates is_holiday r') as [|d' ds'] eqn:Ehol'; [destruct Hd|].
    destruct Hm' as (s0 & slot & Hi & Hg & ->).
    rewrite <- Hsec, Hi. cbn [bind]. rewrite Hg. cbn [bind app].
    eexists. split; [reflexivity|].
    intros x Hx. apply in_map_iff in Hx. destruct Hx as (y & <- & Hy).
    apply in_map. now apply Hsub.
Qed.

Lemma holiday_dates_subset (r r' : recurrence) :
  week_status r = week_status r' ->
  start_week r' <= start_week r ->
  end_week r <= end_week r' ->
  first_time_obj r = first_time_obj r' + 7 * (start_week r - start_week r') ->
  incl (holiday_dates is_holiday r) (holiday_dates is_holiday r').
Proof.
  intros Hp Hs He Hf d Hd. unfold holiday_dates, candidate_weeks in *.
  apply filter_In in Hd. destruct Hd as [Hd Hh].
  apply in_map_iff in Hd. destruct Hd as (w & <- & Hw).
  apply filter_In in Hw. destruct Hw as [Hw Hpw]. apply in_range in Hw.
  assert (Heq : occurrence_date r' w = occurrence_date r w)
    by (unfold occurrence_date; lia).
  apply filter_In. split; [|exact Hh].
  apply in_map_iff. exists w. split; [exact Heq|].
  apply filter_In. split; [apply in_range; lia|now rewrite <- Hp].
Qed.

(** The exclusion set in closed form, when the first and the last
    occurrence of the range are representable dates. *)
Lemma exclusion_set_eq (initial_time : Z) (course : Json.t) :
  Json.weeks_array course <> [] ->
  valid_ordinal initial_time = true ->
  let sw := min_week (Json.weeks_array course) in
  let ew := max_week (Json.weeks_array course) in
  let first := initial_time + (7 * (sw - 1) + (Json.day course - 1)) in
  1 <= first ->
  first + 7 * (ew - sw) <= max_ordinal ->
  let r := {| start_week := sw; end_week := ew;
              week_status := week_status_of (sort (Json.weeks_array course));
              first_time_obj := first |} in
  exclusion_set is_holiday initial_time course =
    match holiday_dates is_holiday r with
    | [] => Ok []
    | dates =>
        s0 <- index (Json.section_array course) 0 ;;
        slot <- getitem class_timetable (str s0) ;;
        Ok (List.map (exclusion_stamp (startTime slot)) dates)
    end.
Proof.
  intros Hne Hanchor sw ew first Hlo Hhi r.
  pose proof (min_le_max _ Hne) as Hmm. fold sw ew in Hmm.
  unfold valid_ordinal in Hanchor. apply andb_prop in Hanchor.
  destruct Hanchor as [Ha1 Ha2]. apply Z.leb_le in Ha1, Ha2.
  assert (Hr : recurrence_of initial_time course = Ok r).
  { rewrite (recurrence_of_eq _ _ Hne). cbv zeta. fold sw ew.
    rewrite delta_time_shift. unfold sw at 2.
    rewrite (parity_shift_zero _ Hne), Z.add_0_r. fold sw.
    rewrite (proj2 (datetime_add_ok initial_time _ first)); [reflexivity|].
    unfold first, max_ordinal in *. lia. }
  unfold exclusion_set. rewrite Hr. cbn [bind].
  unfold exclude_dates_of. rewrite exclude_loop_eq.
  - unfold holiday_dates, candidate_weeks.
    destruct (filter is_holiday _); reflexivity.
  - intros w Hw _. apply in_range in Hw. apply datetime_add_ok.
    unfold occurrence_date, r in *. cbn [first_time_obj start_week end_week] in *.
    unfold first, max_ordinal in *. lia.
Qed.

(** C9.  The exclusion set is monotonic in the week range: when the
    week-set of a session is changed so that its least week does not
    increase and its greatest week does not decrease, with the same
    pattern (and the dates of the larger range are representable),
    every exclusion date computed for the smaller range is computed for
    the larger range too. *)
Theorem exclusion_set_monotone (initial_time : Z) (course course' : Json.t) :
  valid_ordinal initial_time = true ->
  Json.weeks_array course <> [] ->
  Json.weeks_array course' <> [] ->
  Json.day course' = Json.day course ->
  Json.section_array course' = Json.section_array course ->
  week_status_of (sort (Json.weeks_array course'))
  = week_status_of (sort (Json.weeks_array course)) ->
  min_week (Json.weeks_array course') <= min_week (Json.weeks_array course) ->
  max_week (Json.weeks_array course) <= max_week (Json.weeks_array course') ->
  1 <= initial_time
       + (7 * (min_week (Json.weeks_array course') - 1) + (Json.day course' - 1)) ->
  initial_time
  + (7 * (max_week (Json.weeks_array course') - 1) + (Json.day course' - 1))
  <= max_ordinal ->
  forall l x,
    exclusion_set is_holiday initial_time course = Ok l ->
    In x l ->
    exists l',
      exclusion_set is_holiday initial_time course' = Ok l' /\ In x l'.
Proof.
  intros Hanchor Hne Hne' Hday Hsec Hpat Hmin Hmax Hlo Hhi l x Hl Hx.
  pose proof (min_le_max _ Hne) as Hmm.
  rewrite exclusion_set_eq in Hl; try assumption; [|lia|lia].
  rewrite exclusion_set_eq; try assumption; [|lia].
  match type of Hl with
  | match holiday_dates _ ?a with _ => _ end = _ => set (r := a) in *
  end.
  match goal with
  | |- exists _, match holiday_dates _ ?a with _ => _ end = _ /\ _ =>
      set (r' := a) in *
  end.
  assert (Hsub : incl (holiday_dates is_holiday r) (holiday_dates is_holiday r')).
  { apply holiday_dates_subset; unfold r, r';
      cbn [week_status start_week end_week first_time_obj]; lia. }
  destruct (holiday_dates is_holiday r) as [|d ds] eqn:Ehol.
  - injection Hl as <-. destruct Hx.
  - assert (Hd : In d (holiday_dates is_holiday r')) by (apply Hsub; now left).
    destruct (holiday_dates is_holiday r') as [|d' ds'] eqn:Ehol'; [destruct Hd|].
    rewrite Hsec.
    destruct (index _ 0) as [s0|]; [|discriminate]. cbn [bind] in *.
    destruct (getitem _ _) as [slot|]; [|discriminate]. cbn [bind] in *.
    injection Hl as <-. eexists. split; [reflexivity|].
    change (In x (List.map (exclusion_stamp (startTime slot)) (d :: ds))) in Hx.
    apply in_map_iff in Hx. destruct Hx as (y & <- & Hy).
    apply in_map. now apply Hsub.
Qed.

End Monotone.

(** ** Strings and numerals *)

Lemma append_nil_r (s : string) : s ++ "" = s.
Proof. induction s as [|c s IH]; cbn; [reflexivity|now rewrite IH]. Qed.

Lemma append_assoc (s t u : string) : (s ++ t) ++ u = s ++ (t ++ u).
Proof. induction s as [|c s IH]; cbn; [reflexivity|now rewrite IH]. Qed.

Lemma chars_app (s t : string) :
  list_ascii_of_string (s ++ t)
  = (list_ascii_of_string s ++ list_ascii_of_string t)%list.
Proof. induction s as [|c s IH]; cbn; [reflexivity|now rewrite IH]. Qed.

(** An ASCII text is its own code points, and the first step of [int]
    leaves it as it is. *)
Lemma code_points_ascii (l : list ascii) :
  Forall (fun c => byte c < 127) l -> code_points l = List.map byte l.
Proof.
  induction 1 as [|c l Hc _ IH]; [reflexivity|].
  cbn [code_points List.map]. cbv zeta.
  destruct (Z.ltb_spec (byte c) 128); [now rewrite IH|lia].
Qed.

Lemma transform_ascii (l : list Z) :
  Forall (fun ch => ch < 127) l -> transform_decimal_and_space l = l.
Proof.
  induction 1 as [|ch l Hc _ IH]; [reflexivity|].
  cbn [transform_decimal_and_space]. unfold to_ascii.
  destruct (Z.ltb_spec ch 127); [now rewrite IH|lia].
Qed.

(** What the program needs to know of an ASCII digit. *)
Lemma digit_facts (c : ascii) :
  is_digit c = true ->
  byte c < 127
  /\ Py_ISSPACE (byte c) = false
  /\ (byte c =? 45) = false
  /\ (byte c =? 43) = false
  /\ c <> "-"%char
  /\ c <> "229"%char.
Proof.
  destruct c as [[|] [|] [|] [|] [|] [|] [|] [|]]; vm_compute;
    intros H; try discriminate H; repeat split; discriminate.
Qed.

Lemma uint_digits (d : Decimal.uint) :
  Forall (fun c => is_digit c = true)
    (list_ascii_of_string (NilEmpty.string_of_uint d)).
Proof. induction d; cbn; constructor; auto. Qed.

Lemma digits_value_acc (d : Decimal.uint) (p : positive) :
  digits_value (Z.pos p) true
    (List.map byte (list_ascii_of_string (NilEmpty.string_of_uint d)))
  = Some (Z.pos (Pos.of_uint_acc d p)).
Proof.
  revert p. induction d; intros p; cbn [NilEmpty.string_of_uint list_ascii_of_string
    List.map digits_value Pos.of_uint_acc]; [reflexivity| ..];
    (match goal with
     | |- context [digit_of (byte ?c)] =>
         let v := eval vm_compute in (digit_of (byte c)) in
         change (digit_of (byte c)) with v
     end);
    cbv beta iota; rewrite <- IHd; f_equal; lia.
Qed.

Lemma digits_value_zero (d : Decimal.uint) :
  digits_value 0 true
    (List.map byte (list_ascii_of_string (NilEmpty.string_of_uint d)))
  = Some (Z.of_N (Pos.of_uint d)).
Proof.
  induction d; cbn [NilEmpty.string_of_uint list_ascii_of_string List.map Pos.of_uint];
    [reflexivity|exact IHd| ..];
    apply (digits_value_acc d).
Qed.

Lemma digits_value_start (d : Decimal.uint) :
  d <> Decimal.Nil ->
  digits_value 0 false
    (List.map byte (list_ascii_of_string (NilEmpty.string_of_uint d)))
  = Some (Z.of_N (Pos.of_uint d)).
Proof.
  intros Hd. rewrite <- digits_value_zero.
  destruct d; [congruence| ..]; reflexivity.
Qed.

Lemma lstrip_id (l : list Z) :
  Forall (fun c => Py_ISSPACE c = false) l -> lstrip l = l.
Proof.
  destruct 1 as [|c l Hc _]; cbn [lstrip]; [reflexivity|now rewrite Hc].
Qed.

Lemma strip_id (l : list Z) :
  Forall (fun c => Py_ISSPACE c = false) l -> strip l = l.
Proof.
  intros H. unfold strip. rewrite (lstrip_id l H).
  rewrite lstrip_id by now apply Forall_rev.
  apply rev_involutive.
Qed.

Lemma uint_ascii (d : Decimal.uint) :
  Forall (fun c => byte c < 127)
    (list_ascii_of_string (NilEmpty.string_of_uint d)).
Proof.
  eapply Forall_impl; [|apply uint_digits].
  intros c Hc. now apply digit_facts.
Qed.

Lemma uint_no_space (d : Decimal.uint) :
  Forall (fun c => Py_ISSPACE c = false)
    (List.map byte (list_ascii_of_string (NilEmpty.string_of_uint d))).
Proof.
  apply Forall_map. eapply Forall_impl; [|apply uint_digits].
  intros c Hc. now apply digit_facts.
Qed.

(** The text that [int] reads, for an ASCII text. *)
Lemma int_text_ascii (l : list ascii) :
  Forall (fun c => byte c < 127) l ->
  transform_decimal_and_space (code_points l) = List.map byte l.
Proof.
  intros H. rewrite (code_points_ascii l H).
  apply transform_ascii. now apply Forall_map.
Qed.

(** The numeral of a positive number. *)
Lemma str_pos (p : positive) :
  str (Z.pos p) = NilEmpty.string_of_uint (Pos.to_uint p).
Proof.
  unfold str. cbn [Z.to_int NilZero.string_of_int]. unfold NilZero.string_of_uint.
  pose proof (Unsigned.to_uint_nonnil p) as Hn.
  destruct (Pos.to_uint p); [congruence| ..]; reflexivity.
Qed.

Lemma str_neg (p : positive) : str (Z.neg p) = String "-" (str (Z.pos p)).
Proof.
  rewrite str_pos. unfold str. cbn [Z.to_int NilZero.string_of_int].
  unfold NilZero.string_of_uint.
  pose proof (Unsigned.to_uint_nonnil p) as Hn.
  destruct (Pos.to_uint p); [congruence| ..]; reflexivity.
Qed.

Lemma int_unsigned (d : Decimal.uint) :
  d <> Decimal.Nil ->
  int (NilEmpty.string_of_uint d) = Ok (Z.of_N (Pos.of_uint d)).
Proof.
  intros Hd. unfold int. rewrite int_text_ascii by apply uint_ascii.
  rewrite strip_id by apply uint_no_space.
  pose proof (digits_value_start d Hd) as Hv.
  pose proof (uint_digits d) as Hdig.
  destruct (list_ascii_of_string (NilEmpty.string_of_uint d)) as [|c rest] eqn:E.
  - destruct d; discriminate || congruence.
  - apply Forall_inv in Hdig. apply digit_facts in Hdig.
    destruct Hdig as (_ & _ & E1 & E2 & _). cbn [List.map] in *.
    rewrite E1, E2. now rewrite Hv.
Qed.

(** [int(str(n))] is [n]. *)
Lemma int_str (n : Z) : int (str n) = Ok n.
Proof.
  destruct n as [|p|p].
  - reflexivity.
  - rewrite str_pos, int_unsigned by apply Unsigned.to_uint_nonnil.
    now rewrite Unsigned.of_to.
  - rewrite str_neg, str_pos. unfold int. cbn [list_ascii_of_string].
    rewrite int_text_ascii by (constructor; [vm_compute; reflexivity|apply uint_ascii]).
    cbn [List.map].
    rewrite strip_id by (constructor; [reflexivity|apply uint_no_space]).
    change (byte "-" =? 45) with true. cbv iota.
    rewrite digits_value_start by apply Unsigned.to_uint_nonnil.
    now rewrite Unsigned.of_to.
Qed.

(** *** The numerals that [int] reads *)

Lemma digit_of_range (c d : Z) : digit_of c = Some d <-> 48 <= c <= 57 /\ d = c - 48.
Proof.
  unfold digit_of.
  destruct (Z.leb_spec 48 c); destruct (Z.leb_spec c 57); cbn [andb];
    split; try discriminate; try lia; try (intros [= <-]; lia);
    intros [_ ->]; reflexivity.
Qed.

Lemma space_range (c : Z) : Py_ISSPACE c = true <-> 9 <= c <= 13 \/ c = 32.
Proof.
  unfold Py_ISSPACE. rewrite orb_true_iff, andb_true_iff, !Z.leb_le, Z.eqb_eq.
  reflexivity.
Qed.

Lemma not_space (c : Z) : ~ (9 <= c <= 13 \/ c = 32) -> Py_ISSPACE c = false.
Proof.
  intros H. destruct (Py_ISSPACE c) eqn:E; [|reflexivity].
  apply space_range in E. contradiction.
Qed.

Lemma todecimal_range (ch d : Z) :
  Py_UNICODE_TODECIMAL ch = Some d -> 0 <= d <= 9.
Proof.
  unfold Py_UNICODE_TODECIMAL.
  destruct (find _ decimal_zeros) as [zero|] eqn:E; [|discriminate].
  intros [= <-]. apply find_some in E. destruct E as [_ E].
  apply andb_prop in E. destruct E as [E1 E2].
  apply Z.leb_le in E1. apply Z.ltb_lt in E2. lia.
Qed.

(** No white space is a decimal digit. *)
Lemma space_not_decimal (ch : Z) :
  Py_UNICODE_ISSPACE ch = true -> Py_UNICODE_TODECIMAL ch = None.
Proof.
  unfold Py_UNICODE_ISSPACE. intros H. apply existsb_exists in H.
  destruct H as (x & Hx & E). apply Z.eqb_eq in E. subst x.
  unfold unicode_spaces in Hx. cbn [In] in Hx.
  repeat (destruct Hx as [<-|Hx]; [reflexivity|]). destruct Hx.
Qed.

Lemma to_ascii_blank (ch : Z) :
  blank ch = true <-> exists c, to_ascii ch = Some c /\ Py_ISSPACE c = true.
Proof.
  unfold blank, to_ascii. destruct (Z.ltb_spec ch 127) as [Hlt|Hge].
  - split; [intros H; now exists ch|intros (c & [= <-] & H); exact H].
  - destruct (Py_UNICODE_ISSPACE ch) eqn:Es.
    + split; [intros _; now exists 32|reflexivity].
    + split; [discriminate|]. intros (c & Hc & Hs).
      destruct (Py_UNICODE_TODECIMAL ch) as [d|] eqn:Ed; [|discriminate Hc].
      apply todecimal_range in Ed.
      assert (E : c = 48 + d) by congruence. subst c.
      apply space_range in Hs. exfalso. lia.
Qed.

Lemma to_ascii_digit (ch d : Z) :
  digit_value ch = Some d <-> exists c, to_ascii ch = Some c /\ digit_of c = Some d.
Proof.
  unfold digit_value, to_ascii. destruct (Z.ltb_spec ch 127) as [Hlt|Hge].
  - split; [intros H; now exists ch|intros (c & [= <-] & H); exact H].
  - destruct (Py_UNICODE_ISSPACE ch) eqn:Es.
    + rewrite (space_not_decimal ch Es).
      split; [discriminate|intros (c & [= <-] & H); discriminate H].
    + destruct (Py_UNICODE_TODECIMAL ch) as [d'|] eqn:Ed.
      * pose proof (todecimal_range _ _ Ed) as Hr. split.
        -- intros [= ->]. exists (48 + d). split; [reflexivity|].
           apply digit_of_range. lia.
        -- intros (c & Hc & H).
           assert (E : c = 48 + d') by congruence. subst c.
           apply digit_of_range in H. f_equal. lia.
      * split; [discriminate|intros (c & Hc & _); discriminate Hc].
Qed.

(** A sign or an underscore is written by itself only. *)
Lemma to_ascii_mark (ch c : Z) :
  to_ascii ch = Some c -> c = 43 \/ c = 45 \/ c = 95 -> ch = c.
Proof.
  unfold to_ascii. destruct (ch <? 127); [now intros [= ->]|].
  destruct (Py_UNICODE_ISSPACE ch); [intros [= <-]; lia|].
  destruct (Py_UNICODE_TODECIMAL ch) as [d|] eqn:Ed; [|discriminate].
  apply todecimal_range in Ed. intros Hc.
  assert (E : c = 48 + d) by congruence. subst c. lia.
Qed.

Lemma to_ascii_below (ch c : Z) : to_ascii ch = Some c -> c < 127.
Proof.
  unfold to_ascii. destruct (Z.ltb_spec ch 127); [intros [= <-]; exact H|].
  destruct (Py_UNICODE_ISSPACE ch); [intros [= <-]; lia|].
  destruct (Py_UNICODE_TODECIMAL ch) as [d|] eqn:Ed; [|discriminate].
  apply todecimal_range in Ed. intros Hc.
  assert (E : c = 48 + d) by congruence. subst c. lia.
Qed.

Lemma to_ascii_self (c : Z) : c < 127 -> to_ascii c = Some c.
Proof. intros H. unfold to_ascii. now destruct (Z.ltb_spec c 127); [|lia]. Qed.

(** The first step of [int] on a text that it does not cut. *)
Lemma transform_app (l : list Z) (l' : list Z) (rest : list Z) :
  Forall2 (fun ch c => to_ascii ch = Some c) l l' ->
  transform_decimal_and_space (l ++ rest)
  = (l' ++ transform_decimal_and_space rest)%list.
Proof.
  induction 1 as [|ch c l l' Hc _ IH]; [reflexivity|].
  cbn [app transform_decimal_and_space]. now rewrite Hc, IH.
Qed.

Lemma transform_inv (l : list Z) :
  Forall (fun c => c <> 63) (transform_decimal_and_space l) ->
  Forall2 (fun ch c => to_ascii ch = Some c) l (transform_decimal_and_space l).
Proof.
  induction l as [|ch l IH]; intros H; [constructor|].
  cbn [transform_decimal_and_space] in *.
  destruct (to_ascii ch) as [c|] eqn:Ec.
  - apply Forall_cons_iff in H. constructor; [exact Ec|now apply IH].
  - apply Forall_inv in H. congruence.
Qed.

Lemma blanks_written (l : list Z) :
  Forall (fun ch => blank ch = true) l ->
  exists l', Forall2 (fun ch c => to_ascii ch = Some c) l l'
             /\ Forall (fun c => Py_ISSPACE c = true) l'.
Proof.
  induction 1 as [|ch l Hc _ (l' & H2 & Hs)]; [exists []; split; constructor|].
  apply to_ascii_blank in Hc. destruct Hc as (c & Hc & Hsp).
  exists (c :: l'). split; constructor; assumption.
Qed.

Lemma blanks_read (l l' : list Z) :
  Forall2 (fun ch c => to_ascii ch = Some c) l l' ->
  Forall (fun c => Py_ISSPACE c = true) l' ->
  Forall (fun ch => blank ch = true) l.
Proof.
  induction 1 as [|ch c l l' Hc _ IH]; intros Hs; [constructor|].
  apply Forall_cons_iff in Hs. destruct Hs as [Hs1 Hs2].
  constructor; [|now apply IH]. apply to_ascii_blank. now exists c.
Qed.

(** The digits, written and read. *)
Lemma digits_written (l : list Z) (n : Z) :
  digits l n ->
  exists l',
    Forall2 (fun ch c => to_ascii ch = Some c) l l'
    /\ (forall tail, digits_value 0 false (l' ++ tail) = digits_value n true tail)
    /\ (exists c t, l' = c :: t /\ 48 <= c <= 57)
    /\ (exists t c, l' = (t ++ [c])%list /\ 48 <= c <= 57).
Proof.
  induction 1 as [ch d Hd|l n ch d _ (l' & H2 & Hv & (c0 & t0 & -> & H0) & _) Hd
                 |l n ch d _ (l' & H2 & Hv & (c0 & t0 & -> & H0) & _) Hd];
    apply to_ascii_digit in Hd; destruct Hd as (c & Hc & Hd);
    pose proof (proj1 (digit_of_range _ _) Hd) as [Hr _].
  - exists [c]. split; [constructor; [exact Hc|constructor]|].
    split; [|split; [now exists c, []|now exists [], c]].
    intros tail. cbn [app digits_value]. rewrite Hd. reflexivity.
  - exists ((c0 :: t0) ++ [c])%list.
    split; [apply Forall2_app; [exact H2|constructor; [exact Hc|constructor]]|].
    split; [|split; [now exists c0, (t0 ++ [c])%list|now exists (c0 :: t0), c]].
    intros tail. rewrite <- app_assoc, Hv. cbn [app digits_value].
    rewrite Hd. reflexivity.
  - exists ((c0 :: t0) ++ [95; c])%list.
    split; [apply Forall2_app;
            [exact H2
            |constructor; [reflexivity|constructor; [exact Hc|constructor]]]|].
    split; [|split; [now exists c0, (t0 ++ [95; c])%list
                    |exists (c0 :: t0 ++ [95])%list, c;
                     split; [cbn [app]; now rewrite <- app_assoc|exact Hr]]].
    intros tail. rewrite <- app_assoc, Hv. cbn [app digits_value].
    change (digit_of 95) with (@None Z). cbv iota.
    change ((95 =? 95) && true) with true. cbv iota.
    rewrite Hd. reflexivity.
Qed.

Lemma digits_value_digits (l : list Z) (m : Z) :
  (forall pre acc,
     digits pre acc -> digits_value acc true l = Some m -> digits (pre ++ l) m)
  /\ (forall pre acc,
        digits pre acc -> digits_value acc false l = Some m ->
        digits (pre ++ 95 :: l) m)
  /\ (digits_value 0 false l = Some m -> digits l m).
Proof.
  induction l as [|c l (IHt & IHf & _)].
  - repeat split.
    + intros pre acc Hp [= <-]. now rewrite app_nil_r.
    + intros pre acc _ H. discriminate H.
    + intros H. discriminate H.
  - assert (Hdv : forall d, digit_of c = Some d -> digit_value c = Some d).
    { intros d Hd. unfold digit_value.
      apply digit_of_range in Hd as Hr.
      destruct (Z.ltb_spec c 127); [exact Hd|lia]. }
    repeat split.
    + intros pre acc Hp H. cbn [digits_value] in H.
      destruct (digit_of c) as [d|] eqn:Ed.
      * replace (pre ++ c :: l)%list with ((pre ++ [c]) ++ l)%list
          by now rewrite <- app_assoc.
        apply (IHt _ (10 * acc + d)); [|exact H].
        apply digits_next; auto.
      * destruct (Z.eqb_spec c 95) as [->|_]; [|discriminate H].
        cbn [andb] in H. now apply (IHf pre acc).
    + intros pre acc Hp H. cbn [digits_value] in H.
      destruct (digit_of c) as [d|] eqn:Ed.
      * replace (pre ++ 95 :: c :: l)%list with ((pre ++ [95; c]) ++ l)%list
          by now rewrite <- app_assoc.
        apply (IHt _ (10 * acc + d)); [|exact H].
        apply digits_group; auto.
      * rewrite andb_false_r in H. discriminate H.
    + intros H. cbn [digits_value] in H.
      destruct (digit_of c) as [d|] eqn:Ed.
      * apply (IHt [c] (10 * 0 + d)); [|exact H].
        apply digits_one; auto.
      * rewrite andb_false_r in H. discriminate H.
Qed.

Lemma digits_read (l' : list Z) (m : Z) :
  digits l' m ->
  forall l, Forall2 (fun ch c => to_ascii ch = Some c) l l' -> digits l m.
Proof.
  induction 1 as [c d Hd|l' n c d _ IH Hd|l' n c d _ IH Hd]; intros l H2.
  - inversion H2 as [|ch c' l0 l0' Hc Hnil]; subst. inversion Hnil; subst.
    apply digits_one, to_ascii_digit. exists c. split; [exact Hc|].
    apply to_ascii_digit in Hd.
    destruct Hd as (c2 & Hc2 & Hd2).
    rewrite to_ascii_self in Hc2 by (apply (to_ascii_below _ _ Hc)).
    now injection Hc2 as <-.
  - apply Forall2_app_inv_r in H2. destruct H2 as (l1 & l2 & H1 & H2 & ->).
    inversion H2 as [|ch c' l0 l0' Hc Hnil]; subst. inversion Hnil; subst.
    apply digits_next; [now apply IH|].
    apply to_ascii_digit. exists c. split; [exact Hc|].
    apply to_ascii_digit in Hd. destruct Hd as (c2 & Hc2 & Hd2).
    rewrite to_ascii_self in Hc2 by (apply (to_ascii_below _ _ Hc)).
    now injection Hc2 as <-.
  - apply Forall2_app_inv_r in H2. destruct H2 as (l1 & l2 & H1 & H2 & ->).
    inversion H2 as [|u c' l0 l0' Hu Hrest]; subst.
    inversion Hrest as [|ch c'' l3 l3' Hc Hnil]; subst. inversion Hnil; subst.
    apply to_ascii_mark in Hu; [subst u|now right; right].
    apply digits_group; [now apply IH|].
    apply to_ascii_digit. exists c. split; [exact Hc|].
    apply to_ascii_digit in Hd. destruct Hd as (c2 & Hc2 & Hd2).
    rewrite to_ascii_self in Hc2 by (apply (to_ascii_below _ _ Hc)).
    now injection Hc2 as <-.
Qed.

(** White space at both ends. *)
Lemma lstrip_blanks (sp l : list Z) :
  Forall (fun c => Py_ISSPACE c = true) sp -> lstrip (sp ++ l) = lstrip l.
Proof.
  induction 1 as [|c sp Hc _ IH]; [reflexivity|].
  cbn [app lstrip]. now rewrite Hc.
Qed.

Lemma lstrip_split (l : list Z) :
  exists sp, l = (sp ++ lstrip l)%list /\ Forall (fun c => Py_ISSPACE c = true) sp.
Proof.
  induction l as [|c l (sp & Hl & Hsp)]; [exists []; split; constructor|].
  cbn [lstrip]. destruct (Py_ISSPACE c) eqn:Ec.
  - exists (c :: sp). split; [cbn [app]; now rewrite <- Hl|now constructor].
  - exists []. split; [reflexivity|constructor].
Qed.

Lemma strip_split (l : list Z) :
  exists sp1 sp2,
    l = (sp1 ++ strip l ++ sp2)%list
    /\ Forall (fun c => Py_ISSPACE c = true) sp1
    /\ Forall (fun c => Py_ISSPACE c = true) sp2.
Proof.
  destruct (lstrip_split l) as (sp1 & Hl & Hsp1).
  destruct (lstrip_split (rev (lstrip l))) as (sp2 & Hr & Hsp2).
  exists sp1, (rev sp2). split; [|split; [exact Hsp1|now apply Forall_rev]].
  unfold strip. rewrite <- rev_app_distr, <- Hr, rev_involutive. exact Hl.
Qed.

Lemma strip_body (sp1 sp2 t : list Z) (c e : Z) :
  Forall (fun c => Py_ISSPACE c = true) sp1 ->
  Forall (fun c => Py_ISSPACE c = true) sp2 ->
  Py_ISSPACE c = false -> Py_ISSPACE e = false ->
  forall body, body = c :: t -> (exists t', body = (t' ++ [e])%list) ->
  strip (sp1 ++ body ++ sp2) = body.
Proof.
  intros H1 H2 Hc He body Hb [t' Hb']. unfold strip.
  rewrite (lstrip_blanks _ _ H1).
  assert (E1 : lstrip (body ++ sp2) = (body ++ sp2)%list).
  { rewrite Hb. cbn [app lstrip]. now rewrite Hc. }
  rewrite E1, rev_app_distr, (lstrip_blanks _ _ (Forall_rev H2)).
  assert (E2 : lstrip (rev body) = rev body).
  { rewrite Hb', rev_app_distr. cbn [rev app lstrip]. now rewrite He. }
  rewrite E2. apply rev_involutive.
Qed.

(** [int] reads the numerals, and nothing else. *)
Lemma int_numeral (s : string) (n : Z) : numeral s n -> int s = Ok n.
Proof.
  intros (before & body & after & Hs & Hb & Ha & Hn). unfold int. rewrite Hs.
  destruct (blanks_written _ Hb) as (sp1 & Hw1 & Hsp1).
  destruct (blanks_written _ Ha) as (sp2 & Hw2 & Hsp2).
  rewrite (transform_app _ _ _ Hw1).
  assert (Hend : transform_decimal_and_space after = sp2).
  { rewrite <- (app_nil_r after), (transform_app _ _ _ Hw2). apply app_nil_r. }
  destruct Hn as [l n Hd|l n Hd|l n Hd];
    destruct (digits_written _ _ Hd)
      as (l' & H2 & Hv & (c0 & t0 & E0 & H0) & (t1 & c1 & E1 & H1)).
  - rewrite (transform_app _ _ _ H2), Hend.
    rewrite (strip_body sp1 sp2 t0 c0 c1 Hsp1 Hsp2) ;
      [|apply not_space; lia|apply not_space; lia|exact E0|now exists t1].
    rewrite E0.
    destruct (Z.eqb_spec c0 45); [lia|]. destruct (Z.eqb_spec c0 43); [lia|].
    rewrite <- E0. specialize (Hv []). rewrite app_nil_r in Hv. now rewrite Hv.
  - rewrite (transform_app (43 :: l) (43 :: l'))
      by (constructor; [reflexivity|exact H2]).
    rewrite Hend.
    rewrite (strip_body sp1 sp2 l' 43 c1 Hsp1 Hsp2);
      [|reflexivity|apply not_space; lia|reflexivity
       |exists (43 :: t1); now rewrite E1].
    change (43 =? 45) with false. change (43 =? 43) with true. cbv iota.
    specialize (Hv []). rewrite app_nil_r in Hv. now rewrite Hv.
  - rewrite (transform_app (45 :: l) (45 :: l'))
      by (constructor; [reflexivity|exact H2]).
    rewrite Hend.
    rewrite (strip_body sp1 sp2 l' 45 c1 Hsp1 Hsp2);
      [|reflexivity|apply not_space; lia|reflexivity
       |exists (45 :: t1); now rewrite E1].
    change (45 =? 45) with true. cbv iota.
    specialize (Hv []). rewrite app_nil_r in Hv. now rewrite Hv.
Qed.

Lemma digits_value_chars (l : list Z) :
  forall acc b m, digits_value acc b l = Some m -> Forall (fun c => c <> 63) l.
Proof.
  induction l as [|c l IH]; intros acc b m H; [constructor|].
  cbn [digits_value] in H. destruct (digit_of c) as [d|] eqn:Ed.
  - apply digit_of_range in Ed. constructor; [lia|eapply IH; eassumption].
  - destruct (Z.eqb_spec c 95) as [->|_]; [|discriminate H].
    destruct b; [|discriminate H]. cbn [andb] in H.
    constructor; [lia|eapply IH; eassumption].
Qed.

Lemma numeral_int (s : string) (n : Z) : int s = Ok n -> numeral s n.
Proof.
  unfold int.
  set (text := transform_decimal_and_space (code_points (list_ascii_of_string s))).
  destruct (strip_split text) as (sp1 & sp2 & Ht & Hsp1 & Hsp2).
  destruct (strip text) as [|c rest] eqn:Eb; [discriminate|].
  intros H.
  assert (Hbody : signed_digits (c :: rest) n
                  /\ Forall (fun c => c <> 63) (c :: rest)).
  { destruct (Z.eqb_spec c 45) as [->|_].
    - destruct (digits_value 0 false rest) as [m|] eqn:Em; [|discriminate H].
      injection H as <-. split.
      + apply signed_minus. now apply digits_value_digits.
      + constructor; [lia|eapply digits_value_chars; eassumption].
    - destruct (Z.eqb_spec c 43) as [->|_].
      + destruct (digits_value 0 false rest) as [m|] eqn:Em; [|discriminate H].
        injection H as <-. split.
        * apply signed_plus. now apply digits_value_digits.
        * constructor; [lia|eapply digits_value_chars; eassumption].
      + destruct (digits_value 0 false (c :: rest)) as [m|] eqn:Em;
          [|discriminate H].
        injection H as <-. split.
        * apply signed_none. now apply digits_value_digits.
        * eapply digits_value_chars; eassumption. }
  destruct Hbody as [Hsd Hch]. clear H.
  assert (Hall : Forall (fun c => c <> 63) text).
  { rewrite Ht. apply Forall_app. split; [|apply Forall_app; split].
    - eapply Forall_impl; [|exact Hsp1]. intros x Hx. apply space_range in Hx. lia.
    - exact Hch.
    - eapply Forall_impl; [|exact Hsp2]. intros x Hx. apply space_range in Hx. lia. }
  pose proof (transform_inv _ Hall) as H2. fold text in H2. rewrite Ht in H2.
  apply Forall2_app_inv_r in H2. destruct H2 as (before & l2 & Hb & H2 & Hcp).
  apply Forall2_app_inv_r in H2. destruct H2 as (body & after & Hm & Ha & ->).
  exists before, body, after. split; [exact Hcp|].
  split; [now apply (blanks_read _ _ Hb)|].
  split; [now apply (blanks_read _ _ Ha)|].
  clear -Hsd Hm.
  inversion Hsd as [l m Hd|l m Hd|l m Hd]; subst.
  - apply signed_none. now apply (digits_read _ _ Hd).
  - inversion Hm as [|ch c' l0 l0' Hc Hrest]; subst.
    apply to_ascii_mark in Hc; [subst ch|now left].
    apply signed_plus. now apply (digits_read _ _ Hd).
  - inversion Hm as [|ch c' l0 l0' Hc Hrest]; subst.
    apply to_ascii_mark in Hc; [subst ch|now right; left].
    apply signed_minus. now apply (digits_read _ _ Hd).
Qed.

Lemma replace_from_free (c0 : ascii) (old' new s t : string) :
  Forall (fun c => c <> c0) (list_ascii_of_string s) ->
  replace_from (String c0 old') new O (s ++ t)
  = s ++ replace_from (String c0 old') new O t.
Proof.
  induction s as [|c s IH]; intros H; [reflexivity|].
  cbn [list_ascii_of_string] in H. apply Forall_cons_iff in H. destruct H as [Hc H].
  cbn [append replace_from prefix].
  destruct (ascii_dec c0 c) as [E|_]; [now subst|].
  now rewrite (IH H).
Qed.

Lemma split_from_free (sep : ascii) (cur s : string) :
  Forall (fun c => c <> sep) (list_ascii_of_string s) ->
  split_from sep cur s = [cur ++ s].
Proof.
  revert cur. induction s as [|c s IH]; intros cur H; cbn [split_from].
  - now rewrite append_nil_r.
  - cbn [list_ascii_of_string] in H. apply Forall_cons_iff in H.
    destruct H as [Hc H].
    destruct (Ascii.eqb_spec c sep) as [E|_]; [contradiction|].
    rewrite (IH _ H), append_assoc. reflexivity.
Qed.

Lemma split_from_app (sep : ascii) (cur s t : string) :
  Forall (fun c => c <> sep) (list_ascii_of_string s) ->
  split_from sep cur (s ++ String sep t)
  = (cur ++ s) :: split_from sep EmptyString t.
Proof.
  revert cur. induction s as [|c s IH]; intros cur H; cbn [append split_from].
  - rewrite Ascii.eqb_refl, append_nil_r. reflexivity.
  - cbn [list_ascii_of_string] in H. apply Forall_cons_iff in H.
    destruct H as [Hc H].
    destruct (Ascii.eqb_spec c sep) as [E|_]; [contradiction|].
    rewrite (IH _ H), append_assoc. reflexivity.
Qed.

Lemma split_from_some (sep : ascii) (s cur : string) : split_from sep cur s <> [].
Proof.
  revert cur. induction s as [|c s IH]; intros cur; cbn [split_from];
    [discriminate|].
  destruct (Ascii.eqb c sep); [discriminate|apply IH].
Qed.

Lemma split_from_one (sep : ascii) (s cur x : string) :
  split_from sep cur s = [x] ->
  x = cur ++ s /\ Forall (fun c => c <> sep) (list_ascii_of_string s).
Proof.
  revert cur. induction s as [|c s IH]; intros cur H; cbn [split_from] in H.
  - injection H as <-. split; [now rewrite append_nil_r|constructor].
  - destruct (Ascii.eqb_spec c sep) as [E|E].
    + injection H as _ H. now apply split_from_some in H.
    + destruct (IH _ H) as [-> Hs]. split; [now rewrite append_assoc|].
      cbn [list_ascii_of_string]. now constructor.
Qed.

(** Two pieces: the text has one separator, between them. *)
Lemma split_from_two (sep : ascii) (s cur x y : string) :
  split_from sep cur s = [x; y] ->
  exists s1,
    s = s1 ++ String sep y /\ x = cur ++ s1
    /\ Forall (fun c => c <> sep) (list_ascii_of_string s1)
    /\ Forall (fun c => c <> sep) (list_ascii_of_string y).
Proof.
  revert cur. induction s as [|c s IH]; intros cur H; cbn [split_from] in H;
    [discriminate H|].
  destruct (Ascii.eqb_spec c sep) as [E|E].
  - injection H as <- H. apply split_from_one in H. destruct H as [-> Hs].
    exists EmptyString. subst c. cbn [append].
    split; [reflexivity|]. split; [now rewrite append_nil_r|].
    split; [constructor|exact Hs].
  - destruct (IH _ H) as (s1 & -> & -> & H1 & Hy).
    exists (String c s1). cbn [append list_ascii_of_string].
    split; [reflexivity|]. split; [now rewrite append_assoc|].
    split; [now constructor|exact Hy].
Qed.

Lemma str_nonneg_digits (n : Z) :
  0 <= n -> Forall (fun c => is_digit c = true) (list_ascii_of_string (str n)).
Proof.
  destruct n as [|p|p]; intros Hn; [repeat constructor| |lia].
  rewrite str_pos. apply uint_digits.
Qed.

Lemma str_nonneg_no_dash (n : Z) :
  0 <= n -> Forall (fun c => c <> "-"%char) (list_ascii_of_string (str n)).
Proof.
  intros Hn. eapply Forall_impl; [|apply (str_nonneg_digits n Hn)].
  intros c Hc E. subst c. discriminate Hc.
Qed.

Lemma str_no_mark (n : Z) :
  Forall (fun c => c <> "229"%char) (list_ascii_of_string (str n)).
Proof.
  assert (Hpos : forall p,
            Forall (fun c => c <> "229"%char) (list_ascii_of_string (str (Z.pos p)))).
  { intros p. eapply Forall_impl; [|apply (str_nonneg_digits (Z.pos p)); lia].
    intros c Hc. now apply digit_facts. }
  destruct n as [|p|p].
  - repeat constructor; discriminate.
  - apply Hpos.
  - rewrite str_neg. cbn [list_ascii_of_string].
    constructor; [discriminate|apply Hpos].
Qed.

(** Taking the mark out of a numeral text followed by the mark. *)
Lemma replace_mark (s : string) :
  Forall (fun c => c <> "229"%char) (list_ascii_of_string s) ->
  replace "周" "" (s ++ "周") = s.
Proof.
  intros H. unfold replace.
  change "周" with (String "229" (String "145" (String "168" EmptyString))).
  rewrite (replace_from_free _ _ _ _ _ H). cbn. apply append_nil_r.
Qed.

Lemma int_raises (s : string) : (exists n, int s = Ok n) \/ int s = Raise ValueError.
Proof.
  unfold int. destruct (match strip _ with [] => _ | _ => _ end);
    [left; eauto|now right].
Qed.

(** Unpacking the parsed pieces gives two numbers exactly when there are
    two pieces and both are numerals; it raises [ValueError] otherwise. *)
Lemma unpack2_int (pieces : list string) :
  (exists sa sb a b,
      pieces = [sa; sb] /\ int sa = Ok a /\ int sb = Ok b
      /\ unpack2 (List.map int pieces) = Ok (a, b))
  \/ ((forall sa sb a b,
         pieces = [sa; sb] -> int sa = Ok a -> int sb = Ok b -> False)
      /\ unpack2 (List.map int pieces) = Raise ValueError).
Proof.
  destruct pieces as [|sa [|sb [|sc rest]]]; cbn [List.map unpack2].
  - right. split; [discriminate|reflexivity].
  - right. split; [discriminate|].
    destruct (int_raises sa) as [[a ->]| ->]; reflexivity.
  - destruct (int_raises sa) as [[a Ha]|Ha]; rewrite Ha; cbn [bind].
    + destruct (int_raises sb) as [[b Hb]|Hb]; rewrite Hb; cbn [bind].
      * left. exists sa, sb, a, b. repeat split; assumption.
      * right. split; [intros ? ? ? ? [= <- <-]; congruence|reflexivity].
    + right. split; [intros ? ? ? ? [= <- <-]; congruence|reflexivity].
  - right. split; [discriminate|].
    destruct (int_raises sa) as [[a ->]| ->]; cbn [bind]; [|reflexivity].
    destruct (int_raises sb) as [[b ->]| ->]; cbn [bind]; [|reflexivity].
    destruct (int_raises sc) as [[c ->]| ->]; reflexivity.
Qed.

(** ** Week labels *)

Lemma parse_range_label (a b : Z) :
  0 <= a -> 0 <= b ->
  parse_weeks_string (str a ++ "-" ++ str b ++ "周") = Ok (range a (b + 1)).
Proof.
  intros Ha Hb. unfold parse_weeks_string.
  replace (str a ++ "-" ++ str b ++ "周")
    with ((str a ++ String "-" (str b)) ++ "周")
    by (rewrite append_assoc; reflexivity).
  rewrite replace_mark.
  - unfold split. rewrite split_from_app by now apply str_nonneg_no_dash.
    rewrite split_from_free by now apply str_nonneg_no_dash.
    cbn [append List.map unpack2]. rewrite !int_str. reflexivity.
  - rewrite chars_app. apply Forall_app. split; [apply str_no_mark|].
    cbn [list_ascii_of_string]. constructor; [discriminate|apply str_no_mark].
Qed.

Lemma parse_single_label (a : Z) : parse_weeks_string (str a ++ "周") = Ok [a].
Proof.
  unfold parse_weeks_string. rewrite replace_mark by apply str_no_mark.
  destruct (unpack2_int (split "-" (str a)))
    as [(sa & sb & x & y & Hs & Hx & Hy & _)|[_ ->]].
  - (* two numerals around a dash: not the shape of one numeral *)
    exfalso. destruct a as [|p|p].
    + discriminate Hs.
    + unfold split in Hs.
      rewrite split_from_free in Hs by (apply str_nonneg_no_dash; lia).
      discriminate Hs.
    + rewrite str_neg in Hs. unfold split in Hs. cbn [split_from] in Hs.
      rewrite Ascii.eqb_refl in Hs.
      rewrite split_from_free in Hs by (apply str_nonneg_no_dash; lia).
      injection Hs as <- _. discriminate Hx.
  - cbn [bind try_except_ValueError]. now rewrite int_str.
Qed.

(** The first branch of the parser is taken exactly by the labels that
    read as a range. *)
Lemma range_branch (s : string) :
  (exists a b,
      reads_as_range s a b
      /\ unpack2 (List.map int (split "-" s)) = Ok (a, b))
  \/ ((forall a b, ~ reads_as_range s a b)
      /\ unpack2 (List.map int (split "-" s)) = Raise ValueError).
Proof.
  destruct (unpack2_int (split "-" s))
    as [(sa & sb & a & b & Hs & Ha & Hb & Hu)|[Hno Hu]].
  - left. exists a, b. split; [|exact Hu].
    unfold split in Hs. apply split_from_two in Hs.
    destruct Hs as (s1 & -> & -> & H1 & H2).
    exists s1, sb. cbn [append] in *.
    repeat split; try assumption; now apply numeral_int.
  - right. split; [|exact Hu].
    intros a b (sa & sb & -> & H1 & H2 & Ha & Hb).
    apply (Hno sa sb a b); [|now apply int_numeral|now apply int_numeral].
    unfold split. change (sa ++ "-" ++ sb) with (sa ++ String "-" sb).
    rewrite split_from_app by exact H1.
    now rewrite split_from_free by exact H2.
Qed.

Lemma parse_reads_range (label : string) (a b : Z) :
  reads_as_range (replace "周" "" label) a b ->
  parse_weeks_string label = Ok (range a (b + 1)).
Proof.
  unfold parse_weeks_string. set (s := replace "周" "" label).
  intros (sa & sb & -> & H1 & H2 & Ha & Hb).
  unfold split. change (sa ++ "-" ++ sb) with (sa ++ String "-" sb).
  rewrite split_from_app by exact H1.
  rewrite split_from_free by exact H2.
  cbn [append List.map unpack2].
  now rewrite (int_numeral _ _ Ha), (int_numeral _ _ Hb).
Qed.

Lemma parse_reads_single (label : string) (a : Z) :
  reads_as_single (replace "周" "" label) a ->
  (forall a' b', ~ reads_as_range (replace "周" "" label) a' b') ->
  parse_weeks_string label = Ok [a].
Proof.
  unfold parse_weeks_string, reads_as_single. set (s := replace "周" "" label).
  intros Ha Hno.
  destruct (range_branch s) as [(a' & b' & Hr & _)|[_ ->]].
  - exfalso. exact (Hno a' b' Hr).
  - cbn [try_except_ValueError]. now rewrite (int_numeral _ _ Ha).
Qed.

Lemma parse_malformed_label (label : string) :
  malformed label -> parse_weeks_string label = Ok [].
Proof.
  unfold malformed, reads_as_single, parse_weeks_string.
  set (s := replace "周" "" label). intros [Hr Hs].
  destruct (range_branch s) as [(a & b & Hab & _)|[_ ->]].
  - exfalso. exact (Hr a b Hab).
  - cbn [bind try_except_ValueError].
    destruct (int_raises s) as [[n Hn]| ->]; [|reflexivity].
    exfalso. apply (Hs n). now apply numeral_int.
Qed.

(** A course without weeks leaves the file and the count of identifiers
    as they are. *)
Lemma write_events_skip (is_holiday : Z -> bool) (uid : nat -> string)
    (utc_now : string) (initial_time : Z) (a_trigger : string)
    (before after : list Json.t) (course : Json.t) :
  Json.weeks_array course = [] ->
  forall f n,
  write_events is_holiday uid utc_now initial_time a_trigger
    (before ++ course :: after)%list f n
  = write_events is_holiday uid utc_now initial_time a_trigger
      (before ++ after)%list f n.
Proof.
  intros Hw. induction before as [|c before IH]; intros f n; cbn [app write_events].
  - now rewrite Hw.
  - destruct (Json.weeks_array c); [apply IH|].
    destruct (event_block _ _ _ _ _ _ _) as [[text n']|e]; [apply IH|reflexivity].
Qed.

(** C8.  A label "a-b周" gives the weeks a..b (both included), a label
    "a周" gives the single week a, and a malformed label gives no week;
    a session without weeks gets no event block: the calendar written
    is the one written without that session.  A label is read with its
    marks 周 taken out, wherever they stand: it is a range when the
    rest is two numerals around its only dash, a single week when
    the rest is one numeral, and malformed otherwise; the numerals are
    those of [numeral]. *)
Theorem week_labels_and_empty_sessions :
  (forall a b, 0 <= a -> 0 <= b ->
     parse_weeks_string (str a ++ "-" ++ str b ++ "周") = Ok (range a (b + 1))
     /\ (forall w, In w (range a (b + 1)) <-> a <= w <= b))
  /\ (forall a, parse_weeks_string (str a ++ "周") = Ok [a])
  /\ (forall label, malformed label -> parse_weeks_string label = Ok [])
  /\ (forall label a b,
        reads_as_range (replace "周" "" label) a b ->
        parse_weeks_string label = Ok (range a (b + 1)))
  /\ (forall label a,
        reads_as_single (replace "周" "" label) a ->
        (forall a' b', ~ reads_as_range (replace "周" "" label) a' b') ->
        parse_weeks_string label = Ok [a])
  /\ (forall is_holiday uid utc_now initial_time a_trigger before after course f n,
        Json.weeks_array course = [] ->
        write_events is_holiday uid utc_now initial_time a_trigger
          (before ++ course :: after)%list f n
        = write_events is_holiday uid utc_now initial_time a_trigger
            (before ++ after)%list f n).
Proof.
  split; [|split; [|split; [|split; [|split]]]].
  - intros a b Ha Hb. split; [now apply parse_range_label|].
    intros w. rewrite in_range. lia.
  - apply parse_single_label.
  - apply parse_malformed_label.
  - apply parse_reads_range.
  - apply parse_reads_single.
  - intros. now apply write_events_skip.
Qed.

(** ** Merging *)

Lemma list_eqb_eq (l1 l2 : list Z) : list_eqb Z.eqb l1 l2 = true <-> l1 = l2.
Proof.
  revert l2. induction l1 as [|x l1 IH]; intros [|y l2]; cbn [list_eqb];
    try (split; [discriminate|congruence]); [tauto|].
  rewrite andb_true_iff, Z.eqb_eq, IH. split; [intros [-> ->]|intros [= -> ->]]; auto.
Qed.

Lemma same_slot_eq (a b : Course.t) : same_slot a b = true <-> slot a = slot b.
Proof.
  unfold same_slot, slot.
  rewrite !andb_true_iff, Z.eqb_eq, !list_eqb_eq.
  split; [intros [[-> ->] ->]; reflexivity|intros [= -> -> ->]; auto].
Qed.

Lemma same_slot_slots (a a' b b' : Course.t) :
  slot a = slot a' -> slot b = slot b' -> same_slot a b = same_slot a' b'.
Proof.
  intros Ha Hb. destruct (same_slot a b) eqn:E; symmetry.
  - apply same_slot_eq. apply same_slot_eq in E. congruence.
  - destruct (same_slot a' b') eqn:E'; [|reflexivity].
    apply same_slot_eq in E'. rewrite <- E. symmetry.
    apply same_slot_eq. congruence.
Qed.

Lemma same_slot_refl (a : Course.t) : same_slot a a = true.
Proof. now apply same_slot_eq. Qed.

Lemma add_position_nil (c : Course.t) : add_position "" c = c.
Proof. destruct c. unfold add_position. cbn. now rewrite append_nil_r. Qed.

Lemma add_position_twice (x y : string) (c : Course.t) :
  add_position y (add_position x c) = add_position (x ++ y) c.
Proof. unfold add_position. cbn. now rewrite append_assoc. Qed.

Lemma find_existing_none (infos : list Course.t) (r : Course.t) :
  find_existing infos r = None <-> existsb (fun s => same_slot s r) infos = false.
Proof.
  induction infos as [|c infos IH]; cbn [find_existing existsb]; [tauto|].
  destruct (same_slot c r); cbn [orb]; [split; discriminate|].
  rewrite <- IH. destruct (find_existing infos r); cbn; split; congruence.
Qed.

Lemma find_existing_some (infos : list Course.t) (r : Course.t) (i : nat) :
  find_existing infos r = Some i ->
  existsb (fun s => same_slot s r) infos = true.
Proof.
  intros H. destruct (existsb _ infos) eqn:E; [reflexivity|].
  apply find_existing_none in E. congruence.
Qed.

Lemma concat_nil_cons (x : string) (xs : list string) :
  String.concat "" (x :: xs) = x ++ String.concat "" xs.
Proof.
  destruct xs as [|y ys]; cbn [String.concat]; [now rewrite append_nil_r|reflexivity].
Qed.

Lemma join_cons (sep x : string) (l : list string) :
  join sep (x :: l) = x ++ String.concat "" (List.map (fun y => sep ++ y) l).
Proof.
  unfold join. revert x. induction l as [|y l IH]; intros x.
  - cbn. now rewrite append_nil_r.
  - cbn [List.map]. rewrite concat_nil_cons.
    change (String.concat sep (x :: y :: l))
      with (x ++ sep ++ String.concat sep (y :: l)).
    now rewrite (IH y), append_assoc.
Qed.

Lemma existsb_none_filter (seen : list Course.t) (r : Course.t) :
  existsb (fun s => same_slot s r) seen = false ->
  forall c, In c seen -> same_slot c r = false.
Proof.
  intros H c Hc. destruct (same_slot c r) eqn:E; [|reflexivity].
  rewrite <- H. symmetry. apply existsb_exists. now exists c.
Qed.

(** A session of another slot adds nothing to an entry. *)
Lemma extend_other (r : Course.t) (rest : list Course.t) (c : Course.t) :
  same_slot c r = false -> extend (r :: rest) c = extend rest c.
Proof. intros H. unfold extend. cbn [filter]. now rewrite H. Qed.

(** A session of the slot adds its position first. *)
Lemma extend_same (r : Course.t) (rest : list Course.t) (c : Course.t) :
  same_slot c r = true ->
  extend (r :: rest) c = extend rest (add_position ("  " ++ Course.position r) c).
Proof.
  intros H. unfold extend. cbn [filter]. rewrite H.
  cbn [List.map]. rewrite concat_nil_cons, add_position_twice.
  set (x := "  " ++ Course.position r).
  assert (Hf : filter (same_slot (add_position x c)) rest
               = filter (same_slot c) rest)
    by (apply filter_ext; intros; now apply same_slot_slots).
  now rewrite Hf.
Qed.

Lemma update_existing (r : Course.t) (rest infos : list Course.t) (i : nat) :
  find_existing infos r = Some i ->
  NoDup (List.map slot infos) ->
  let infos' := update_at i (add_position ("  " ++ Course.position r)) infos in
  List.map slot infos' = List.map slot infos
  /\ List.map (extend rest) infos' = List.map (extend (r :: rest)) infos.
Proof.
  revert i. induction infos as [|c infos IH]; intros i Hf Hnd; [discriminate|].
  cbn [find_existing] in Hf. cbn [List.map] in Hnd.
  apply NoDup_cons_iff in Hnd. destruct Hnd as [Hc Hnd].
  destruct (same_slot c r) eqn:E.
  - injection Hf as <-. cbn [update_at List.map]. split; [reflexivity|].
    rewrite (extend_same _ _ _ E). f_equal.
    apply map_ext_in. intros x Hx. symmetry. apply extend_other.
    destruct (same_slot x r) eqn:Ex; [|reflexivity].
    exfalso. apply Hc. apply same_slot_eq in E, Ex.
    rewrite E, <- Ex. now apply in_map.
  - destruct (find_existing infos r) as [j|] eqn:Ej; [|discriminate].
    injection Hf as <-. cbn [update_at List.map].
    destruct (IH j eq_refl Hnd) as [H1 H2]. cbv zeta in H1, H2.
    rewrite H1, H2, (extend_other _ _ _ E). split; reflexivity.
Qed.

Lemma existsb_slots (seen seen' : list Course.t) (r : Course.t) :
  List.map slot seen = List.map slot seen' ->
  existsb (fun s => same_slot s r) seen = existsb (fun s => same_slot s r) seen'.
Proof.
  revert seen'. induction seen as [|c seen IH]; intros [|c' seen'] H;
    try discriminate H; [reflexivity|].
  cbn [List.map] in H.
  pose proof (f_equal (hd (slot c)) H) as Hc.
  pose proof (f_equal (@tl _) H) as Ht. cbn [hd tl] in Hc, Ht.
  cbn [existsb].
  now rewrite (IH _ Ht), (same_slot_slots c c' r r Hc eq_refl).
Qed.

Lemma opened_slots (raws seen seen' : list Course.t) :
  List.map slot seen = List.map slot seen' -> opened seen raws = opened seen' raws.
Proof.
  revert seen seen'. induction raws as [|r rest IH]; intros seen seen' H;
    [reflexivity|].
  cbn [opened]. rewrite (existsb_slots _ _ r H).
  destruct (existsb _ seen'); [now apply IH|].
  f_equal. apply IH. now rewrite !map_app, H.
Qed.

Lemma NoDup_snoc {A : Type} (l : list A) (x : A) :
  NoDup l -> ~ In x l -> NoDup (l ++ [x])%list.
Proof.
  induction 1 as [|y l Hy Hnd IH]; intros Hx; cbn [app].
  - constructor; [intros []|constructor].
  - constructor.
    + intros Hin. apply in_app_or in Hin. destruct Hin as [Hin|[->|[]]].
      * now apply Hy.
      * apply Hx. now left.
    + apply IH. intros Hin. apply Hx. now right.
Qed.

(** The loop of the merger, from any list of entries of distinct slots. *)
Lemma merge_loop (raws infos : list Course.t) :
  NoDup (List.map slot infos) ->
  fold_left merge_course raws infos
  = (List.map (extend raws) infos ++ opened infos raws)%list.
Proof.
  revert infos. induction raws as [|r rest IH]; intros infos Hnd.
  - cbn [fold_left opened]. rewrite app_nil_r.
    rewrite (map_ext _ (fun c => c)), map_id; [reflexivity|].
    intros c. apply add_position_nil.
  - cbn [fold_left opened]. unfold merge_course.
    destruct (find_existing infos r) as [i|] eqn:E.
    + destruct (update_existing r rest infos i E Hnd) as [H1 H2]. cbv zeta in H1, H2.
      rewrite IH by now rewrite H1.
      rewrite H2, (opened_slots rest _ infos H1), (find_existing_some _ _ _ E).
      reflexivity.
    + apply find_existing_none in E. rewrite E.
      rewrite IH.
      * rewrite map_app, <- app_assoc. cbn [List.map app]. f_equal.
        apply map_ext_in. intros c Hc. symmetry. apply extend_other.
        now apply (existsb_none_filter infos r E).
      * rewrite map_app. cbn [List.map]. apply NoDup_snoc; [exact Hnd|].
        intros Hin. apply in_map_iff in Hin. destruct Hin as (c & Hc & Hin).
        pose proof (existsb_none_filter infos r E c Hin) as Hn.
        apply same_slot_eq in Hc. congruence.
Qed.

(** An entry extended by what follows it is the entry of the
    specification, when nothing before it is of its slot. *)
Lemma extend_merged_entry (before rest : list Course.t) (r : Course.t) :
  (forall x, In x before -> same_slot r x = false) ->
  extend rest r = merged_entry (before ++ r :: rest) r.
Proof.
  intros Hb. unfold extend, merged_entry, add_position.
  rewrite filter_app.
  assert (Hnil : filter (same_slot r) before = []).
  { clear -Hb. induction before as [|x before IH]; [reflexivity|].
    cbn [filter]. rewrite (Hb x (or_introl eq_refl)).
    apply IH. intros y Hy. apply Hb. now right. }
  rewrite Hnil. cbn [app filter]. rewrite same_slot_refl.
  cbn [List.map]. rewrite join_cons, map_map. reflexivity.
Qed.

Lemma opened_spec (raws before seen : list Course.t) :
  (forall x, In x before -> existsb (fun s => same_slot s x) seen = true) ->
  opened seen raws
  = List.map (merged_entry (before ++ raws)) (first_seen_from seen raws).
Proof.
  revert before seen. induction raws as [|r rest IH]; intros before seen Hcov;
    [reflexivity|].
  cbn [opened first_seen_from].
  replace (before ++ r :: rest)%list with ((before ++ [r]) ++ rest)%list
    by (rewrite <- app_assoc; reflexivity).
  destruct (existsb (fun s => same_slot s r) seen) eqn:E.
  - apply IH. intros x Hx. apply in_app_or in Hx.
    destruct Hx as [Hx|[<-|[]]]; [now apply Hcov|exact E].
  - cbn [List.map]. f_equal.
    + rewrite <- app_assoc. cbn [app]. apply extend_merged_entry.
      intros x Hx. destruct (same_slot r x) eqn:Ex; [|reflexivity].
      exfalso. specialize (Hcov x Hx). apply existsb_exists in Hcov.
      destruct Hcov as (s0 & Hs0 & Hsx).
      pose proof (existsb_none_filter seen r E s0 Hs0) as Hn.
      apply same_slot_eq in Ex, Hsx.
      assert (same_slot s0 r = true) by (apply same_slot_eq; congruence).
      congruence.
    + apply IH. intros x Hx. rewrite existsb_app. apply orb_true_iff.
      apply in_app_or in Hx. destruct Hx as [Hx|[<-|[]]].
      * left. now apply Hcov.
      * right. cbn [existsb]. now rewrite same_slot_refl.
Qed.

(** The merger computes the entries of the specification. *)
Lemma merge_sessions_spec (raws : list Course.t) :
  merge_sessions raws = merge_spec raws.
Proof.
  unfold merge_sessions, merge_spec, first_seen.
  rewrite merge_loop by constructor. cbn [List.map app].
  apply (opened_spec raws [] []). intros x [].
Qed.

Lemma first_seen_from_fresh (raws seen : list Course.t) :
  NoDup (List.map slot (first_seen_from seen raws))
  /\ forall c, In c (first_seen_from seen raws) ->
       existsb (fun s => same_slot s c) seen = false.
Proof.
  revert seen. induction raws as [|r rest IH]; intros seen; cbn [first_seen_from].
  - split; [constructor|intros c []].
  - destruct (existsb (fun s => same_slot s r) seen) eqn:E; [apply IH|].
    destruct (IH (seen ++ [r])%list) as [Hnd Hfresh].
    assert (Hsplit : forall c, In c (first_seen_from (seen ++ [r]) rest) ->
              existsb (fun s => same_slot s c) seen = false
              /\ same_slot r c = false).
    { intros c Hc. specialize (Hfresh c Hc). rewrite existsb_app in Hfresh.
      apply orb_false_iff in Hfresh. destruct Hfresh as [H1 H2].
      cbn [existsb] in H2. rewrite orb_false_r in H2. now split. }
    split.
    + cbn [List.map]. constructor; [|exact Hnd].
      intros Hin. apply in_map_iff in Hin. destruct Hin as (c & Hc & Hin).
      destruct (Hsplit c Hin) as [_ Hn].
      assert (same_slot r c = true) by (apply same_slot_eq; congruence).
      congruence.
    + intros c [<-|Hc]; [exact E|]. now apply Hsplit.
Qed.

Lemma first_seen_from_covers (raws seen : list Course.t) (r : Course.t) :
  In r raws ->
  existsb (fun s => same_slot s r) (seen ++ first_seen_from seen raws) = true.
Proof.
  revert seen. induction raws as [|r0 rest IH]; intros seen Hin; [destruct Hin|].
  cbn [first_seen_from].
  destruct (existsb (fun s => same_slot s r0) seen) eqn:E.
  - destruct Hin as [<-|Hin]; [|now apply IH].
    rewrite existsb_app, E. reflexivity.
  - replace (seen ++ r0 :: first_seen_from (seen ++ [r0]) rest)%list
      with ((seen ++ [r0]) ++ first_seen_from (seen ++ [r0]) rest)%list
      by (rewrite <- app_assoc; reflexivity).
    destruct Hin as [<-|Hin]; [|now apply IH].
    rewrite !existsb_app. cbn [existsb]. rewrite same_slot_refl.
    now rewrite orb_true_r.
Qed.

Lemma slot_merged_entry (raws : list Course.t) (c : Course.t) :
  slot (merged_entry raws c) = slot c.
Proof. reflexivity. Qed.

(** The loop of [parse_course_info], when every block is extracted. *)
Lemma parse_loop_merge (cells : list Cell.t) (raws infos : list Course.t) :
  map_m course_info_of cells = Ok raws ->
  for_each
    (fun course_infos course_element =>
       course_info <- course_info_of course_element ;;
       Ok (merge_course course_infos course_info))
    cells infos
  = Ok (fold_left merge_course raws infos).
Proof.
  revert raws infos. induction cells as [|cell cells IH]; intros raws infos H.
  - injection H as <-. reflexivity.
  - cbn [map_m] in H. cbn [for_each].
    destruct (course_info_of cell) as [r|e]; [|discriminate]. cbn [bind] in *.
    destruct (map_m course_info_of cells) as [rs|e]; [|discriminate].
    cbn [bind] in H. injection H as <-. cbn [fold_left]. now apply IH.
Qed.

(** C7.  The raw sessions are processed in the order met.  The entries
    computed are one per slot (weekday, section range, week-set), in
    the order in which the slots were first seen; each is the session
    that opened the slot, with the positions of all sessions of the
    slot joined by two spaces in the order met.  So two raw sessions
    end in the same entry exactly when their slots are equal. *)
Theorem sessions_merged_by_slot (cells : list Cell.t) (raws : list Course.t) :
  map_m course_info_of cells = Ok raws ->
  parse_course_info cells = Ok (merge_sessions raws)
  /\ merge_sessions raws
     = List.map
         (fun first =>
            Course.make (Course.name first) (Course.teacher first)
              (Course.weeks first)
              (join "  "
                 (List.map Course.position
                    (filter (fun r => same_slot first r) raws)))
              (Course.sections first) (Course.day first))
         (first_seen raws)
  /\ NoDup (List.map slot (merge_sessions raws))
  /\ (forall r, In r raws ->
        exists c, In c (merge_sessions raws) /\ slot c = slot r)
  /\ (forall a b, same_slot a b = true <->
        Course.day a = Course.day b
        /\ Course.sections a = Course.sections b
        /\ Course.weeks a = Course.weeks b).
Proof.
  intros H. split; [|split; [|split; [|split]]].
  - unfold parse_course_info, merge_sessions. now apply parse_loop_merge.
  - apply merge_sessions_spec.
  - rewrite merge_sessions_spec. unfold merge_spec. rewrite map_map.
    rewrite (map_ext _ slot) by (intros; apply slot_merged_entry).
    apply (first_seen_from_fresh raws []).
  - intros r Hr. rewrite merge_sessions_spec. unfold merge_spec, first_seen.
    pose proof (first_seen_from_covers raws [] r Hr) as Hc. cbn [app] in Hc.
    apply existsb_exists in Hc. destruct Hc as (c & Hc & Hs).
    exists (merged_entry raws c). split; [now apply in_map|].
    rewrite slot_merged_entry. now apply same_slot_eq.
  - intros a b. rewrite same_slot_eq. unfold slot.
    split; [intros [= -> -> ->]; auto|intros (-> & -> & ->); reflexivity].
Qed.

Lemma sessions_merged_by_slot_witness :
  map_m course_info_of sample_cells = Ok sample_raws
  /\ parse_course_info sample_cells = Ok (merge_sessions sample_raws).
Proof.
  split; [reflexivity|].
  apply (sessions_merged_by_slot sample_cells sample_raws). reflexivity.
Defined.

Lemma exclusion_set_monotone_witness :
  valid_ordinal anchor_20230904 = true
  /\ Json.weeks_array wednesday_late_course <> []
  /\ Json.weeks_array wednesday_even_course <> []
  /\ min_week (Json.weeks_array wednesday_even_course)
     <= min_week (Json.weeks_array wednesday_late_course)
  /\ max_week (Json.weeks_array wednesday_late_course)
     <= max_week (Json.weeks_array wednesday_even_course)
  /\ exclusion_set sample_holiday anchor_20230904 wednesday_late_course
     = Ok ["20230927T100000"]
  /\ exists l',
       exclusion_set sample_holiday anchor_20230904 wednesday_even_course = Ok l'
       /\ In "20230927T100000" l'.
Proof.
  split; [reflexivity|]. split; [discriminate|]. split; [discriminate|].
  split; [vm_compute; discriminate|]. split; [vm_compute; discriminate|].
  split; [reflexivity|].
  apply (exclusion_set_monotone sample_holiday anchor_20230904
           wednesday_late_course wednesday_even_course)
    with (l := ["20230927T100000"]);
    try reflexivity; try discriminate; try (vm_compute; discriminate).
  now left.
Defined.

Lemma week_labels_and_empty_sessions_witness :
  (0 <= 2 /\ 0 <= 4
   /\ parse_weeks_string (str 2 ++ "-" ++ str 4 ++ "周") = Ok (range 2 (4 + 1)))
  /\ (malformed "x周" /\ parse_weeks_string "x周" = Ok [])
  /\ (reads_as_single (replace "周" "" "３周") 3
      /\ (forall a b, ~ reads_as_range (replace "周" "" "３周") a b)
      /\ parse_weeks_string "３周" = Ok [3])
  /\ (Json.weeks_array unscheduled_course = []
      /\ write_events sample_holiday sample_uid sample_now anchor_20230904 ""
           ([wednesday_even_course] ++ unscheduled_course :: [])%list
           ical_begin_base O
         = write_events sample_holiday sample_uid sample_now anchor_20230904 ""
             ([wednesday_even_course] ++ [])%list ical_begin_base O).
Proof.
  destruct week_labels_and_empty_sessions as (Hrange & _ & Hbad & _ & Hone & Hskip).
  assert (Hm : malformed "x周").
  { split.
    - intros a b (sa & sb & Hs & _).
      destruct sa as [|c0 [|c1 sa]]; discriminate Hs.
    - intros a Ha. apply int_numeral in Ha. discriminate Ha. }
  assert (Hs : reads_as_single (replace "周" "" "３周") 3).
  { exists [], [65299], []. split; [reflexivity|].
    split; [constructor|]. split; [constructor|].
    apply signed_none. now apply (digits_one 65299 3). }
  assert (Hn : forall a b, ~ reads_as_range (replace "周" "" "３周") a b).
  { intros a b (sa & sb & Hs' & _).
    destruct sa as [|c0 [|c1 [|c2 [|c3 sa]]]]; discriminate Hs'. }
  split; [|split; [|split]].
  - split; [lia|]. split; [lia|]. apply (Hrange 2 4); lia.
  - split; [exact Hm|]. apply (Hbad "x周" Hm).
  - split; [exact Hs|]. split; [exact Hn|]. apply (Hone "３周" 3 Hs Hn).
  - split; [reflexivity|].
    apply (Hskip sample_holiday sample_uid sample_now anchor_20230904 ""
             [wednesday_even_course] [] unscheduled_course ical_begin_base O).
    reflexivity.
Defined.

(** ** Event blocks and the file *)

Ltac bind_inv H :=
  repeat match type of H with
         | bind ?c _ = Ok _ =>
             let E := fresh "E" in
             destruct c eqn:E; cbn [bind] in H; [|discriminate H]
         end.

Lemma unlines_app (l1 l2 : list string) :
  unlines (l1 ++ l2)%list = unlines l1 ++ unlines l2.
Proof.
  unfold unlines. induction l1 as [|x l1 IH]; [reflexivity|].
  cbn [app List.map]. rewrite !concat_nil_cons, IH.
  now rewrite <- !append_assoc.
Qed.

Lemma last_char_app (s t : string) :
  t <> EmptyString -> last_char (s ++ t) = last_char t.
Proof.
  intros Ht. induction s as [|c s IH]; [reflexivity|].
  cbn [append last_char]. rewrite IH.
  destruct (s ++ t) eqn:E; [|reflexivity].
  destruct s; [cbn in E; congruence|discriminate E].
Qed.

Lemma replace_no_line_feed (s : string) :
  contains LF (replace LF "-" s) = false.
Proof.
  unfold replace, LF. induction s as [|c s IH]; [reflexivity|].
  cbn [replace_from prefix String.length Nat.sub].
  destruct (ascii_dec "010" c) as [E|E].
  - replace (prefix "" s) with true by (now destruct s).
    cbn [append contains prefix].
    destruct (ascii_dec "010" "-"); [discriminate|exact IH].
  - cbn [contains prefix]. destruct (ascii_dec "010" c); [contradiction|exact IH].
Qed.

Section Blocks.

Variable is_holiday : Z -> bool.
Variable uid : nat -> string.
Variable utc_now : string.

Lemma event_block_shape (initial_time : Z) (a_trigger : string)
    (course : Json.t) (n : nat) (text : string) (n' : nat) :
  event_block is_holiday uid utc_now initial_time a_trigger course n
  = Ok (text, n') ->
  exists middle,
    text = vevent_head utc_now course ++ middle ++ unlines ["END:VEVENT"].
Proof.
  intros H. unfold event_block in H. 
  bind_inv H.
  destruct (alarm_base uid a_trigger n) as [alarm n1].
  pose proof (f_equal (fun r => match r with
                                | Ok p => fst p
                                | Raise _ => text
                                end) H) as Ht.
  cbv beta iota in Ht. 
  unfold fst in Ht.
  rewrite <- Ht. clear H Ht.
  match goal with
  | |- context [unlines (?a :: ?b :: ?c :: ?d :: ?e :: ?f :: ?rest)] =>
      change (unlines (a :: b :: c :: d :: e :: f :: rest))
        with (unlines (app [a; b; c; d; e; f] rest))
  end.
  rewrite unlines_app.
  unfold vevent_head.
  match goal with
  | |- exists m, (?h ++ ?r1) ++ ?x ++ ?u ++ ?al ++ ?e = _ =>
      exists (r1 ++ x ++ u ++ al);
      generalize h, r1, x, u, al, e
  end.
  intros h r1 x u al e. now rewrite !append_assoc.
Qed.

Lemma append_not_nil (s t : string) : t <> EmptyString -> s ++ t <> EmptyString.
Proof. intros Ht. destruct s; [exact Ht|discriminate]. Qed.

Lemma event_block_last (initial_time : Z) (a_trigger : string)
    (course : Json.t) (n : nat) (text : string) (n' : nat) (f : string) :
  event_block is_holiday uid utc_now initial_time a_trigger course n
  = Ok (text, n') ->
  last_char (f ++ text) = Some "010"%char.
Proof.
  intros H. apply event_block_shape in H. destruct H as [middle ->].
  assert (He : unlines ["END:VEVENT"] <> EmptyString) by discriminate.
  rewrite (last_char_app f) by (do 2 apply append_not_nil; exact He).
  rewrite (last_char_app (vevent_head utc_now course))
    by (apply append_not_nil; exact He).
  rewrite (last_char_app middle) by exact He.
  reflexivity.
Qed.

(** The loop adds to the file, and leaves it ended by a line feed. *)
Lemma write_events_extends (initial_time : Z) (a_trigger : string)
    (courses : list Json.t) :
  forall f0 n f e,
  write_events is_holiday uid utc_now initial_time a_trigger courses f0 n = (f, e) ->
  (exists blocks, f = f0 ++ blocks)
  /\ (last_char f0 = Some "010"%char -> last_char f = Some "010"%char).
Proof.
  induction courses as [|c courses IH]; intros f0 n f e H; cbn [write_events] in H.
  - injection H as <- <-. split; [exists ""; now rewrite append_nil_r|auto].
  - destruct (Json.weeks_array c); [now apply (IH _ _ _ _ H)|].
    destruct (event_block _ _ _ _ _ _ _) as [[text n']|x] eqn:E.
    + destruct (IH _ _ _ _ H) as [[blocks ->] Hlast]. split.
      * exists (text ++ blocks). now rewrite append_assoc.
      * intros _. apply Hlast. now apply (event_block_last _ _ _ _ _ _ _ E).
    + injection H as <- <-. split; [exists ""; now rewrite append_nil_r|auto].
Qed.

(** The courses after a part of the list that was written without an
    exception are processed from the file that part left. *)
Lemma write_events_prefix (initial_time : Z) (a_trigger : string)
    (before : list Json.t) :
  forall f0 n0 f,
  write_events is_holiday uid utc_now initial_time a_trigger before f0 n0 = (f, None) ->
  exists n1, forall rest,
    write_events is_holiday uid utc_now initial_time a_trigger
      (before ++ rest)%list f0 n0
    = write_events is_holiday uid utc_now initial_time a_trigger rest f n1.
Proof.
  induction before as [|c before IH]; intros f0 n0 f H; cbn [write_events app] in *.
  - injection H as <-. now exists n0.
  - destruct (Json.weeks_array c); [now apply IH|].
    destruct (event_block _ _ _ _ _ _ _) as [[text n']|x]; [now apply IH|discriminate].
Qed.

(** A session with a period outside the timetable stops the loop. *)
Lemma event_block_missing_period (initial_time : Z) (a_trigger : string)
    (course : Json.t) (n : nat) :
  has_missing_period course ->
  exists e,
    event_block is_holiday uid utc_now initial_time a_trigger course n = Raise e.
Proof.
  intros (m & Hm & Hk). unfold period_missing in Hk. unfold event_block.
  repeat match goal with
         | |- exists e, bind ?c _ = Raise e =>
             let E := fresh "E" in
             destruct c eqn:E; cbn [bind]; [|eexists; reflexivity]
         end.
  exfalso. destruct Hm as [Hm|Hm]; congruence.
Qed.

(** C4, as the code has it.  When a session with weeks has a period
    without an entry in the timetable, the loop stops at that session:
    the call returns [None], the sessions after it are not processed,
    and the file is left with the header and the blocks of the
    sessions before it, without the footer. *)
Theorem period_lookup_failure_truncates (strptime_Ymd : string -> result Z)
    (before after : list Json.t) (course : Json.t)
    (first_week_date : string) (alarm_minutes initial_time : Z) (f : string) :
  strptime_Ymd first_week_date = Ok initial_time ->
  write_events is_holiday uid utc_now initial_time
    (if 0 <? alarm_minutes then "-PT" ++ str alarm_minutes ++ "M" else "")
    before ical_begin_base O = (f, None) ->
  Json.weeks_array course <> [] ->
  has_missing_period course ->
  let out :=
    generate_ics_from_json is_holiday uid utc_now strptime_Ymd
      (before ++ course :: after)%list first_week_date alarm_minutes in
  returned out = None
  /\ written out = Some ("课表-" ++ utc_now ++ ".ics", f)
  /\ (exists blocks, f = ical_begin_base ++ blocks)
  /\ (forall g, f <> g ++ ical_end).
Proof.
  intros Hdate Hbefore Hweeks Hmiss.
  destruct (write_events_extends _ _ _ _ _ _ _ Hbefore) as [Hext Hlast].
  specialize (Hlast eq_refl).
  destruct (write_events_prefix _ _ _ _ _ _ Hbefore) as [n1 Hrest].
  destruct (event_block_missing_period initial_time
              (if 0 <? alarm_minutes then "-PT" ++ str alarm_minutes ++ "M" else "")
              course n1 Hmiss) as [e He].
  assert (Hout : generate_ics_from_json is_holiday uid utc_now strptime_Ymd
                   (before ++ course :: after)%list first_week_date alarm_minutes
                 = {| returned := None;
                      written := Some ("课表-" ++ utc_now ++ ".ics", f) |}).
  { unfold generate_ics_from_json.
    destruct (before ++ course :: after)%list as [|c0 l0] eqn:El;
      [now destruct before|].
    rewrite Hdate, <- El, Hrest. cbn [write_events].
    destruct (Json.weeks_array course); [congruence|].
    now rewrite He. }
  cbv zeta. rewrite Hout. cbn [returned written].
  repeat split; [exact Hext|].
  intros g Hg. rewrite Hg in Hlast.
  rewrite last_char_app in Hlast by discriminate. discriminate Hlast.
Qed.

(** C5, as the code has it.  The record exported for a session has the
    line feeds of its position replaced by dashes, so it is one line;
    the event block written from that record carries this position, as
    it is in the record, in its LOCATION line. *)
Theorem location_from_export (initial_time : Z) (a_trigger : string)
    (course : Course.t) (record : Json.t) (n : nat) (text : string) (n' : nat) :
  format_course course = Ok record ->
  event_block is_holiday uid utc_now initial_time a_trigger record n
  = Ok (text, n') ->
  Json.position record = replace LF "-" (Course.position course)
  /\ contains LF (Json.position record) = false
  /\ exists rest,
       text =
         unlines
           [ "BEGIN:VEVENT";
             "CREATED:" ++ utc_now;
             "DTSTAMP:" ++ utc_now;
             "SUMMARY:" ++ Course.name course;
             "DESCRIPTION:教师：" ++ Course.teacher course;
             "LOCATION:" ++ replace LF "-" (Course.position course) ]
         ++ rest.
Proof.
  intros Hrec Hblock. unfold format_course in Hrec. bind_inv Hrec.
  injection Hrec as <-. cbn [Json.position].
  split; [reflexivity|]. split; [apply replace_no_line_feed|].
  apply event_block_shape in Hblock. destruct Hblock as [middle ->].
  eexists. unfold vevent_head. cbn [Json.name Json.teacher Json.position].
  reflexivity.
Qed.

End Blocks.

Lemma period_lookup_failure_truncates_witness :
  sample_strptime "20230904" = Ok anchor_20230904
  /\ Json.weeks_array last_row_course <> []
  /\ has_missing_period last_row_course
  /\ exists f,
       write_events sample_holiday sample_uid sample_now anchor_20230904 ""
         [wednesday_even_course] ical_begin_base O = (f, None)
       /\ written
            (generate_ics_from_json sample_holiday sample_uid sample_now
               sample_strptime
               ([wednesday_even_course] ++ last_row_course :: [unscheduled_course])%list
               "20230904" 0)
          = Some ("课表-" ++ sample_now ++ ".ics", f).
Proof.
  assert (Hm : has_missing_period last_row_course).
  { exists 11. split; [right; reflexivity|reflexivity]. }
  split; [reflexivity|]. split; [discriminate|]. split; [exact Hm|].
  destruct (write_events sample_holiday sample_uid sample_now anchor_20230904 ""
              [wednesday_even_course] ical_begin_base O) as [f e] eqn:E.
  assert (He : e = None) by (vm_compute in E; congruence). subst e.
  exists f. split; [reflexivity|].
  apply (period_lookup_failure_truncates sample_holiday sample_uid sample_now
           sample_strptime [wednesday_even_course] [unscheduled_course]
           last_row_course "20230904" 0 anchor_20230904 f);
    [reflexivity|exact E|discriminate|exact Hm].
Defined.

(** C4, as stated, fails: a session in the last row of the grid
    (periods 10 and 11) leaves a file with the header alone, and the
    session after it is not written. *)
Lemma period_lookup_leaves_partial_file :
  ~ (written
       (generate_ics_from_json sample_holiday sample_uid sample_now
          sample_strptime [last_row_course; wednesday_even_course] "20230904" 0)
     = None
     \/ exists name document,
          written
            (generate_ics_from_json sample_holiday sample_uid sample_now
               sample_strptime [last_row_course; wednesday_even_course]
               "20230904" 0)
          = Some (name, document ++ ical_end)).
Proof.
  intros [H|(name & document & H)]; vm_compute in H; [discriminate H|].
  injection H as _ H.
  apply (f_equal last_char) in H. rewrite last_char_app in H by discriminate.
  vm_compute in H. discriminate H.
Qed.

Lemma location_from_export_witness :
  format_course sample_merged = Ok sample_record
  /\ (exists text n',
        event_block sample_holiday sample_uid sample_now anchor_20230904 ""
          sample_record O = Ok (text, n'))
  /\ Json.position sample_record = replace LF "-" (Course.position sample_merged).
Proof.
  split; [reflexivity|].
  destruct (event_block sample_holiday sample_uid sample_now anchor_20230904 ""
              sample_record O) as [[text n']|e] eqn:E;
    [|vm_compute in E; discriminate E].
  split; [now exists text, n'|].
  apply (location_from_export sample_holiday sample_uid sample_now
           anchor_20230904 "" sample_merged sample_record O text n');
    [reflexivity|exact E].
Defined.

(** The entry is the one the merger computes from the sample blocks. *)
Lemma sample_merged_is_merged :
  parse_course_info sample_cells
  = Ok [sample_merged; Course.make "PE" "Li" [] ("B" ++ LF ++ "202") [1; 2] 1].
Proof. reflexivity. Qed.

(** C5, as stated, fails: the position of the merged entry has line
    feeds, and the LOCATION line of the block written from its exported
    record does not carry that position. *)
Lemma location_not_newline_joined :
  ~ (forall record text n',
       format_course sample_merged = Ok record ->
       event_block sample_holiday sample_uid sample_now anchor_20230904 ""
         record O = Ok (text, n') ->
       contains ("LOCATION:" ++ Course.position sample_merged ++ LF) text = true).
Proof.
  intros H.
  destruct (event_block sample_holiday sample_uid sample_now anchor_20230904 ""
              sample_record O) as [[text n']|e] eqn:E;
    [|vm_compute in E; discriminate E].
  specialize (H sample_record text n' eq_refl E).
  vm_compute in E. injection E as <- _.
  vm_compute in H. discriminate H.
Qed.

(* ================================================================== *)
(** * Part V.  Further properties of the code                          *)
(* ================================================================== *)

(** ** Building names *)

(** X1.  [format_building_name] replaces the prefix "济-" by the name
    of the institution and leaves every other name as it is; applying
    it twice is the same as applying it once. *)
Theorem format_building_name_idempotent :
  (forall rest, format_building_name ("济-" ++ rest) = "山东体育学院" ++ rest)
  /\ (forall building_name,
        prefix "济-" building_name = false ->
        format_building_name building_name = building_name)
  /\ (forall building_name,
        format_building_name (format_building_name building_name)
        = format_building_name building_name).
Proof.
  assert (Hnew : forall x, prefix "济-" ("山东体育学院" ++ x) = false)
    by (intros x; reflexivity).
  split; [|split].
  - intros rest. unfold format_building_name.
    assert (Hp : prefix "济-" ("济-" ++ rest) = true)
      by (cbn; now destruct rest).
    now rewrite Hp.
  - intros b Hb. unfold format_building_name. now rewrite Hb.
  - intros b. unfold format_building_name.
    destruct (prefix "济-" b) eqn:E.
    + now rewrite Hnew.
    + now rewrite E.
Qed.

(** ** Week labels *)

Lemma range_single (n : Z) : range n (n + 1) = [n].
Proof.
  unfold range. replace (n + 1 - n) with 1 by lia.
  change (Z.to_nat 1) with 1%nat. cbn [seq List.map].
  change (Z.of_nat 0) with 0. now rewrite Z.add_0_r.
Qed.

Lemma range_length (a b : Z) : List.length (range a b) = Z.to_nat (b - a).
Proof. unfold range. now rewrite length_map, length_seq. Qed.

Lemma parse_weeks_string_ok (label : string) :
  exists a b, parse_weeks_string label = Ok (range a b).
Proof.
  unfold parse_weeks_string. set (s := replace "周" "" label).
  destruct (unpack2_int (split "-" s))
    as [(sa & sb & a & b & _ & _ & _ & ->)|[_ ->]].
  - exists a, (b + 1). reflexivity.
  - cbn [try_except_ValueError].
    destruct (int_raises s) as [[n ->]| ->]; cbn [bind try_except].
    + exists n, (n + 1). now rewrite range_single.
    + exists 0, 0. reflexivity.
Qed.

(** X2.  No exception of [int] or of the unpacking leaves
    [parse_weeks_string]: with lists of any length, it returns for
    every label, and its result is a run of consecutive integers:
    strictly ascending, without duplicates. *)
Theorem parse_weeks_string_run (label : string) :
  exists a b,
    parse_weeks_string label = Ok (range a b)
    /\ StronglySorted Z.lt (range a b)
    /\ NoDup (range a b).
Proof.
  destruct (parse_weeks_string_ok label) as (a & b & H).
  exists a, b. split; [exact H|].
  pose proof (range_sorted a b) as Hs. split; [exact Hs|].
  clear H. induction Hs as [|x l Hs IH Hx]; constructor; [|exact IH].
  intros Hin. rewrite Forall_forall in Hx. specialize (Hx x Hin). lia.
Qed.

(** X3.  A range label lists [b - a + 1] weeks, and none when its end
    is before its start: "5-3周" is read as no week at all, without an
    error. *)
Theorem parse_range_label_length (a b : Z) :
  0 <= a -> 0 <= b ->
  exists weeks,
    parse_weeks_string (str a ++ "-" ++ str b ++ "周") = Ok weeks
    /\ List.length weeks = Z.to_nat (b - a + 1)
    /\ (b < a -> weeks = []).
Proof.
  intros Ha Hb. exists (range a (b + 1)).
  split; [now apply parse_range_label|].
  split; [rewrite range_length; f_equal; lia|].
  intros Hlt. unfold range. replace (Z.to_nat (b + 1 - a)) with O by lia.
  reflexivity.
Qed.

Lemma parse_range_label_length_witness :
  0 <= 5 /\ 0 <= 3
  /\ exists weeks,
       parse_weeks_string (str 5 ++ "-" ++ str 3 ++ "周") = Ok weeks
       /\ List.length weeks = Z.to_nat (3 - 5 + 1)
       /\ (3 < 5 -> weeks = []).
Proof.
  split; [lia|]. split; [lia|].
  apply (parse_range_label_length 5 3); lia.
Defined.

(** ** Extraction and merging *)

Lemma map_m_Forall2 {A B : Type} (f : A -> result B) (xs : list A) (ys : list B) :
  map_m f xs = Ok ys -> Forall2 (fun x y => f x = Ok y) xs ys.
Proof.
  revert ys. induction xs as [|x xs IH]; intros ys H; cbn [map_m] in H.
  - injection H as <-. constructor.
  - destruct (f x) as [y|e] eqn:E; [|discriminate]. cbn [bind] in H.
    destruct (map_m f xs) as [ys'|e]; [|discriminate]. cbn [bind] in H.
    injection H as <-. constructor; [exact E|now apply IH].
Qed.

(** The loop of [parse_course_info] ends normally only when every
    block was extracted. *)
Lemma parse_loop_extracts (cells : list Cell.t) :
  forall infos courses,
  for_each
    (fun course_infos course_element =>
       course_info <- course_info_of course_element ;;
       Ok (merge_course course_infos course_info))
    cells infos = Ok courses ->
  exists raws,
    map_m course_info_of cells = Ok raws
    /\ courses = fold_left merge_course raws infos.
Proof.
  induction cells as [|cell cells IH]; intros infos courses H; cbn [for_each] in H.
  - injection H as <-. now exists [].
  - destruct (course_info_of cell) as [r|e] eqn:E; [|discriminate].
    cbn [bind] in H. destruct (IH _ _ H) as (raws & Hm & ->).
    exists (r :: raws). cbn [map_m]. rewrite E, Hm. split; reflexivity.
Qed.

Lemma parse_course_info_extracts (cells : list Cell.t) (courses : list Course.t) :
  parse_course_info cells = Ok courses ->
  exists raws,
    map_m course_info_of cells = Ok raws /\ courses = merge_sessions raws.
Proof. apply parse_loop_extracts. Qed.

Lemma first_seen_from_sub (raws seen : list Course.t) :
  incl (first_seen_from seen raws) raws
  /\ (List.length (first_seen_from seen raws) <= List.length raws)%nat.
Proof.
  revert seen. induction raws as [|r rest IH]; intros seen; cbn [first_seen_from].
  - split; [intros x []|apply Nat.le_refl].
  - destruct (existsb _ seen).
    + destruct (IH seen) as [Hi Hl]. split.
      * intros x Hx. right. now apply Hi.
      * cbn [List.length]. lia.
    + destruct (IH (seen ++ [r])%list) as [Hi Hl]. split.
      * intros x [<-|Hx]; [now left|right; now apply Hi].
      * cbn [List.length]. lia.
Qed.

Lemma course_info_of_sections (cell : Cell.t) (r : Course.t) :
  course_info_of cell = Ok r ->
  exists s, Course.sections r = [s; s + 1].
Proof.
  unfold course_info_of. intros H. bind_inv H.
  injection H as <-. cbn [Course.sections].
  match goal with
  | E : sections_to_array _ = Ok _ |- _ =>
      unfold sections_to_array in E; bind_inv E; injection E as <-
  end.
  eauto.
Qed.

Lemma parsed_sections (cells : list Cell.t) (courses : list Course.t) :
  parse_course_info cells = Ok courses ->
  Forall (fun c => exists s, Course.sections c = [s; s + 1]) courses
  /\ (List.length courses <= List.length cells)%nat.
Proof.
  intros H. destruct (parse_course_info_extracts _ _ H) as (raws & Hm & ->).
  rewrite merge_sessions_spec. unfold merge_spec, first_seen.
  destruct (first_seen_from_sub raws []) as [Hi Hl].
  apply map_m_Forall2 in Hm. split.
  - apply Forall_forall. intros c Hc. apply in_map_iff in Hc.
    destruct Hc as (r & <- & Hr). cbn [merged_entry Course.sections].
    apply Hi in Hr. clear -Hm Hr.
    induction Hm as [|cell r0 cells raws H0 _ IH]; [destruct Hr|].
    destruct Hr as [<-|Hr]; [now apply (course_info_of_sections cell)|now apply IH].
  - rewrite length_map. apply Forall2_length in Hm. lia.
Qed.

(** X4.  Every entry returned by [parse_course_info] spans two
    consecutive periods, [sections = [s, s + 1]], and there are at
    most as many entries as blocks in the page. *)
Theorem parse_course_info_sections (cells : list Cell.t) (courses : list Course.t) :
  parse_course_info cells = Ok courses ->
  Forall (fun c => exists s, Course.sections c = [s; s + 1]) courses
  /\ (List.length courses <= List.length cells)%nat.
Proof. apply parsed_sections. Qed.

Lemma parse_course_info_sections_witness :
  parse_course_info sample_cells = Ok (merge_sessions sample_raws)
  /\ Forall (fun c => exists s, Course.sections c = [s; s + 1])
       (merge_sessions sample_raws).
Proof.
  split; [reflexivity|].
  apply (parse_course_info_sections sample_cells (merge_sessions sample_raws)).
  reflexivity.
Defined.

Lemma course_info_of_cases (cell : Cell.t) :
  match int (Cell.row cell), int (Cell.col cell) with
  | Ok _, Ok _ => exists r, course_info_of cell = Ok r
  | _, _ => course_info_of cell = Raise ValueError
  end.
Proof.
  unfold course_info_of, sections_to_array.
  destruct (parse_weeks_string_ok (Cell.spWeekInfo cell)) as (a & b & ->).
  cbn [bind].
  destruct (int_raises (Cell.row cell)) as [[n ->]| ->]; cbn [bind]; [|reflexivity].
  destruct (int_raises (Cell.col cell)) as [[m ->]| ->]; cbn [bind]; [|reflexivity].
  eauto.
Qed.

(** X5.  [parse_course_info] returns a list exactly when the [row] and
    the [col] of every block read as integers; otherwise it raises
    [ValueError] and returns nothing, also for the blocks that were
    well formed.  A week label that does not parse never stops it. *)
Theorem parse_course_info_numeric (cells : list Cell.t) :
  (Forall (fun cell => (exists n, int (Cell.row cell) = Ok n)
                       /\ exists n, int (Cell.col cell) = Ok n) cells ->
   exists courses, parse_course_info cells = Ok courses)
  /\ (Exists (fun cell => int (Cell.row cell) = Raise ValueError
                          \/ int (Cell.col cell) = Raise ValueError) cells ->
      parse_course_info cells = Raise ValueError).
Proof.
  unfold parse_course_info. generalize (@nil Course.t) as infos. split.
  - intros H. revert infos. induction H as [|cell cells [[n Hn] [m Hm]] _ IH];
      intros infos; cbn [for_each]; [eauto|].
    pose proof (course_info_of_cases cell) as Hc. rewrite Hn, Hm in Hc.
    destruct Hc as [r ->]. cbn [bind]. apply IH.
  - intros H. revert infos. induction H as [cell cells H|cell cells _ IH];
      intros infos; cbn [for_each].
    + pose proof (course_info_of_cases cell) as Hc.
      destruct H as [H|H]; rewrite H in Hc.
      * now rewrite Hc.
      * destruct (int (Cell.row cell)); now rewrite Hc.
    + pose proof (course_info_of_cases cell) as Hc.
      destruct (int_raises (Cell.row cell)) as [[n Hn]|Hn]; rewrite Hn in Hc;
        [|now rewrite Hc].
      destruct (int_raises (Cell.col cell)) as [[m Hm]|Hm]; rewrite Hm in Hc;
        [|now rewrite Hc].
      destruct Hc as [r ->]. cbn [bind]. apply IH.
Qed.

Lemma parse_course_info_numeric_witness :
  (Exists (fun cell => int (Cell.row cell) = Raise ValueError
                       \/ int (Cell.col cell) = Raise ValueError)
     (sample_cells ++ [Cell.make "Art" "Wu" "1-8周" "B" "303" "" "2"])%list
   /\ parse_course_info
        (sample_cells ++ [Cell.make "Art" "Wu" "1-8周" "B" "303" "" "2"])%list
      = Raise ValueError)
  /\ (Forall (fun cell => (exists n, int (Cell.row cell) = Ok n)
                          /\ exists n, int (Cell.col cell) = Ok n)
        [Cell.make "Art" "Wu" "1-8周" "B" "303" "３" " 2"]
      /\ exists courses,
           parse_course_info [Cell.make "Art" "Wu" "1-8周" "B" "303" "３" " 2"]
           = Ok courses).
Proof.
  assert (H : Exists (fun cell => int (Cell.row cell) = Raise ValueError
                                  \/ int (Cell.col cell) = Raise ValueError)
                (sample_cells ++ [Cell.make "Art" "Wu" "1-8周" "B" "303" "" "2"])%list).
  { apply Exists_app. right. constructor. now left. }
  assert (H' : Forall (fun cell => (exists n, int (Cell.row cell) = Ok n)
                                   /\ exists n, int (Cell.col cell) = Ok n)
                 [Cell.make "Art" "Wu" "1-8周" "B" "303" "３" " 2"]).
  { constructor; [|constructor]. split; [now exists 3|now exists 2]. }
  split.
  - split; [exact H|]. apply (proj2 (parse_course_info_numeric _) H).
  - split; [exact H'|]. apply (proj1 (parse_course_info_numeric _) H').
Defined.

(** Merging a list whose slots are all different changes nothing. *)
Lemma opened_distinct (l seen : list Course.t) :
  NoDup (List.map slot (seen ++ l)) -> opened seen l = l.
Proof.
  revert seen. induction l as [|r rest IH]; intros seen Hnd; [reflexivity|].
  cbn [opened].
  assert (Hnd' : NoDup (List.map slot ((seen ++ [r]) ++ rest)))
    by (rewrite <- app_assoc; exact Hnd).
  rewrite map_app in Hnd. cbn [List.map] in Hnd.
  assert (Hseen : existsb (fun s => same_slot s r) seen = false).
  { destruct (existsb _ seen) eqn:E; [|reflexivity].
    apply existsb_exists in E. destruct E as (s0 & Hs0 & Hs).
    apply same_slot_eq in Hs.
    apply NoDup_remove_2 in Hnd. exfalso. apply Hnd.
    apply in_or_app. left. rewrite <- Hs. now apply in_map. }
  rewrite Hseen, (IH _ Hnd'). f_equal.
  unfold extend.
  assert (Hnil : filter (same_slot r) rest = []).
  { apply NoDup_app_remove_l in Hnd. apply NoDup_cons_iff in Hnd.
    destruct Hnd as [Hr _]. clear -Hr.
    induction rest as [|x rest IH]; [reflexivity|]. cbn [filter].
    destruct (same_slot r x) eqn:E.
    - exfalso. apply Hr. left. symmetry. now apply same_slot_eq.
    - apply IH. intros Hin. apply Hr. now right. }
  rewrite Hnil. apply add_position_nil.
Qed.

Lemma merge_sessions_slots_distinct (raws : list Course.t) :
  NoDup (List.map slot (merge_sessions raws)).
Proof.
  rewrite merge_sessions_spec. unfold merge_spec. rewrite map_map.
  rewrite (map_ext _ slot) by (intros; apply slot_merged_entry).
  apply (first_seen_from_fresh raws []).
Qed.

(** X6.  Merging is idempotent: the merger run on its own result
    returns it unchanged, and so does it on every list whose sessions
    differ in weekday, sections or weeks. *)
Theorem merge_sessions_idempotent (raws : list Course.t) :
  merge_sessions (merge_sessions raws) = merge_sessions raws
  /\ (NoDup (List.map slot raws) -> merge_sessions raws = raws).
Proof.
  assert (Hid : forall l, NoDup (List.map slot l) -> merge_sessions l = l).
  { intros l Hl. unfold merge_sessions.
    rewrite merge_loop by constructor. cbn [List.map app].
    now apply opened_distinct. }
  split; [|apply Hid].
  apply Hid, merge_sessions_slots_distinct.
Qed.

Lemma merge_sessions_idempotent_witness :
  NoDup (List.map slot (merge_sessions sample_raws))
  /\ merge_sessions (merge_sessions sample_raws) = merge_sessions sample_raws.
Proof.
  assert (H : NoDup (List.map slot (merge_sessions sample_raws))).
  { vm_compute. repeat constructor; cbn; intuition discriminate. }
  split; [exact H|].
  apply (proj2 (merge_sessions_idempotent (merge_sessions sample_raws)) H).
Defined.

(** ** Exports *)

Lemma index_two {A : Type} (x y : A) (l : list A) :
  index (x :: y :: l) 0 = Ok x /\ index (x :: y :: l) 1 = Ok y.
Proof.
  split; [apply index_head|].
  unfold index. cbn [List.length].
  replace (1 <? 0) with false by reflexivity.
  replace (0 <=? 1) with true by reflexivity.
  destruct (Z.ltb_spec 1 (Z.of_nat (S (S (List.length l))))); [reflexivity|lia].
Qed.

Lemma index_short {A : Type} (l : list A) :
  (List.length l < 2)%nat ->
  index l 0 = Raise IndexError \/ index l 1 = Raise IndexError.
Proof.
  destruct l as [|x [|y l]]; cbn [List.length]; intros H; [now left|now right|lia].
Qed.

Lemma day_name_ok (day : Z) :
  exists day_name,
    (if (1 <=? day) && (day <=? 7)
     then index weekday_names (day - 1)
     else Ok ("星期" ++ str day)) = Ok day_name.
Proof.
  destruct (Z.leb_spec 1 day); cbn [andb]; [|eexists; reflexivity].
  destruct (Z.leb_spec day 7); [|eexists; reflexivity].
  assert (H' : day = 1 \/ day = 2 \/ day = 3 \/ day = 4 \/ day = 5
               \/ day = 6 \/ day = 7) by lia.
  destruct H' as [->|[->|[->|[->|[->|[->| ->]]]]]]; eexists; reflexivity.
Qed.

(** The labels are computed exactly when the course has two sections. *)
Lemma course_labels_cases (course : Course.t) :
  (exists s0 s1 rest day_name,
      Course.sections course = s0 :: s1 :: rest
      /\ course_labels course
         = Ok (day_name,
               "第" ++ str s0 ++ "-" ++ str s1 ++ "节",
               "第" ++ join "," (List.map str (Course.weeks course)) ++ "周"))
  \/ ((List.length (Course.sections course) < 2)%nat
      /\ course_labels course = Raise IndexError).
Proof.
  unfold course_labels. destruct (day_name_ok (Course.day course)) as [dn ->].
  cbn [bind].
  destruct (Course.sections course) as [|s0 [|s1 rest]] eqn:E.
  - right. split; [cbn; lia|reflexivity].
  - right. split; [cbn; lia|reflexivity].
  - left. exists s0, s1, rest, dn. split; [reflexivity|].
    destruct (index_two s0 s1 rest) as [-> ->]. reflexivity.
Qed.

Lemma format_course_labels (course : Course.t) :
  format_course course =
    (labels <- course_labels course ;;
     let '(day_name, sections_str, weeks_str) := labels in
     Ok (Json.make (Course.name course) (Course.teacher course) day_name
           sections_str weeks_str (Course.weeks course)
           (replace LF "-" (Course.position course))
           (Course.day course) (Course.sections course))).
Proof.
  unfold format_course, course_labels.
  destruct (day_name_ok (Course.day course)) as [dn ->]. cbn [bind].
  destruct (index _ 0); [|reflexivity]. cbn [bind].
  destruct (index _ 1); reflexivity.
Qed.

Lemma save_courses_cases (courses : list Course.t) :
  (Forall (fun c => (2 <= List.length (Course.sections c))%nat) courses ->
   exists records,
     save_courses_to_json courses = Ok records
     /\ Forall2 exported courses records)
  /\ (Exists (fun c => (List.length (Course.sections c) < 2)%nat) courses ->
      save_courses_to_json courses = Raise IndexError).
Proof.
  unfold save_courses_to_json. split.
  - induction 1 as [|c courses Hc _ (records & IH & Hall)]; cbn [map_m].
    + exists []. split; [reflexivity|constructor].
    + rewrite format_course_labels.
      destruct (course_labels_cases c)
        as [(s0 & s1 & rest & dn & _ & ->)|[Hs _]]; [|lia].
      cbn [bind]. rewrite IH. cbn [bind]. eexists. split; [reflexivity|].
      constructor; [|exact Hall]. repeat split.
  - induction 1 as [c courses Hc|c courses _ IH]; cbn [map_m];
      rewrite format_course_labels.
    + destruct (course_labels_cases c)
        as [(s0 & s1 & rest & dn & Hs & _)|[_ ->]]; [|reflexivity].
      rewrite Hs in Hc. cbn [List.length] in Hc. lia.
    + destruct (course_labels_cases c)
        as [(s0 & s1 & rest & dn & _ & ->)|[_ ->]]; [|reflexivity].
      cbn [bind]. now rewrite IH.
Qed.

(** X7.  [save_courses_to_json] writes one record per course, in the
    same order, with the name, teacher, weeks, day and sections of the
    course unchanged, when every course has two sections; it raises
    [IndexError] and writes nothing when some course has fewer. *)
Theorem save_courses_to_json_records (courses : list Course.t) :
  (Forall (fun c => (2 <= List.length (Course.sections c))%nat) courses ->
   exists records,
     save_courses_to_json courses = Ok records
     /\ Forall2 exported courses records)
  /\ (Exists (fun c => (List.length (Course.sections c) < 2)%nat) courses ->
      save_courses_to_json courses = Raise IndexError).
Proof. apply save_courses_cases. Qed.

Lemma save_courses_to_json_records_witness :
  Exists (fun c => (List.length (Course.sections c) < 2)%nat)
    [sample_merged; one_section_course]
  /\ save_courses_to_json [sample_merged; one_section_course]
     = Raise IndexError.
Proof.
  assert (H : Exists (fun c => (List.length (Course.sections c) < 2)%nat)
                [sample_merged; one_section_course]).
  { right. left. cbn. lia. }
  split; [exact H|].
  apply (proj2 (save_courses_to_json_records _) H).
Defined.

(** X8.  Whatever [parse_course_info] returns can be exported: the
    export of its result never raises, and each record carries the
    weeks, the day and the two consecutive sections of its entry. *)
Theorem parsed_courses_export (cells : list Cell.t) (courses : list Course.t) :
  parse_course_info cells = Ok courses ->
  exists records,
    save_courses_to_json courses = Ok records
    /\ Forall2 exported courses records
    /\ Forall (fun r => exists s, Json.section_array r = [s; s + 1]) records.
Proof.
  intros H. destruct (parsed_sections _ _ H) as [Hsec _].
  destruct (proj1 (save_courses_cases courses)) as (records & Hs & Hall).
  { eapply Forall_impl; [|exact Hsec]. intros c [s ->]. cbn. lia. }
  exists records. split; [exact Hs|]. split; [exact Hall|].
  clear -Hsec Hall. induction Hall as [|c r cs rs Hcr _ IH]; [constructor|].
  apply Forall_cons_iff in Hsec. destruct Hsec as [[s Hc] Hsec].
  constructor; [|now apply IH].
  exists s. destruct Hcr as (_ & _ & _ & _ & -> & _). exact Hc.
Qed.

Lemma parsed_courses_export_witness :
  parse_course_info sample_cells = Ok (merge_sessions sample_raws)
  /\ exists records,
       save_courses_to_json (merge_sessions sample_raws) = Ok records
       /\ Forall2 exported (merge_sessions sample_raws) records
       /\ Forall (fun r => exists s, Json.section_array r = [s; s + 1]) records.
Proof.
  split; [reflexivity|].
  apply (parsed_courses_export sample_cells). reflexivity.
Defined.

(** ** The text export and the display *)

Lemma display_file_loop (courses : list Course.t) (f : string) :
  display_loop courses (LF ++ f)
  = (LF ++ fst (file_loop courses f), snd (file_loop courses f)).
Proof.
  revert f. induction courses as [|c courses IH]; intros f;
    cbn [display_loop file_loop]; [reflexivity|].
  destruct (course_labels c) as [[[day_name sections_str] weeks_str]|e];
    [|reflexivity].
  cbv zeta. unfold print.
  rewrite <- IH. f_equal.
  repeat rewrite append_assoc. reflexivity.
Qed.

(** X9.  What [format_and_display_courses] prints is a line feed
    followed by what [save_courses_to_file] writes, and the two raise
    the same exception, if any, at the same course. *)
Theorem display_is_file_text (courses : list Course.t) :
  format_and_display_courses courses
  = (LF ++ fst (save_courses_to_file courses), snd (save_courses_to_file courses)).
Proof.
  unfold format_and_display_courses, save_courses_to_file.
  change (print "" (LF ++ "===== 课表信息 ====="))
    with (LF ++ ("===== 课表信息 =====" ++ LF)).
  rewrite display_file_loop.
  destruct (file_loop courses _) as [f [e|]]; cbn [fst snd]; [reflexivity|].
  unfold print. now rewrite !append_assoc.
Qed.

Lemma file_loop_app (before rest : list Course.t) :
  forall f0 f,
  file_loop before f0 = (f, None) ->
  file_loop (before ++ rest)%list f0 = file_loop rest f.
Proof.
  induction before as [|c before IH]; intros f0 f H; cbn [file_loop app] in *.
  - now injection H as <-.
  - destruct (course_labels c) as [[[dn ss] ws]|e]; [|discriminate].
    now apply IH.
Qed.

Lemma file_loop_ok (courses : list Course.t) :
  Forall (fun c => (2 <= List.length (Course.sections c))%nat) courses ->
  forall f0, exists f, file_loop courses f0 = (f, None).
Proof.
  induction 1 as [|c courses Hc _ IH]; intros f0; cbn [file_loop]; [eauto|].
  destruct (course_labels_cases c) as [(s0 & s1 & rest & dn & _ & ->)|[Hs _]];
    [apply IH|lia].
Qed.

(** X10.  [save_courses_to_file] stops at the first course with fewer
    than two sections: it raises [IndexError], and the file is left
    with exactly what a run on the courses before it writes, without
    the closing line; the courses after it are not written. *)
Theorem save_courses_to_file_truncates (before after : list Course.t)
    (course : Course.t) :
  Forall (fun c => (2 <= List.length (Course.sections c))%nat) before ->
  (List.length (Course.sections course) < 2)%nat ->
  exists f,
    save_courses_to_file before = (f ++ txt_footer, None)
    /\ save_courses_to_file (before ++ course :: after)%list = (f, Some IndexError).
Proof.
  intros Hb Hc. unfold save_courses_to_file.
  destruct (file_loop_ok before Hb ("===== 课表信息 =====" ++ LF)) as [f Hf].
  exists f. rewrite (file_loop_app _ (course :: after) _ _ Hf), Hf.
  split; [reflexivity|]. cbn [file_loop].
  destruct (course_labels_cases course) as [(s0 & s1 & rest & dn & Hs & _)|[_ ->]];
    [|reflexivity].
  rewrite Hs in Hc. cbn [List.length] in Hc. lia.
Qed.

Lemma save_courses_to_file_truncates_witness :
  Forall (fun c => (2 <= List.length (Course.sections c))%nat) [sample_merged]
  /\ (List.length (Course.sections (one_section_course)) < 2)%nat
  /\ exists f,
       save_courses_to_file [sample_merged] = (f ++ txt_footer, None)
       /\ save_courses_to_file
            ([sample_merged] ++ one_section_course :: [])%list
          = (f, Some IndexError).
Proof.
  assert (H1 : Forall (fun c => (2 <= List.length (Course.sections c))%nat)
                 [sample_merged]) by (repeat constructor).
  assert (H2 : (List.length (Course.sections (one_section_course))
                < 2)%nat) by (cbn; lia).
  split; [exact H1|]. split; [exact H2|].
  apply (save_courses_to_file_truncates [sample_merged] []
           (one_section_course) H1 H2).
Defined.

(** ** The calendar *)

(** The timetable has an entry for the periods 1 to 10 and no other. *)
Lemma timetable_domain (n : Z) :
  (exists slot, getitem class_timetable (str n) = Ok slot) <-> 1 <= n <= 10.
Proof.
  split.
  - intros [slot H]. unfold class_timetable in H. cbn [getitem] in H.
    repeat match type of H with
           | (if String.eqb ?k (str n) then _ else _) = _ =>
               destruct (String.eqb_spec k (str n)) as [E|_];
               [apply (f_equal int) in E; rewrite int_str in E;
                injection E as <-; lia|]
           end.
    discriminate H.
  - intros H.
    assert (H' : n = 1 \/ n = 2 \/ n = 3 \/ n = 4 \/ n = 5 \/ n = 6 \/ n = 7
                 \/ n = 8 \/ n = 9 \/ n = 10) by lia.
    destruct H' as [->|[->|[->|[->|[->|[->|[->|[->|[->| ->]]]]]]]]];
      eexists; reflexivity.
Qed.

Section CalendarFacts.

Variable is_holiday : Z -> bool.
Variable uid : nat -> string.
Variable utc_now : string.

(** X11.  An event block is written only for a session whose two
    periods are both in 1..10; so a session that spans two consecutive
    periods, as every exported one does, is written only when it
    starts in a period from 1 to 9. *)
Theorem event_block_periods (initial_time : Z) (a_trigger : string)
    (course : Json.t) (n : nat) (text : string) (n' : nat) :
  event_block is_holiday uid utc_now initial_time a_trigger course n
  = Ok (text, n') ->
  exists s0 s1,
    index (Json.section_array course) 0 = Ok s0
    /\ index (Json.section_array course) 1 = Ok s1
    /\ 1 <= s0 <= 10 /\ 1 <= s1 <= 10
    /\ (s1 = s0 + 1 -> 1 <= s0 <= 9).
Proof.
  intros H. unfold event_block in H. bind_inv H.
  match goal with
  | E0 : index _ 0 = Ok ?a, E1 : index _ 1 = Ok ?b,
    G0 : getitem _ (str ?a) = Ok _, G1 : getitem _ (str ?b) = Ok _ |- _ =>
      exists a, b;
      assert (1 <= a <= 10) by (apply timetable_domain; eauto);
      assert (1 <= b <= 10) by (apply timetable_domain; eauto)
  end.
  repeat split; try assumption; lia.
Qed.

Lemma index_bounds {A : Type} (l : list A) (i : Z) (x : A) :
  index l i = Ok x ->
  - Z.of_nat (List.length l) <= i < Z.of_nat (List.length l).
Proof.
  unfold index. intros H.
  destruct (Z.ltb_spec i 0) as [Hi|Hi];
    match type of H with
    | (if ?c then _ else _) = _ => destruct c eqn:E; [|discriminate H]
    end;
    apply andb_prop in E; destruct E as [E1 E2];
    apply Z.leb_le in E1; apply Z.ltb_lt in E2; lia.
Qed.

(** An index from [-len] to [len - 1] is accepted, and counts from the
    end when it is negative. *)
Lemma index_in_bounds {A : Type} (l : list A) (i : Z) :
  - Z.of_nat (List.length l) <= i < Z.of_nat (List.length l) ->
  exists x,
    index l i = Ok x
    /\ nth_error l (Z.to_nat (i mod Z.of_nat (List.length l))) = Some x.
Proof.
  intros Hi. unfold index. set (len := Z.of_nat (List.length l)) in *.
  assert (Hk : exists k, (if i <? 0 then i + len else i) = k
                         /\ 0 <= k < len /\ i mod len = k).
  { destruct (Z.ltb_spec i 0).
    - exists (i + len). split; [reflexivity|]. split; [lia|].
      symmetry. apply (Z.mod_unique_pos i len (-1) (i + len)); lia.
    - exists i. split; [reflexivity|]. split; [lia|]. apply Z.mod_small. lia. }
  destruct Hk as (k & -> & Hk & ->).
  destruct (Z.leb_spec 0 k); [|lia]. destruct (Z.ltb_spec k len); [|lia].
  cbn [andb].
  destruct (nth_error l (Z.to_nat k)) as [x|] eqn:E; [now exists x|].
  apply nth_error_None in E. unfold len in *. lia.
Qed.

Lemma unlines_cons (x : string) (l : list string) :
  unlines (x :: l) = x ++ LF ++ unlines l.
Proof.
  change (x :: l) with ([x] ++ l)%list. rewrite unlines_app.
  unfold unlines at 1. cbn [List.map String.concat]. now rewrite append_assoc.
Qed.

Lemma event_block_lines (initial_time : Z) (a_trigger : string)
    (course : Json.t) (n : nat) (text : string) (n' : nat) :
  Json.weeks_array course <> [] ->
  event_block is_holiday uid utc_now initial_time a_trigger course n
  = Ok (text, n') ->
  let weeks := Json.weeks_array course in
  let first := initial_time + (7 * (min_week weeks - 1) + (Json.day course - 1)) in
  let until := initial_time + (7 * (max_week weeks - 1) + Json.day course) in
  exists pre post interval s0 s1 start_slot end_slot,
    index (Json.section_array course) 0 = Ok s0
    /\ index (Json.section_array course) 1 = Ok s1
    /\ getitem class_timetable (str s0) = Ok start_slot
    /\ getitem class_timetable (str s1) = Ok end_slot
    /\ (if week_status_of (sort weeks) =? 0 then interval = "1"
        else exists wd, index weekdays (Json.day course - 1) = Ok wd
                        /\ interval = "2;BYDAY=" ++ wd)
    /\ text =
         pre
         ++ unlines
              [ "RRULE:FREQ=WEEKLY;UNTIL=" ++ (strftime_Ymd until ++ "T000000Z")
                ++ ";INTERVAL=" ++ interval;
                "DTSTART;TZID=Asia/Shanghai:" ++ strftime_Ymd first ++ "T"
                ++ startTime start_slot;
                "DTEND;TZID=Asia/Shanghai:" ++ strftime_Ymd first ++ "T"
                ++ endTime end_slot;
                "X-APPLE-TRAVEL-ADVISORY-BEHAVIOR:AUTOMATIC" ]
         ++ post.
Proof.
  intros Hne H weeks first until. unfold event_block in H.
  destruct (recurrence_of initial_time course) as [r|] eqn:Hr; [|discriminate H].
  cbn [bind] in H.
  destruct (recurrence_of_fields _ _ _ Hne Hr) as (Hs & He & Hp & Hf & _ & _).
  fold weeks in Hs, He, Hp.
  assert (Hfirst : first_time_obj r = first) by (unfold first; rewrite Hf, Hs; reflexivity).
  destruct (exclude_dates_of is_holiday r _) as [ex|]; [|discriminate H].
  cbn [bind] in H.
  destruct (if week_status r =? 0 then _ else _) as [interval|] eqn:Ei;
    [|discriminate H].
  cbn [bind] in H.
  destruct (index _ 0) as [s0|] eqn:E0; [|discriminate H]. cbn [bind] in H.
  destruct (index _ 1) as [s1|] eqn:E1; [|discriminate H]. cbn [bind] in H.
  destruct (getitem _ (str s0)) as [slot0|] eqn:G0; [|discriminate H].
  cbn [bind] in H.
  destruct (getitem _ (str s1)) as [slot1|] eqn:G1; [|discriminate H].
  cbn [bind] in H.
  destruct (datetime_add _ _) as [stop|] eqn:Es; [|discriminate H].
  cbn [bind] in H.
  apply datetime_add_ok in Es. destruct Es as [Es _].
  assert (Hstop : stop = until) by (unfold until; rewrite Es, Hfirst, Hs, He; unfold first; lia).
  destruct (alarm_base uid a_trigger n) as [alarm n1].
  pose proof (f_equal (fun x => match x with
                                | Ok p => fst p
                                | Raise _ => text
                                end) H) as Ht.
  cbv beta iota in Ht. unfold fst in Ht. clear H.
  rewrite Hfirst, Hstop in Ht. rewrite <- Ht. clear Ht.
  match goal with
  | |- exists pre post _ _ _ _ _, _ /\ _ /\ _ /\ _ /\ _ /\
         ?h ++ ?x ++ ?u ++ ?al ++ ?e = _ =>
      exists (h ++ x), (al ++ e), interval, s0, s1, slot0, slot1
  end.
  split; [reflexivity|]. split; [reflexivity|].
  split; [exact G0|]. split; [exact G1|]. split.
  - rewrite <- Hp. destruct (week_status r =? 0).
    + now injection Ei as <-.
    + destruct (index weekdays _) as [wd|]; [|discriminate Ei].
      cbn [bind] in Ei. injection Ei as <-. now exists wd.
  - now rewrite !append_assoc.
Qed.


(** The conditions under which the block of a session is written. *)
Lemma event_block_written (initial_time : Z) (a_trigger : string)
    (course : Json.t) (n : nat) (s0 s1 : Z) :
  Json.weeks_array course <> [] ->
  let weeks := Json.weeks_array course in
  let day := Json.day course in
  index (Json.section_array course) 0 = Ok s0 ->
  index (Json.section_array course) 1 = Ok s1 ->
  1 <= s0 <= 10 -> 1 <= s1 <= 10 ->
  (week_status_of (sort weeks) <> EVERY_WEEK -> -6 <= day <= 7) ->
  Z.abs (7 * (min_week weeks - 1) + (day - 1)) <= 999999999 ->
  1 <= initial_time + (7 * (min_week weeks - 1) + (day - 1)) ->
  initial_time + (7 * (max_week weeks - 1) + day) <= max_ordinal ->
  exists text n',
    event_block is_holiday uid utc_now initial_time a_trigger course n
    = Ok (text, n').
Proof.
  intros Hne weeks day H0 H1 Hs0 Hs1 Hday Habs Hfirst Huntil.
  pose proof (min_le_max weeks Hne) as Hmm.
  set (first := initial_time + (7 * (min_week weeks - 1) + (day - 1))) in *.
  set (r := {| start_week := min_week weeks; end_week := max_week weeks;
               week_status := week_status_of (sort weeks);
               first_time_obj := first |}).
  assert (Hr : recurrence_of initial_time course = Ok r).
  { rewrite (recurrence_of_eq _ _ Hne). cbv zeta. fold weeks day.
    rewrite delta_time_shift, (parity_shift_zero weeks Hne), Z.add_0_r.
    replace (datetime_add initial_time (7 * (min_week weeks - 1) + (day - 1)))
      with (Ok (A := Z) first); [reflexivity|].
    symmetry. apply datetime_add_ok. unfold first, max_ordinal in *. lia. }
  destruct (proj2 (timetable_domain s0) Hs0) as [slot0 G0].
  destruct (proj2 (timetable_domain s1) Hs1) as [slot1 G1].
  assert (Hex : exists ex,
            exclude_dates_of is_holiday r (Json.section_array course) = Ok ex).
  { unfold exclude_dates_of. rewrite exclude_loop_eq.
    - destruct (filter is_holiday _); [now exists []|].
      rewrite H0. cbn [bind]. rewrite G0. cbn [bind]. eauto.
    - intros w Hw _. apply in_range in Hw. apply datetime_add_ok.
      unfold occurrence_date. cbn [first_time_obj start_week end_week r] in *.
      unfold first, max_ordinal in *. lia. }
  destruct Hex as [ex Hex].
  assert (Hextra : exists extra,
            (if week_status r =? 0 then Ok "1"
             else wd <- index weekdays (Json.day course - 1) ;;
                  Ok ("2;BYDAY=" ++ wd)) = Ok extra).
  { destruct (Z.eqb_spec (week_status r) 0) as [E|E]; [eauto|].
    destruct (index_in_bounds weekdays (Json.day course - 1)) as (wd & -> & _).
    - cbn [List.length weekdays]. fold day.
      assert (-6 <= day <= 7) by (apply Hday; exact E). lia.
    - cbn [bind]. eauto. }
  destruct Hextra as [extra Hextra].
  assert (Hstop : datetime_add (first_time_obj r)
                    (7 * (end_week r - start_week r) + 1)
                  = Ok (first + (7 * (max_week weeks - min_week weeks) + 1))).
  { apply datetime_add_ok. cbn [first_time_obj start_week end_week r].
    unfold first, max_ordinal in *. lia. }
  destruct (event_block is_holiday uid utc_now initial_time a_trigger course n)
    as [[text n']|e] eqn:E; [eauto|].
  exfalso. unfold event_block in E. rewrite Hr in E. cbn [bind] in E.
  rewrite Hex in E. cbn [bind] in E.
  rewrite Hextra in E. cbn [bind] in E.
  rewrite H0 in E. cbn [bind] in E. rewrite H1 in E. cbn [bind] in E.
  rewrite G0 in E. cbn [bind] in E. rewrite G1 in E. cbn [bind] in E.
  rewrite Hstop in E. cbn [bind] in E.
  destruct (alarm_base uid a_trigger n). discriminate E.
Qed.

(** X12.  For an odd-week or even-week session the block is written
    only when [day] is between -6 and 7, and its rule then carries the
    BYDAY code at the place [(day - 1) mod 7] of the list: a [day] from
    -6 to 0 counts from the end, so [day = 0] gives SU.  Such a [day]
    is not refused: when the periods are in the timetable and the dates
    are representable, the block is written for every [day] from -6
    to 7. *)
Theorem event_block_byday (initial_time : Z) (a_trigger : string)
    (course : Json.t) (n : nat) :
  Json.weeks_array course <> [] ->
  week_status_of (sort (Json.weeks_array course)) <> EVERY_WEEK ->
  let weeks := Json.weeks_array course in
  let day := Json.day course in
  let until := initial_time + (7 * (max_week weeks - 1) + day) in
  (forall text n',
     event_block is_holiday uid utc_now initial_time a_trigger course n
     = Ok (text, n') ->
     -6 <= day <= 7
     /\ exists wd pre post,
          nth_error weekdays (Z.to_nat ((day - 1) mod 7)) = Some wd
          /\ text =
               pre
               ++ "RRULE:FREQ=WEEKLY;UNTIL=" ++ (strftime_Ymd until ++ "T000000Z")
               ++ ";INTERVAL=2;BYDAY=" ++ wd ++ LF
               ++ post)
  /\ (-6 <= day <= 7 ->
      forall s0 s1,
      index (Json.section_array course) 0 = Ok s0 ->
      index (Json.section_array course) 1 = Ok s1 ->
      1 <= s0 <= 10 -> 1 <= s1 <= 10 ->
      Z.abs (7 * (min_week weeks - 1) + (day - 1)) <= 999999999 ->
      1 <= initial_time + (7 * (min_week weeks - 1) + (day - 1)) ->
      until <= max_ordinal ->
      exists text n',
        event_block is_holiday uid utc_now initial_time a_trigger course n
        = Ok (text, n')).
Proof.
  intros Hne Hst weeks day until. split.
  - intros text n' H.
    destruct (event_block_lines _ _ _ _ _ _ Hne H)
      as (pre & post & interval & s0 & s1 & slot0 & slot1
          & _ & _ & _ & _ & Hi & Ht).
    fold weeks day until in Hi, Ht.
    destruct (Z.eqb_spec (week_status_of (sort weeks)) 0) as [E|_];
      [exfalso; apply Hst; exact E|].
    destruct Hi as (wd & Hwd & ->).
    pose proof (index_bounds _ _ _ Hwd) as Hb. cbn [List.length weekdays] in Hb.
    split; [lia|].
    destruct (index_in_bounds weekdays (day - 1)) as (wd' & Hwd' & Hnth);
      [cbn [List.length weekdays]; lia|].
    assert (wd' = wd) by congruence. subst wd'.
    cbn [List.length weekdays] in Hnth.
    exists wd, pre. eexists. split; [exact Hnth|].
    rewrite Ht, unlines_cons.
    generalize (strftime_Ymd until ++ "T000000Z") as u. intros u.
    rewrite !append_assoc. reflexivity.
  - intros Hday s0 s1 H0 H1 Hs0 Hs1 Habs Hfirst Huntil.
    apply (event_block_written initial_time a_trigger course n s0 s1);
      try assumption.
    intros _. exact Hday.
Qed.

(** X13.  In a block written, DTSTART and DTEND are on the weekday
    [day] of the least week, UNTIL is the day after the occurrence of
    the greatest week, and INTERVAL is 1 for weeks of mixed parity and
    2 with a BYDAY code otherwise. *)
Theorem event_block_rule (initial_time : Z) (a_trigger : string)
    (course : Json.t) (n : nat) (text : string) (n' : nat) :
  Json.weeks_array course <> [] ->
  event_block is_holiday uid utc_now initial_time a_trigger course n
  = Ok (text, n') ->
  let weeks := Json.weeks_array course in
  let first := initial_time + (7 * (min_week weeks - 1) + (Json.day course - 1)) in
  let until := initial_time + (7 * (max_week weeks - 1) + Json.day course) in
  exists pre post interval s0 s1 start_slot end_slot,
    index (Json.section_array course) 0 = Ok s0
    /\ index (Json.section_array course) 1 = Ok s1
    /\ getitem class_timetable (str s0) = Ok start_slot
    /\ getitem class_timetable (str s1) = Ok end_slot
    /\ (if week_status_of (sort weeks) =? 0 then interval = "1"
        else exists wd, index weekdays (Json.day course - 1) = Ok wd
                        /\ interval = "2;BYDAY=" ++ wd)
    /\ text =
         pre
         ++ unlines
              [ "RRULE:FREQ=WEEKLY;UNTIL=" ++ (strftime_Ymd until ++ "T000000Z")
                ++ ";INTERVAL=" ++ interval;
                "DTSTART;TZID=Asia/Shanghai:" ++ strftime_Ymd first ++ "T"
                ++ startTime start_slot;
                "DTEND;TZID=Asia/Shanghai:" ++ strftime_Ymd first ++ "T"
                ++ endTime end_slot;
                "X-APPLE-TRAVEL-ADVISORY-BEHAVIOR:AUTOMATIC" ]
         ++ post.
Proof. apply event_block_lines. Qed.

(** The lines of a block up to the rule. *)
Lemma event_block_exdate (initial_time : Z) (a_trigger : string)
    (course : Json.t) (n : nat) (text : string) (n' : nat) :
  event_block is_holiday uid utc_now initial_time a_trigger course n
  = Ok (text, n') ->
  exists r exclude_dates k rest,
    recurrence_of initial_time course = Ok r
    /\ exclude_dates_of is_holiday r (Json.section_array course) = Ok exclude_dates
    /\ text =
         vevent_head utc_now course
         ++ unlines ["TZID:Asia/Shanghai"; "SEQUENCE:0"; "UID:" ++ uid k]
         ++ exdate_line exclude_dates
         ++ "RRULE:" ++ rest.
Proof.
  intros H. unfold event_block in H.
  destruct (recurrence_of initial_time course) as [r|] eqn:Hr; [|discriminate H].
  cbn [bind] in H.
  destruct (exclude_dates_of is_holiday r _) as [ex|] eqn:Hex; [|discriminate H].
  cbn [bind] in H.
  bind_inv H.
  destruct (alarm_base uid a_trigger n) as [alarm n1].
  pose proof (f_equal (fun x => match x with
                                | Ok p => fst p
                                | Raise _ => text
                                end) H) as Ht.
  cbv beta iota in Ht. unfold fst in Ht. clear H.
  exists r, ex, n1. rewrite <- Ht. clear Ht.
  fold (exdate_line ex).
  match goal with
  | |- context [unlines (?a :: ?b :: ?c :: ?d :: ?e :: ?f :: ?rest)] =>
      change (unlines (a :: b :: c :: d :: e :: f :: rest))
        with (unlines (app [a; b; c; d; e; f] rest))
  end.
  rewrite unlines_app. fold (vevent_head utc_now course).
  match goal with
  | |- context [unlines (("RRULE:FREQ=WEEKLY;UNTIL=" ++ ?u) :: ?more)] =>
      rewrite (unlines_cons ("RRULE:FREQ=WEEKLY;UNTIL=" ++ u) more);
      generalize (unlines more) as lines; generalize u as rule
  end.
  intros rule lines.
  eexists. split; [reflexivity|]. split; [exact Hex|].
  generalize (vevent_head utc_now course) as head.
  generalize (exdate_line ex) as exdate. intros exdate head.
  change ("RRULE:FREQ=WEEKLY;UNTIL=" ++ rule)
    with ("RRULE:" ++ "FREQ=WEEKLY;UNTIL=" ++ rule).
  rewrite !append_assoc. reflexivity.
Qed.

(** X14.  The EXDATE line of a block written lists occurrences of its
    rule only.  The line stands between the UID and the RRULE lines and
    is left out when no date is excluded; each of its dates is a
    holiday, a whole number of intervals (one week, or two for odd-week
    and even-week sessions) after the first occurrence and not after
    the occurrence of the last week, and it is stamped with the start
    clock time of the session's first period. *)
Theorem exclusion_dates_are_occurrences (initial_time : Z) (a_trigger : string)
    (course : Json.t) (n : nat) (text : string) (n' : nat) :
  Json.weeks_array course <> [] ->
  event_block is_holiday uid utc_now initial_time a_trigger course n
  = Ok (text, n') ->
  exists r s0 slot exclude_dates k rest,
    recurrence_of initial_time course = Ok r
    /\ exclude_dates_of is_holiday r (Json.section_array course) = Ok exclude_dates
    /\ index (Json.section_array course) 0 = Ok s0
    /\ getitem class_timetable (str s0) = Ok slot
    /\ text =
         vevent_head utc_now course
         ++ unlines ["TZID:Asia/Shanghai"; "SEQUENCE:0"; "UID:" ++ uid k]
         ++ exdate_line exclude_dates
         ++ "RRULE:" ++ rest
    /\ forall x, In x exclude_dates ->
       exists date j,
         x = strftime_Ymd date ++ "T" ++ startTime slot
         /\ is_holiday date = true
         /\ 0 <= j
         /\ date = first_time_obj r
                   + 7 * (if week_status r =? 0 then 1 else 2) * j
         /\ date <= first_time_obj r + 7 * (end_week r - start_week r).
Proof.
  intros Hne H.
  destruct (event_block_exdate _ _ _ _ _ _ H)
    as (r & exclude_dates & k & rest & Hr & Hl & Ht).
  destruct (event_block_lines _ _ _ _ _ _ Hne H)
    as (_ & _ & _ & s0 & _ & slot & _ & H0 & _ & G0 & _).
  exists r, s0, slot, exclude_dates, k, rest.
  split; [exact Hr|]. split; [exact Hl|]. split; [exact H0|]. split; [exact G0|].
  split; [exact Ht|]. clear Ht H. intros x Hx.
  destruct (exclusion_set_ok is_holiday initial_time course exclude_dates Hne)
    as (r' & Hr' & _ & Hm).
  { unfold exclusion_set. now rewrite Hr. }
  assert (r' = r) by congruence. subst r'.
  destruct (holiday_dates is_holiday r) as [|d ds] eqn:Ehol;
    [subst exclude_dates; destruct Hx|].
  destruct Hm as (s0' & slot' & H0' & G0' & ->).
  assert (s0' = s0) by congruence. subst s0'.
  assert (slot' = slot) by congruence. subst slot'.
  apply in_map_iff in Hx. destruct Hx as (date & <- & Hd).
  rewrite <- Ehol in Hd. unfold holiday_dates, candidate_weeks in Hd.
  apply filter_In in Hd. destruct Hd as [Hd Hh].
  apply in_map_iff in Hd. destruct Hd as (w & <- & Hw).
  apply filter_In in Hw. destruct Hw as [Hw Hpw]. apply in_range in Hw.
  destruct (recurrence_of_fields _ _ _ Hne Hr) as (Hs & _ & Hp & _).
  destruct (min_week_parity _ Hne) as [Ho Hev].
  rewrite <- Hp, <- Hs in Ho, Hev.
  assert (Hk : exists k, 0 <= k
               /\ w - start_week r = (if week_status r =? 0 then 1 else 2) * k).
  { destruct (Z.eqb_spec (week_status r) 0) as [E|E].
    - exists (w - start_week r). lia.
    - assert (Hcases : week_status r = ODD_WEEKS \/ week_status r = EVEN_WEEKS).
      { rewrite Hp, week_status_sort, week_status_cases in *.
        destruct (forallb Z.odd _); [now left|].
        destruct (forallb Z.even _); [now right|].
        unfold EVERY_WEEK in E. congruence. }
      unfold parity_agrees in Hpw. apply andb_prop in Hpw.
      destruct Hpw as [Hp1 Hp2].
      exists ((w - start_week r) / 2). split; [apply Z.div_pos; lia|].
      assert (Heven : Z.even (w - start_week r) = true).
      { rewrite Z.even_sub. destruct Hcases as [Hc|Hc].
        - specialize (Ho Hc). rewrite Hc in Hp1.
          change (ODD_WEEKS =? ODD_WEEKS) with true in Hp1. cbn [andb] in Hp1.
          apply negb_true_iff in Hp1.
          now rewrite Hp1, <- (Z.negb_odd (start_week r)), Ho.
        - specialize (Hev Hc). rewrite Hc in Hp2.
          change (EVEN_WEEKS =? EVEN_WEEKS) with true in Hp2. cbn [andb] in Hp2.
          apply negb_true_iff in Hp2.
          now rewrite Hev, <- (Z.negb_odd w), Hp2. }
      apply Z.even_spec in Heven. destruct Heven as [q Hq].
      rewrite Hq. rewrite (Z.mul_comm 2 q), Z.div_mul by lia. lia. }
  destruct Hk as (j & Hj0 & Hj).
  exists (occurrence_date r w), j. unfold occurrence_date, exclusion_stamp.
  repeat split; try assumption; try reflexivity.
  - rewrite Hj. lia.
  - lia.
Qed.

End CalendarFacts.

Lemma sorted_perm_eq (l l' : list Z) :
  StronglySorted Z.le l -> StronglySorted Z.le l' -> Permutation l l' -> l = l'.
Proof.
  intros Hs. revert l'. induction Hs as [|x t Hs IH Hx]; intros l' Hs' Hp.
  - now apply Permutation_nil in Hp.
  - destruct Hs' as [|y t' Hs' Hy].
    + symmetry in Hp. now apply Permutation_nil in Hp.
    + assert (x = y).
      { rewrite Forall_forall in Hx, Hy.
        assert (Hyx : In y (x :: t))
          by (eapply Permutation_in; [symmetry; exact Hp|now left]).
        assert (Hxy : In x (y :: t'))
          by (eapply Permutation_in; [exact Hp|now left]).
        destruct Hyx as [->|Hyx]; [reflexivity|].
        destruct Hxy as [->|Hxy]; [reflexivity|].
        specialize (Hx y Hyx). specialize (Hy x Hxy). lia. }
      subst y. f_equal. apply IH; [exact Hs'|].
      now apply Permutation_cons_inv in Hp.
Qed.

Lemma sort_permutation (l l' : list Z) : Permutation l l' -> sort l = sort l'.
Proof.
  intros Hp. apply sorted_perm_eq; try apply sort_sorted.
  rewrite !sort_perm. exact Hp.
Qed.

Section CalendarOrder.

Variable is_holiday : Z -> bool.
Variable uid : nat -> string.
Variable utc_now : string.

(** X15.  The order in which the weeks of a session are listed does
    not matter: two records that differ only by the order of
    [weeks_array] give the same event block. *)
Theorem event_block_weeks_order (initial_time : Z) (a_trigger : string)
    (course course' : Json.t) (n : nat) :
  Permutation (Json.weeks_array course) (Json.weeks_array course') ->
  Json.name course' = Json.name course ->
  Json.teacher course' = Json.teacher course ->
  Json.position course' = Json.position course ->
  Json.day course' = Json.day course ->
  Json.section_array course' = Json.section_array course ->
  event_block is_holiday uid utc_now initial_time a_trigger course' n
  = event_block is_holiday uid utc_now initial_time a_trigger course n.
Proof.
  intros Hp Hn Ht Hpos Hd Hs. unfold event_block, recurrence_of.
  rewrite Hn, Ht, Hpos, Hd, Hs, (sort_permutation _ _ Hp). reflexivity.
Qed.

(** X16.  Every date the rule can produce falls on one weekday: the
    weekday of the anchor moved by [day - 1].  With a Monday as anchor
    and [day] from 1 to 7, it is the weekday numbered [day - 1]. *)
Theorem occurrences_on_one_weekday (initial_time : Z) (course : Json.t)
    (r : recurrence) :
  Json.weeks_array course <> [] ->
  recurrence_of initial_time course = Ok r ->
  forall week,
    weekday (occurrence_date r week)
    = (weekday initial_time + (Json.day course - 1)) mod 7
    /\ (weekday initial_time = 0 -> 1 <= Json.day course <= 7 ->
        weekday (occurrence_date r week) = Json.day course - 1).
Proof.
  intros Hne Hr week.
  destruct (recurrence_of_fields _ _ _ Hne Hr) as (_ & _ & _ & Hf & _).
  assert (H : weekday (occurrence_date r week)
              = (weekday initial_time + (Json.day course - 1)) mod 7).
  { unfold weekday, occurrence_date. rewrite Hf.
    replace (initial_time + (7 * (start_week r - 1) + (Json.day course - 1))
             + 7 * (week - start_week r) + 6)
      with (initial_time + 6 + (Json.day course - 1) + (week - 1) * 7) by lia.
    rewrite Z.mod_add by lia. now rewrite Z.add_mod_idemp_l by lia. }
  split; [exact H|].
  intros Hmon Hday. rewrite H, Hmon. cbn [Z.add]. apply Z.mod_small. lia.
Qed.

(** The loop writes nothing for sessions without weeks. *)
Lemma write_events_no_weeks (initial_time : Z) (a_trigger : string)
    (courses : list Json.t) (f : string) (n : nat) :
  Forall (fun c => Json.weeks_array c = []) courses ->
  write_events is_holiday uid utc_now initial_time a_trigger courses f n = (f, None).
Proof.
  induction 1 as [|c courses Hc _ IH]; cbn [write_events]; [reflexivity|].
  now rewrite Hc.
Qed.

(** X17.  The value returned tells what the file is.  The name of the
    file is returned exactly when the document is complete: header,
    blocks, footer.  [None] is returned either with no file at all
    (no course, or a date that does not parse) or with a file that
    ends by a line feed, without the footer. *)
Theorem generate_ics_outcome (strptime_Ymd : string -> result Z)
    (courses : list Json.t) (first_week_date : string) (alarm_minutes : Z) :
  match
    returned (generate_ics_from_json is_holiday uid utc_now strptime_Ymd
                courses first_week_date alarm_minutes)
  with
  | Some name =>
      courses <> []
      /\ name = "课表-" ++ utc_now ++ ".ics"
      /\ exists blocks,
           written (generate_ics_from_json is_holiday uid utc_now strptime_Ymd
                      courses first_week_date alarm_minutes)
           = Some (name, ical_begin_base ++ blocks ++ ical_end)
  | None =>
      (written (generate_ics_from_json is_holiday uid utc_now strptime_Ymd
                  courses first_week_date alarm_minutes) = None
       /\ (courses = [] \/ exists e, strptime_Ymd first_week_date = Raise e))
      \/ exists f,
           written (generate_ics_from_json is_holiday uid utc_now strptime_Ymd
                      courses first_week_date alarm_minutes)
           = Some ("课表-" ++ utc_now ++ ".ics", f)
           /\ last_char f = Some "010"%char
           /\ forall g, f <> g ++ ical_end
  end.
Proof.
  unfold generate_ics_from_json.
  destruct courses as [|c courses]; [left; split; [reflexivity|now left]|].
  destruct (strptime_Ymd first_week_date) as [initial_time|e];
    [|left; split; [reflexivity|right; now exists e]].
  destruct (write_events _ _ _ _ _ _ _ _) as [f [e|]] eqn:E; cbn [returned written];
    destruct (write_events_extends _ _ _ _ _ _ _ _ _ _ E) as [[blocks ->] Hlast].
  - right. eexists. split; [reflexivity|].
    specialize (Hlast eq_refl). split; [exact Hlast|].
    intros g Hg. rewrite Hg, last_char_app in Hlast by discriminate.
    discriminate Hlast.
  - split; [discriminate|]. split; [reflexivity|].
    exists blocks. now rewrite append_assoc.
Qed.

(** X18.  When no session has weeks, the calendar written is the
    header followed by the footer, and the call reports success. *)
Theorem generate_ics_no_weeks (strptime_Ymd : string -> result Z)
    (courses : list Json.t) (first_week_date : string) (alarm_minutes : Z)
    (initial_time : Z) :
  courses <> [] ->
  Forall (fun c => Json.weeks_array c = []) courses ->
  strptime_Ymd first_week_date = Ok initial_time ->
  generate_ics_from_json is_holiday uid utc_now strptime_Ymd
    courses first_week_date alarm_minutes
  = {| returned := Some ("课表-" ++ utc_now ++ ".ics");
       written := Some ("课表-" ++ utc_now ++ ".ics", ical_begin_base ++ ical_end) |}.
Proof.
  intros Hne Hall Hdate. unfold generate_ics_from_json.
  destruct courses as [|c courses]; [congruence|].
  now rewrite Hdate, (write_events_no_weeks _ _ _ _ _ Hall).
Qed.

End CalendarOrder.

Section CalendarMore.

Variable is_holiday : Z -> bool.
Variable uid : nat -> string.
Variable utc_now : string.

(** X19.  A reminder is written exactly when [alarm_minutes] is
    positive: the block then ends with one VALARM block whose trigger
    is that number of minutes, and three identifiers are drawn; with
    zero or a negative number the block has no reminder and one
    identifier is drawn. *)
Theorem event_block_reminder (initial_time alarm_minutes : Z)
    (course : Json.t) (n : nat) (text : string) (n' : nat) :
  event_block is_holiday uid utc_now initial_time
    (if 0 <? alarm_minutes then "-PT" ++ str alarm_minutes ++ "M" else "")
    course n = Ok (text, n') ->
  if 0 <? alarm_minutes then
    n' = (n + 3)%nat
    /\ exists pre,
         text =
           pre
           ++ unlines
                [ "X-APPLE-TRAVEL-ADVISORY-BEHAVIOR:AUTOMATIC";
                  "BEGIN:VALARM";
                  "ACTION:DISPLAY";
                  "DESCRIPTION:This is an event reminder";
                  "TRIGGER:-PT" ++ str alarm_minutes ++ "M";
                  "X-WR-ALARMUID:" ++ uid n;
                  "UID:" ++ uid (S n);
                  "END:VALARM";
                  "END:VEVENT" ]
  else
    n' = (n + 1)%nat
    /\ exists pre,
         text =
           pre
           ++ unlines
                [ "X-APPLE-TRAVEL-ADVISORY-BEHAVIOR:AUTOMATIC"; "END:VEVENT" ].
Proof.
  intros H. unfold event_block in H. bind_inv H.
  destruct (0 <? alarm_minutes).
  - change (alarm_base uid ("-PT" ++ str alarm_minutes ++ "M") n)
      with (unlines
              [ "BEGIN:VALARM"; "ACTION:DISPLAY";
                "DESCRIPTION:This is an event reminder";
                "TRIGGER:" ++ "-PT" ++ str alarm_minutes ++ "M";
                "X-WR-ALARMUID:" ++ uid n; "UID:" ++ uid (S n); "END:VALARM" ],
            S (S n)) in H.
    pose proof (f_equal (fun x => match x with
                                  | Ok p => snd p
                                  | Raise _ => n'
                                  end) H) as Hn.
    pose proof (f_equal (fun x => match x with
                                  | Ok p => fst p
                                  | Raise _ => text
                                  end) H) as Ht.
    cbv beta iota in Hn, Ht. unfold fst in Ht. unfold snd in Hn. clear H.
    split; [lia|]. rewrite <- Ht. clear Ht Hn.
    match goal with
    | |- exists pre, ?h ++ ?x ++ unlines [?l1; ?l2; ?l3; ?l4] ++ ?al ++ ?e = _ =>
        exists (h ++ x ++ unlines [l1; l2; l3]);
        change (unlines [l1; l2; l3; l4])
          with (unlines ([l1; l2; l3] ++ [l4])%list);
        generalize h, x, l1, l2, l3
    end.
    intros h x l1 l2 l3. rewrite unlines_app, !append_assoc.
    do 3 f_equal. rewrite <- !unlines_app. reflexivity.
  - change (alarm_base uid "" n) with (EmptyString, n) in H.
    pose proof (f_equal (fun x => match x with
                                  | Ok p => snd p
                                  | Raise _ => n'
                                  end) H) as Hn.
    pose proof (f_equal (fun x => match x with
                                  | Ok p => fst p
                                  | Raise _ => text
                                  end) H) as Ht.
    cbv beta iota in Hn, Ht. unfold fst in Ht. unfold snd in Hn. clear H.
    split; [lia|]. rewrite <- Ht. clear Ht Hn.
    match goal with
    | |- exists pre, ?h ++ ?x ++ unlines [?l1; ?l2; ?l3; ?l4] ++ ?al ++ ?e = _ =>
        exists (h ++ x ++ unlines [l1; l2; l3]);
        change (unlines [l1; l2; l3; l4])
          with (unlines ([l1; l2; l3] ++ [l4])%list);
        generalize h, x, l1, l2, l3
    end.
    intros h x l1 l2 l3. rewrite unlines_app, !append_assoc.
    do 3 f_equal.
Qed.

(** The loop is left by an exception when a session with weeks has a
    period outside the timetable. *)
Lemma write_events_missing_period (initial_time : Z) (a_trigger : string)
    (courses : list Json.t) (course : Json.t) :
  In course courses ->
  Json.weeks_array course <> [] ->
  has_missing_period course ->
  forall f n, exists f' e,
    write_events is_holiday uid utc_now initial_time a_trigger courses f n
    = (f', Some e).
Proof.
  intros Hin Hw Hm. induction courses as [|c courses IH]; [destruct Hin|].
  intros f n. cbn [write_events].
  destruct Hin as [->|Hin].
  - destruct (Json.weeks_array course); [congruence|].
    destruct (event_block_missing_period is_holiday uid utc_now initial_time
                a_trigger course n Hm) as [e ->]. eauto.
  - destruct (Json.weeks_array c); [now apply IH|].
    destruct (event_block _ _ _ _ _ _ _) as [[text n1]|e]; [now apply IH|eauto].
Qed.

(** X20.  [generate_ics_from_json] never returns a file name when some
    session with weeks has a first or second period outside the
    timetable, wherever the session is in the list. *)
Theorem generate_ics_missing_period (strptime_Ymd : string -> result Z)
    (courses : list Json.t) (course : Json.t)
    (first_week_date : string) (alarm_minutes : Z) :
  In course courses ->
  Json.weeks_array course <> [] ->
  has_missing_period course ->
  returned (generate_ics_from_json is_holiday uid utc_now strptime_Ymd
              courses first_week_date alarm_minutes) = None.
Proof.
  intros Hin Hw Hm. unfold generate_ics_from_json.
  destruct courses as [|c courses]; [reflexivity|].
  destruct (strptime_Ymd first_week_date) as [initial_time|e]; [|reflexivity].
  destruct (write_events_missing_period initial_time
              (if 0 <? alarm_minutes then "-PT" ++ str alarm_minutes ++ "M" else "")
              (c :: courses) course Hin Hw Hm ical_begin_base O) as (f' & e & ->).
  reflexivity.
Qed.

End CalendarMore.

(** ** Instances *)

Lemma event_block_periods_witness :
  exists text n',
    event_block sample_holiday sample_uid sample_now anchor_20230904 ""
      wednesday_even_course O = Ok (text, n')
    /\ exists s0 s1,
         index (Json.section_array wednesday_even_course) 0 = Ok s0
         /\ index (Json.section_array wednesday_even_course) 1 = Ok s1
         /\ 1 <= s0 <= 10 /\ 1 <= s1 <= 10
         /\ (s1 = s0 + 1 -> 1 <= s0 <= 9).
Proof.
  destruct (event_block sample_holiday sample_uid sample_now anchor_20230904 ""
              wednesday_even_course O) as [[text n']|e] eqn:E;
    [|vm_compute in E; discriminate E].
  exists text, n'. split; [reflexivity|].
  exact (event_block_periods sample_holiday sample_uid sample_now
           anchor_20230904 "" wednesday_even_course O text n' E).
Defined.

Lemma event_block_byday_witness :
  Json.weeks_array day_zero_course <> []
  /\ week_status_of (sort (Json.weeks_array day_zero_course)) <> EVERY_WEEK
  /\ -6 <= Json.day day_zero_course <= 7
  /\ exists text n' pre post,
       event_block sample_holiday sample_uid sample_now anchor_20230904 ""
         day_zero_course O = Ok (text, n')
       /\ text =
            pre
            ++ "RRULE:FREQ=WEEKLY;UNTIL=20230925T000000Z;INTERVAL=2;BYDAY=SU" ++ LF
            ++ post.
Proof.
  assert (H1 : Json.weeks_array day_zero_course <> []) by discriminate.
  assert (H2 : week_status_of (sort (Json.weeks_array day_zero_course))
               <> EVERY_WEEK) by discriminate.
  assert (H3 : -6 <= Json.day day_zero_course <= 7) by (cbn; lia).
  split; [exact H1|]. split; [exact H2|]. split; [exact H3|].
  destruct (event_block_byday sample_holiday sample_uid sample_now
              anchor_20230904 "" day_zero_course O H1 H2) as [Honly Hwritten].
  destruct (Hwritten H3 3 4 eq_refl eq_refl) as (text & n' & E);
    try (vm_compute; split; discriminate); try (vm_compute; discriminate).
  destruct (Honly text n' E) as (_ & wd & pre & post & Hnth & Ht).
  vm_compute in Hnth. injection Hnth as <-.
  exists text, n', pre, post. split; [exact E|exact Ht].
Defined.

Lemma event_block_rule_witness :
  Json.weeks_array wednesday_even_course <> []
  /\ exists text n',
       event_block sample_holiday sample_uid sample_now anchor_20230904 ""
         wednesday_even_course O = Ok (text, n')
       /\ exists pre post,
            text =
              pre
              ++ unlines
                   [ "RRULE:FREQ=WEEKLY;UNTIL=20231012T000000Z;INTERVAL=2;BYDAY=WE";
                     "DTSTART;TZID=Asia/Shanghai:20230913T100000";
                     "DTEND;TZID=Asia/Shanghai:20230913T113000";
                     "X-APPLE-TRAVEL-ADVISORY-BEHAVIOR:AUTOMATIC" ]
              ++ post.
Proof.
  assert (H1 : Json.weeks_array wednesday_even_course <> []) by discriminate.
  split; [exact H1|].
  destruct (event_block sample_holiday sample_uid sample_now anchor_20230904 ""
              wednesday_even_course O) as [[text n']|e] eqn:E;
    [|vm_compute in E; discriminate E].
  exists text, n'. split; [reflexivity|].
  destruct (event_block_rule sample_holiday sample_uid sample_now
              anchor_20230904 "" wednesday_even_course O text n' H1 E)
    as (pre & post & interval & s0 & s1 & slot0 & slot1
        & H0 & H1' & G0 & G1 & Hi & ->).
  exists pre, post.
  injection H0 as <-. injection H1' as <-.
  injection G0 as <-. injection G1 as <-.
  destruct Hi as (wd & Hwd & ->). injection Hwd as <-. reflexivity.
Defined.

Lemma exclusion_dates_are_occurrences_witness :
  Json.weeks_array wednesday_even_course <> []
  /\ exists text n' k rest,
       event_block sample_holiday sample_uid sample_now anchor_20230904 ""
         wednesday_even_course O = Ok (text, n')
       /\ text =
            vevent_head sample_now wednesday_even_course
            ++ unlines ["TZID:Asia/Shanghai"; "SEQUENCE:0"; "UID:" ++ sample_uid k]
            ++ ("EXDATE;TZID=Asia/Shanghai:20230927T100000" ++ LF)
            ++ "RRULE:" ++ rest
       /\ exists date j,
            "20230927T100000" = strftime_Ymd date ++ "T" ++ "100000"
            /\ sample_holiday date = true
            /\ 0 <= j
            /\ date = first_time_obj wednesday_even_recurrence
                      + 7 * (if week_status wednesday_even_recurrence =? 0
                             then 1 else 2) * j
            /\ date <= first_time_obj wednesday_even_recurrence
                       + 7 * (end_week wednesday_even_recurrence
                              - start_week wednesday_even_recurrence).
Proof.
  assert (H1 : Json.weeks_array wednesday_even_course <> []) by discriminate.
  split; [exact H1|].
  destruct (event_block sample_holiday sample_uid sample_now anchor_20230904 ""
              wednesday_even_course O) as [[text n']|e] eqn:E;
    [|vm_compute in E; discriminate E].
  destruct (exclusion_dates_are_occurrences sample_holiday sample_uid sample_now
              anchor_20230904 "" wednesday_even_course O text n' H1 E)
    as (r & s0 & slot & ex & k & rest & Hr & Hl & H0 & G0 & Ht & Hall).
  change (recurrence_of anchor_20230904 wednesday_even_course)
    with (Ok wednesday_even_recurrence) in Hr.
  injection Hr as <-.
  change (exclude_dates_of sample_holiday wednesday_even_recurrence
            (Json.section_array wednesday_even_course))
    with (Ok ["20230927T100000"]) in Hl.
  injection Hl as <-.
  change (index (Json.section_array wednesday_even_course) 0) with (Ok 3) in H0.
  injection H0 as <-.
  change (getitem class_timetable (str 3))
    with (Ok {| startTime := "100000"; endTime := "104000" |}) in G0.
  injection G0 as <-.
  exists text, n', k, rest. split; [reflexivity|]. split; [exact Ht|].
  apply (Hall "20230927T100000"). now left.
Defined.

Lemma event_block_weeks_order_witness :
  Permutation (Json.weeks_array wednesday_even_course)
    (Json.weeks_array wednesday_even_shuffled)
  /\ event_block sample_holiday sample_uid sample_now anchor_20230904 ""
       wednesday_even_shuffled O
     = event_block sample_holiday sample_uid sample_now anchor_20230904 ""
         wednesday_even_course O.
Proof.
  assert (H : Permutation (Json.weeks_array wednesday_even_course)
                (Json.weeks_array wednesday_even_shuffled)).
  { cbn. apply Permutation_sym, Permutation_cons_append with (l := [2; 4]). }
  split; [exact H|].
  apply (event_block_weeks_order sample_holiday sample_uid sample_now
           anchor_20230904 "" wednesday_even_course wednesday_even_shuffled O H);
    reflexivity.
Defined.

Lemma occurrences_on_one_weekday_witness :
  Json.weeks_array wednesday_even_course <> []
  /\ recurrence_of anchor_20230904 wednesday_even_course
     = Ok wednesday_even_recurrence
  /\ weekday anchor_20230904 = 0
  /\ weekday (occurrence_date wednesday_even_recurrence 4) = 2.
Proof.
  assert (H1 : Json.weeks_array wednesday_even_course <> []) by discriminate.
  assert (H2 : recurrence_of anchor_20230904 wednesday_even_course
               = Ok wednesday_even_recurrence) by reflexivity.
  split; [exact H1|]. split; [exact H2|]. split; [reflexivity|].
  apply (proj2 (occurrences_on_one_weekday anchor_20230904 wednesday_even_course
                  wednesday_even_recurrence H1 H2 4));
    [reflexivity|cbn; lia].
Defined.

Lemma generate_ics_no_weeks_witness :
  [unscheduled_course] <> []
  /\ Forall (fun c => Json.weeks_array c = []) [unscheduled_course]
  /\ sample_strptime "20230904" = Ok anchor_20230904
  /\ written
       (generate_ics_from_json sample_holiday sample_uid sample_now
          sample_strptime [unscheduled_course] "20230904" 30)
     = Some ("课表-" ++ sample_now ++ ".ics", ical_begin_base ++ ical_end).
Proof.
  assert (H1 : [unscheduled_course] <> []) by discriminate.
  assert (H2 : Forall (fun c => Json.weeks_array c = []) [unscheduled_course])
    by (repeat constructor).
  split; [exact H1|]. split; [exact H2|]. split; [reflexivity|].
  now rewrite (generate_ics_no_weeks sample_holiday sample_uid sample_now
                 sample_strptime [unscheduled_course] "20230904" 30
                 anchor_20230904 H1 H2 eq_refl).
Defined.

Lemma event_block_reminder_witness :
  exists text n',
    event_block sample_holiday sample_uid sample_now anchor_20230904
      (if 0 <? 30 then "-PT" ++ str 30 ++ "M" else "")
      wednesday_even_course O = Ok (text, n')
    /\ n' = 3%nat.
Proof.
  destruct (event_block sample_holiday sample_uid sample_now anchor_20230904
              (if 0 <? 30 then "-PT" ++ str 30 ++ "M" else "")
              wednesday_even_course O) as [[text n']|e] eqn:E;
    [|vm_compute in E; discriminate E].
  exists text, n'. split; [reflexivity|].
  exact (proj1 (event_block_reminder sample_holiday sample_uid sample_now
                  anchor_20230904 30 wednesday_even_course O text n' E)).
Defined.

Lemma generate_ics_missing_period_witness :
  In last_row_course [wednesday_even_course; last_row_course]
  /\ Json.weeks_array last_row_course <> []
  /\ has_missing_period last_row_course
  /\ returned
       (generate_ics_from_json sample_holiday sample_uid sample_now
          sample_strptime [wednesday_even_course; last_row_course] "20230904" 0)
     = None.
Proof.
  assert (H1 : In last_row_course [wednesday_even_course; last_row_course])
    by (right; now left).
  assert (H2 : Json.weeks_array last_row_course <> []) by discriminate.
  assert (H3 : has_missing_period last_row_course).
  { exists 11. split; [right; reflexivity|reflexivity]. }
  split; [exact H1|]. split; [exact H2|]. split; [exact H3|].
  exact (generate_ics_missing_period sample_holiday sample_uid sample_now
           sample_strptime [wednesday_even_course; last_row_course]
           last_row_course "20230904" 0 H1 H2 H3).
Defined.

Lemma format_building_name_idempotent_witness :
  prefix "济-" "B" = false /\ format_building_name "B" = "B".
Proof.
  split; [reflexivity|].
  apply (proj1 (proj2 format_building_name_idempotent) "B"). reflexivity.
Defined.

Lemma exclusion_set_of_larger_witness :
  valid_ordinal anchor_20230904 = true
  /\ Json.weeks_array wednesday_late_course <> []
  /\ Json.weeks_array wednesday_even_course <> []
  /\ exclusion_set sample_holiday anchor_20230904 wednesday_even_course
     = Ok ["20230927T100000"]
  /\ exists l,
       exclusion_set sample_holiday anchor_20230904 wednesday_late_course = Ok l
       /\ incl l ["20230927T100000"].
Proof.
  split; [reflexivity|]. split; [discriminate|]. split; [discriminate|].
  split; [reflexivity|].
  apply (exclusion_set_of_larger sample_holiday anchor_20230904
           wednesday_late_course wednesday_even_course ["20230927T100000"]);
    try reflexivity; try discriminate; vm_compute; discriminate.
Defined.
